(** * WEB2PG: full-page screenshot capture

    A shallow embedding of the capture pipeline of the browser extension:

    - [extension/background/service-worker.js]: [handleCaptureScreenshot],
      [captureSingleScreenshot], [captureFullPageWithScrolling],
      [stitchScreenshots], [ensureOffscreenDocument] and the
      [captureScreenshot] case of the message listener;
    - [extension/offscreen/offscreen.js]: [stitchScreenshots] and its
      message listener.

    The browser is the environment.  Every call into it ([chrome.scripting],
    [chrome.tabs], [chrome.runtime], [chrome.offscreen], [Image], the canvas)
    is answered by a [Host]: a record of replies, indexed by the number of
    the call where a call is made more than once.  The code threads a
    [World] (the tab's scroll offset, the two module-level flags of the
    service worker, call counters and the trace of calls made).

    Around the pipeline, further modules embed the function injected
    into the page to measure it, the screenshot step and the search
    guard of [extension/popup/popup.js], the text helpers of
    [extension/shared/utils.js], the content script's tag filter and
    its extractors of content and links, and two guards of the proxy
    server.  There a text is the list of its UTF-16 code units.

    Heights and offsets are integers, as the DOM reports them, in the
    range where the division of two of them is exact in a double.  The
    canvas [stitchCanvas] of [offscreen.html] is taken to exist.  Calls to
    [console.log] and [console.warn] are left out. *)

From Stdlib Require Import ZArith List String Bool Arith Lia.
From Stdlib Require Import Sorted DecimalNat DecimalString.
Import ListNotations.

Open Scope string_scope.
Open Scope list_scope.
Open Scope Z_scope.

(* ------------------------------------------------------------------ *)
(** ** JavaScript values shared by both scripts *)

Module Js.

(** [new Error(message)] *)
Inductive JsError := Error (message : string).

Definition message (e : JsError) : string :=
  match e with Error m => m end.

(** The state of a promise: fulfilled, rejected, or not settled. *)
Inductive Outcome (A : Type) :=
| Returned (a : A)
| Threw (e : JsError)
| Pending.
Arguments Returned {A} a.
Arguments Threw {A} e.
Arguments Pending {A}.

(** [`${n}`] for a non-negative integer *)
Definition string_of_nat (n : nat) : string :=
  NilEmpty.string_of_uint (Nat.to_uint n).

(** [hay.includes(needle)] *)
Fixpoint includes (needle hay : string) : bool :=
  if String.prefix needle hay then true
  else match hay with
       | EmptyString => false
       | String _ rest => includes needle rest
       end.

(** [a || b] on strings: the empty string is falsy. *)
Definition or_else (a b : string) : string :=
  if String.eqb a "" then b else a.

(** What [img.src = undefined] and a template literal make of
    [undefined]. *)
Definition undefined : string := "undefined".

End Js.
Import Js.

(** One entry of the [screenshots] array built by the service worker. *)
Record Screenshot := {
  dataUrl : string;
  index : nat;
  shot_scrollY : Z
}.

(* ------------------------------------------------------------------ *)
(** ** extension/offscreen/offscreen.js *)

Module Offscreen.

(** [ctx.drawImage(img, 0, dy, dw, dh)] *)
Record DrawOp := {
  src : string;     (* img.src *)
  tile : nat;       (* the forEach index of the callback that drew it *)
  dy : Z;
  dw : Z;
  dh : Z
}.

Record Canvas := {
  width : Z;
  height : Z;
  draws : list DrawOp   (* oldest first *)
}.

(** The environment of the offscreen document. *)
Record Decoder := {
  (** order in which the [Image] objects fire their [load] or [error]
      event, as indices into [screenshots] *)
  decode_order : list nat;
  (** [Some h]: the data URL decodes to an image of height [h] ([load]);
      [None]: it does not ([error]) *)
  decode_reply : string -> option Z;
  (** [canvas.toDataURL('image/png', 1.0)], which may throw *)
  toDataURL : Canvas -> JsError + string
}.

(** The variables closed over by the two callbacks. *)
Record Stitch := {
  canvas : Canvas;
  loadedCount : nat;
  currentY : Z;
  promise : Outcome string
}.

(** [resolve]/[reject]: only the first call has an effect. *)
Definition settle (r : Outcome string) (s : Stitch) : Stitch :=
  match promise s with
  | Pending =>
      {| canvas := canvas s; loadedCount := loadedCount s;
         currentY := currentY s; promise := r |}
  | _ => s
  end.

Definition drawImage (d : DrawOp) (c : Canvas) : Canvas :=
  {| width := width c; height := height c; draws := draws c ++ [d] |}.

(** The two shapes of object the listener passes to [sendResponse]. *)
Inductive StitchResponse :=
| StitchOk (dataUrl : string)      (* { success: true, dataUrl } *)
| StitchErr (error : string).      (* { success: false, error } *)

Section WithDecoder.
Variable env : Decoder.

(** [img.onload] of the image at [index] *)
Definition onload (screenshots : list Screenshot) (w : Z)
           (screenshot : Screenshot) (index : nat) (img_height : Z)
           (s : Stitch) : Stitch :=
  let canvas1 :=
    drawImage {| src := dataUrl screenshot; tile := index;
                 dy := currentY s; dw := w; dh := img_height |}
              (canvas s) in
  let s1 := {| canvas := canvas1;
               loadedCount := S (loadedCount s);
               currentY := currentY s + img_height;
               promise := promise s |} in
  if Nat.eqb (loadedCount s1) (List.length screenshots) then
    match toDataURL env canvas1 with
    | inr url => settle (Returned url) s1
    | inl error =>
        settle (Threw (Error ("Failed to convert canvas to data URL: "
                                ++ message error))) s1
    end
  else s1.

(** [img.onerror] of the image at [index] *)
Definition onerror (index : nat) (s : Stitch) : Stitch :=
  settle (Threw (Error ("Failed to load screenshot "
                          ++ string_of_nat index)%string)) s.

(** The event fired by the image at [index], once its source decoded
    or failed to. *)
Definition fire (screenshots : list Screenshot) (w : Z)
           (s : Stitch) (index : nat) : Stitch :=
  match nth_error screenshots index with
  | None => s
  | Some screenshot =>
      match decode_reply env (dataUrl screenshot) with
      | Some h => onload screenshots w screenshot index h s
      | None => onerror index s
      end
  end.

Definition start (w totalHeight : Z) : Stitch :=
  {| canvas := {| width := w; height := totalHeight; draws := [] |};
     loadedCount := 0;
     currentY := 0;
     promise := Pending |}.

(** [stitchScreenshots(screenshots, width, totalHeight)]: the canvas
    is sized (which clears it), every image is given its source, and
    the events arrive in the order the decoder completes them. *)
Definition stitch (screenshots : list Screenshot) (w totalHeight : Z)
  : Stitch :=
  fold_left (fire screenshots w) (decode_order env) (start w totalHeight).

Definition stitchScreenshots (screenshots : list Screenshot)
           (w totalHeight : Z) : Outcome string :=
  promise (stitch screenshots w totalHeight).

(** The [stitchScreenshots] case of the listener; [None] while no
    response has been sent. *)
Definition onMessage (screenshots : list Screenshot) (w totalHeight : Z)
  : option StitchResponse :=
  match stitchScreenshots screenshots w totalHeight with
  | Returned url => Some (StitchOk url)
  | Threw error => Some (StitchErr (message error))
  | Pending => None
  end.

End WithDecoder.

(** Where the callback of tile [k] drew, if it drew. *)
Definition drawn_at (k : nat) (c : Canvas) : option Z :=
  option_map dy (find (fun d => Nat.eqb (tile d) k) (draws c)).

End Offscreen.

(* ------------------------------------------------------------------ *)
(** ** The browser as seen from the service worker *)

Module Chrome.

(** What [getPageDimensions] returns. *)
Record Dimensions := {
  fullHeight : Z;
  viewportWidth : Z;
  viewportHeight : Z;
  dim_scrollY : Z
}.

(** The calls the service worker makes, in the order it makes them. *)
Inductive Event :=
| EvGetPageDimensions (tabId : nat)
| EvScrollTo (tabId : nat) (y : Z)
| EvSleep (ms : Z)
| EvCaptureVisibleTab
| EvGetContexts
| EvCreateDocument
| EvSendMessage (screenshots : list Screenshot) (w totalHeight : Z)
| EvConsoleError (text : string).

(** [chrome.scripting.executeScript({func: getPageDimensions})] *)
Inductive ProbeReply :=
| ProbeRejects (e : JsError)
| ProbeEmpty                       (* no [pageInfo[0].result] *)
| ProbeResult (d : Dimensions).

(** [chrome.tabs.captureVisibleTab]: when it settles and with what. *)
Record CaptureReply := {
  latency : Z;                     (* milliseconds *)
  image : JsError + string
}.

(** [chrome.runtime.sendMessage] towards the offscreen document. *)
Inductive PortReply :=
| PortDelivers                     (* the offscreen listener answers *)
| PortSilent                       (* resolves with [undefined] *)
| PortRejects (e : JsError).

Record Host := {
  probe_reply : ProbeReply;
  (** the k-th injection of [scrollToPosition]: [None] when it ran *)
  scroll_reply : nat -> option JsError;
  (** [window.scrollY] after [window.scrollTo(0, y)] *)
  window_scrollTo : Z -> Z;
  capture_reply : nat -> CaptureReply;
  (** the k-th [getContexts]: the length of the array it resolves to *)
  contexts_reply : nat -> JsError + nat;
  (** the k-th [createDocument]: [None] when it resolved *)
  create_reply : nat -> option JsError;
  port_reply : PortReply;
  decoder : Offscreen.Decoder;
  (** an external cancellation signal: whether it has been raised by the
      time the k-th capture call is issued.  No code reads it. *)
  cancel_raised : nat -> bool;
  (** how many iterations of a loop without bound are followed *)
  horizon : nat
}.

Record World := {
  window_scrollY : Z;
  scroll_calls : nat;
  capture_calls : nat;
  contexts_calls : nat;
  create_calls : nat;
  offscreenDocumentCreating : bool;
  offscreenDocumentCreated : bool;
  trace : list Event               (* oldest first *)
}.

Definition emit (e : Event) (w : World) : World :=
  {| window_scrollY := window_scrollY w;
     scroll_calls := scroll_calls w;
     capture_calls := capture_calls w;
     contexts_calls := contexts_calls w;
     create_calls := create_calls w;
     offscreenDocumentCreating := offscreenDocumentCreating w;
     offscreenDocumentCreated := offscreenDocumentCreated w;
     trace := trace w ++ [e] |}.

Definition set_scrollY (y : Z) (w : World) : World :=
  {| window_scrollY := y;
     scroll_calls := scroll_calls w;
     capture_calls := capture_calls w;
     contexts_calls := contexts_calls w;
     create_calls := create_calls w;
     offscreenDocumentCreating := offscreenDocumentCreating w;
     offscreenDocumentCreated := offscreenDocumentCreated w;
     trace := trace w |}.

Definition count_scroll (w : World) : World :=
  {| window_scrollY := window_scrollY w;
     scroll_calls := S (scroll_calls w);
     capture_calls := capture_calls w;
     contexts_calls := contexts_calls w;
     create_calls := create_calls w;
     offscreenDocumentCreating := offscreenDocumentCreating w;
     offscreenDocumentCreated := offscreenDocumentCreated w;
     trace := trace w |}.

Definition count_capture (w : World) : World :=
  {| window_scrollY := window_scrollY w;
     scroll_calls := scroll_calls w;
     capture_calls := S (capture_calls w);
     contexts_calls := contexts_calls w;
     create_calls := create_calls w;
     offscreenDocumentCreating := offscreenDocumentCreating w;
     offscreenDocumentCreated := offscreenDocumentCreated w;
     trace := trace w |}.

Definition count_contexts (w : World) : World :=
  {| window_scrollY := window_scrollY w;
     scroll_calls := scroll_calls w;
     capture_calls := capture_calls w;
     contexts_calls := S (contexts_calls w);
     create_calls := create_calls w;
     offscreenDocumentCreating := offscreenDocumentCreating w;
     offscreenDocumentCreated := offscreenDocumentCreated w;
     trace := trace w |}.

Definition count_create (w : World) : World :=
  {| window_scrollY := window_scrollY w;
     scroll_calls := scroll_calls w;
     capture_calls := capture_calls w;
     contexts_calls := contexts_calls w;
     create_calls := S (create_calls w);
     offscreenDocumentCreating := offscreenDocumentCreating w;
     offscreenDocumentCreated := offscreenDocumentCreated w;
     trace := trace w |}.

Definition set_creating (b : bool) (w : World) : World :=
  {| window_scrollY := window_scrollY w;
     scroll_calls := scroll_calls w;
     capture_calls := capture_calls w;
     contexts_calls := contexts_calls w;
     create_calls := create_calls w;
     offscreenDocumentCreating := b;
     offscreenDocumentCreated := offscreenDocumentCreated w;
     trace := trace w |}.

Definition set_created (b : bool) (w : World) : World :=
  {| window_scrollY := window_scrollY w;
     scroll_calls := scroll_calls w;
     capture_calls := capture_calls w;
     contexts_calls := contexts_calls w;
     create_calls := create_calls w;
     offscreenDocumentCreating := offscreenDocumentCreating w;
     offscreenDocumentCreated := b;
     trace := trace w |}.

(** An [async] computation of the service worker. *)
Definition Async (A : Type) : Type := World -> Outcome A * World.

Definition ret {A} (a : A) : Async A := fun w => (Returned a, w).

Definition throw {A} (e : JsError) : Async A := fun w => (Threw e, w).

Definition bind {A B} (m : Async A) (k : A -> Async B) : Async B :=
  fun w =>
    match m w with
    | (Returned a, w1) => k a w1
    | (Threw e, w1) => (Threw e, w1)
    | (Pending, w1) => (Pending, w1)
    end.

(** [try { m } catch (e) { handler e }] *)
Definition try_catch {A} (m : Async A) (handler : JsError -> Async A)
  : Async A :=
  fun w =>
    match m w with
    | (Threw e, w1) => handler e w1
    | r => r
    end.

(** An [await] that never resumes. *)
Definition never {A} : Async A := fun w => (Pending, w).

Definition console_error (text : string) : Async unit :=
  fun w => (Returned tt, emit (EvConsoleError text) w).

(** [sleep(ms)] *)
Definition sleep (ms : Z) : Async unit :=
  fun w => (Returned tt, emit (EvSleep ms) w).

Section WithHost.
Variable host : Host.

(** [chrome.scripting.executeScript({func: getPageDimensions})], with
    the test [!pageInfo || !pageInfo[0] || !pageInfo[0].result] folded
    into [None]. *)
Definition executeScript_getPageDimensions (tabId : nat)
  : Async (option Dimensions) :=
  fun w =>
    let w1 := emit (EvGetPageDimensions tabId) w in
    match probe_reply host with
    | ProbeRejects e => (Threw e, w1)
    | ProbeEmpty => (Returned None, w1)
    | ProbeResult d => (Returned (Some d), w1)
    end.

(** [chrome.scripting.executeScript({func: scrollToPosition, args: [y]})]:
    when the injection runs, the page executes [window.scrollTo(0, y)]. *)
Definition executeScript_scrollToPosition (tabId : nat) (y : Z)
  : Async unit :=
  fun w =>
    let w1 := emit (EvScrollTo tabId y) (count_scroll w) in
    match scroll_reply host (scroll_calls w) with
    | None => (Returned tt, set_scrollY (window_scrollTo host y) w1)
    | Some e => (Threw e, w1)
    end.

(** Issuing [chrome.tabs.captureVisibleTab(null, {format: 'png'})]. *)
Definition call_captureVisibleTab (w : World) : CaptureReply * World :=
  (capture_reply host (capture_calls w),
   emit EvCaptureVisibleTab (count_capture w)).

Definition settled (r : JsError + string) : Outcome string :=
  match r with
  | inr url => Returned url
  | inl e => Threw e
  end.

(** [await chrome.tabs.captureVisibleTab(...)] *)
Definition captureVisibleTab : Async string :=
  fun w =>
    let (reply, w1) := call_captureVisibleTab w in
    (settled (image reply), w1).

End WithHost.

End Chrome.

(* ------------------------------------------------------------------ *)
(** ** extension/background/service-worker.js *)

Module ServiceWorker.
Import Chrome.

Notation "x <- m ;; k" := (bind m (fun x => k))
  (at level 61, m at next level, right associativity).
Notation "m ;; k" := (bind m (fun _ => k))
  (at level 61, right associativity).

(** *** [ensureOffscreenDocument]

    The function is written as the machine its [await]s make of it: a
    call runs from one suspension point to the next without interruption,
    and other calls may run in between.  [advance] is one such run. *)

Inductive EnsurePC :=
| AtEntry                       (* called, body not yet run *)
| AwaitPoll (i : nat)           (* in [await sleep(100)] of iteration [i] *)
| AwaitContexts (k : nat)       (* in [await getContexts], its k-th call *)
| AwaitCreate (k : nat)         (* in [await createDocument], its k-th call *)
| Settled (r : Outcome unit).

Definition poll_limit : nat := 50.

Definition timeout_error : JsError :=
  Error "Timeout waiting for offscreen document creation".

(** The [catch] and [finally] blocks, entered with [error]. *)
Definition ensure_catch (error : JsError) (w : World) : EnsurePC * World :=
  if includes "already exists" (message error) then
    (Settled (Returned tt), set_creating false (set_created true w))
  else
    (Settled (Threw error),
     set_creating false (emit (EvConsoleError "Failed to create offscreen document") w)).

(** Leaving the [try] block normally, through [finally]. *)
Definition ensure_created (w : World) : EnsurePC * World :=
  (Settled (Returned tt), set_creating false (set_created true w)).

Section WithHost.
Variable host : Host.

Definition advance (pc : EnsurePC) (w : World) : EnsurePC * World :=
  match pc with
  | AtEntry =>
      if offscreenDocumentCreated w then (Settled (Returned tt), w)
      else if offscreenDocumentCreating w then
        (* for (let i = 0; i < 50; i++) { await sleep(100); ... *)
        (AwaitPoll 0, emit (EvSleep 100) w)
      else
        (AwaitContexts (contexts_calls w),
         emit EvGetContexts (count_contexts (set_creating true w)))
  | AwaitPoll i =>
      if offscreenDocumentCreated w then (Settled (Returned tt), w)
      else if Nat.ltb (S i) poll_limit then
        (AwaitPoll (S i), emit (EvSleep 100) w)
      else (Settled (Threw timeout_error), w)
  | AwaitContexts k =>
      match contexts_reply host k with
      | inr existingContexts_length =>
          if Nat.ltb 0 existingContexts_length then
            (* the flags are set in the body, then again by [finally] *)
            ensure_created w
          else
            (AwaitCreate (create_calls w),
             emit EvCreateDocument (count_create w))
      | inl error => ensure_catch error w
      end
  | AwaitCreate k =>
      match create_reply host k with
      | None => ensure_created w
      | Some error => ensure_catch error w
      end
  | Settled r => (Settled r, w)
  end.

(** A call that nothing else interleaves with. *)
Fixpoint run_ensure (fuel : nat) (pc : EnsurePC) (w : World)
  : Outcome unit * World :=
  match pc with
  | Settled r => (r, w)
  | _ =>
      match fuel with
      | O => (Pending, w)
      | S fuel' => let (pc', w') := advance pc w in run_ensure fuel' pc' w'
      end
  end.

Definition ensureOffscreenDocument : Async unit :=
  run_ensure (S (S poll_limit)) AtEntry.

(** Two calls sharing the flags. *)
Inductive Caller := First | Second.

Record Calls := {
  pc_first : EnsurePC;
  pc_second : EnsurePC;
  shared : World
}.

(** The event loop resumes one of the two calls. *)
Definition resume (s : Calls) (c : Caller) : Calls :=
  match c with
  | First =>
      let (pc', w') := advance (pc_first s) (shared s) in
      {| pc_first := pc'; pc_second := pc_second s; shared := w' |}
  | Second =>
      let (pc', w') := advance (pc_second s) (shared s) in
      {| pc_first := pc_first s; pc_second := pc'; shared := w' |}
  end.

Definition schedule (order : list Caller) (s : Calls) : Calls :=
  fold_left resume order s.

(** Both calls issued, the first one before the second, neither resumed
    since. *)
Definition overlapping (w : World) : Calls :=
  schedule [First; Second]
           {| pc_first := AtEntry; pc_second := AtEntry; shared := w |}.

(** *** [stitchScreenshots] *)

(** [chrome.runtime.sendMessage({action: 'stitchScreenshots', ...})]: the
    message reaches the listener of the offscreen document. *)
Definition sendMessage_stitchScreenshots (screenshots : list Screenshot)
           (w totalHeight : Z) : Async (option Offscreen.StitchResponse) :=
  fun world =>
    let world1 := emit (EvSendMessage screenshots w totalHeight) world in
    match port_reply host with
    | PortRejects e => (Threw e, world1)
    | PortSilent => (Returned None, world1)
    | PortDelivers =>
        match Offscreen.onMessage (decoder host) screenshots w totalHeight with
        | Some response => (Returned (Some response), world1)
        | None => (Pending, world1)
        end
    end.

Definition stitchScreenshots (screenshots : list Screenshot)
           (w totalHeight : Z) : Async string :=
  try_catch
    (ensureOffscreenDocument ;;
     response <- sendMessage_stitchScreenshots screenshots w totalHeight ;;
     match response with
     | Some (Offscreen.StitchOk url) => ret url
     | Some (Offscreen.StitchErr error) =>
         throw (Error (or_else error "Failed to stitch screenshots"))
     | None => throw (Error "Failed to stitch screenshots")
     end)
    (fun error => console_error "Stitching error:" ;; throw error).

(** *** [captureSingleScreenshot] *)

(** [Promise.race([capturePromise, timeoutPromise])] against the 5000 ms
    timer, which was armed first. *)
Definition captureSingleScreenshot (tabId : nat) : Async string :=
  fun w =>
    let (reply, w1) := call_captureVisibleTab host w in
    if latency reply <? 5000 then (settled (image reply), w1)
    else (Threw (Error "Screenshot timeout"), w1).

(** *** [captureFullPageWithScrolling] *)

(** The bound of [for (let i = 0; i < numScreenshots; i++)]. *)
Inductive LoopBound :=
| Bounded (n : Z)
| Unbounded.                    (* [Infinity] *)

(** [Math.ceil(a / b)] on integers.  [x / 0] is [Infinity] for [x > 0];
    for [x <= 0] it is [-Infinity] or [NaN], below which no [i >= 0] lies,
    as none lies below 0. *)
Definition Math_ceil_div (a b : Z) : LoopBound :=
  if b =? 0 then (if 0 <? a then Unbounded else Bounded 0)
  else Bounded (- ((- a) / b)).

(** [i < numScreenshots - 1] *)
Definition before_last (i : nat) (numScreenshots : LoopBound) : bool :=
  match numScreenshots with
  | Bounded n => Z.of_nat i <? n - 1
  | Unbounded => true
  end.

Definition maxRetries : Z := 3.

(** [Math.min(1000 * Math.pow(2, retries - 1), 3000)] *)
Definition waitTime (retries : Z) : Z :=
  Z.min (1000 * 2 ^ (retries - 1)) 3000.

(** [while (retries < maxRetries) { try { ...; break } catch { ... } }];
    [fuel] bounds the iterations. *)
Fixpoint capture_with_retry (fuel : nat) (retries : Z) : Async string :=
  match fuel with
  | O => never
  | S fuel' =>
      if retries <? maxRetries then
        try_catch (captureVisibleTab host)
          (fun captureError =>
             let retries := retries + 1 in
             if retries >=? maxRetries then throw captureError
             else
               sleep (waitTime retries) ;;
               capture_with_retry fuel' retries)
      else ret undefined
  end.

(** The body of the [for] loop at [i]. *)
Definition capture_section (tabId : nat) (viewportHeight : Z)
           (numScreenshots : LoopBound) (i : nat) : Async Screenshot :=
  let targetScrollY := Z.of_nat i * viewportHeight in
  executeScript_scrollToPosition host tabId targetScrollY ;;
  sleep 500 ;;
  dataUrl <- capture_with_retry (Z.to_nat maxRetries) 0 ;;
  (if before_last i numScreenshots then sleep 1100 else ret tt) ;;
  ret {| dataUrl := dataUrl; index := i; shot_scrollY := targetScrollY |}.

(** [iterations] rounds of the [for] loop, from [i] on. *)
Fixpoint capture_sections (tabId : nat) (viewportHeight : Z)
         (numScreenshots : LoopBound) (iterations i : nat)
         (screenshots : list Screenshot) : Async (list Screenshot) :=
  match iterations with
  | O => ret screenshots
  | S iterations' =>
      screenshot <- capture_section tabId viewportHeight numScreenshots i ;;
      capture_sections tabId viewportHeight numScreenshots iterations' (S i)
                       (screenshots ++ [screenshot])
  end.

(** The whole [for] loop.  Without a bound it ends only by throwing; it
    is followed for [horizon host] rounds. *)
Definition capture_all_sections (tabId : nat) (viewportHeight : Z)
           (numScreenshots : LoopBound) : Async (list Screenshot) :=
  match numScreenshots with
  | Bounded n =>
      capture_sections tabId viewportHeight numScreenshots (Z.to_nat n) 0 []
  | Unbounded =>
      capture_sections tabId viewportHeight numScreenshots (horizon host) 0 [] ;;
      never
  end.

Definition captureFullPageWithScrolling (tabId : nat)
           (dimensions : Dimensions) : Async string :=
  let numScreenshots :=
    Math_ceil_div (fullHeight dimensions) (viewportHeight dimensions) in
  let originalScrollY := dim_scrollY dimensions in
  try_catch
    (screenshots <-
       capture_all_sections tabId (viewportHeight dimensions) numScreenshots ;;
     stitchedDataUrl <-
       stitchScreenshots screenshots (viewportWidth dimensions)
                         (fullHeight dimensions) ;;
     executeScript_scrollToPosition host tabId originalScrollY ;;
     ret stitchedDataUrl)
    (fun error =>
       try_catch
         (executeScript_scrollToPosition host tabId originalScrollY)
         (fun e => console_error "Failed to restore scroll position:") ;;
       throw error).

(** *** [handleCaptureScreenshot] *)

(** The [try] block. *)
Definition capture_pipeline (tabId : nat) : Async string :=
  pageInfo <- executeScript_getPageDimensions host tabId ;;
  match pageInfo with
  | None => throw (Error "Failed to get page dimensions")
  | Some dimensions =>
      if fullHeight dimensions <=? viewportHeight dimensions then
        captureSingleScreenshot tabId
      else
        captureFullPageWithScrolling tabId dimensions
  end.

(** [null] is [None]. *)
Definition handleCaptureScreenshot (tabId : nat) : Async (option string) :=
  try_catch
    (dataUrl <- capture_pipeline tabId ;; ret (Some dataUrl))
    (fun error =>
       console_error ("Screenshot capture error: " ++ message error)%string ;;
       ret None).

(** *** The [captureScreenshot] case of the message listener *)

(** The two shapes of object passed to [sendResponse]. *)
Inductive Response :=
| ResponseOk (dataUrl : option string)   (* { success: true, dataUrl } *)
| ResponseErr (error : string).          (* { success: false, error } *)

Definition success (r : Response) : bool :=
  match r with
  | ResponseOk _ => true
  | ResponseErr _ => false
  end.

(** The [error] property, where the object has one. *)
Definition error_field (r : Response) : option string :=
  match r with
  | ResponseOk _ => None
  | ResponseErr error => Some error
  end.

(** The [dataUrl] property, where it is a string. *)
Definition dataUrl_field (r : Response) : option string :=
  match r with
  | ResponseOk dataUrl => dataUrl
  | ResponseErr _ => None
  end.

(** [handleCaptureScreenshot(request.tabId).then(...).catch(...)]: the
    response sent, if one is. *)
Definition onMessage_captureScreenshot (tabId : nat) : Async Response :=
  fun w =>
    match handleCaptureScreenshot tabId w with
    | (Returned dataUrl, w1) => (Returned (ResponseOk dataUrl), w1)
    | (Threw error, w1) => (Returned (ResponseErr (message error)), w1)
    | (Pending, w1) => (Pending, w1)
    end.

End WithHost.
End ServiceWorker.

(* ------------------------------------------------------------------ *)
(** ** Vocabulary of the statements *)

Module Slots.
Import Offscreen.

(** The image at [index] exists and fires [load]. *)
Definition loads (env : Decoder) (screenshots : list Screenshot)
           (index : nat) : bool :=
  match nth_error screenshots index with
  | Some screenshot =>
      match decode_reply env (dataUrl screenshot) with
      | Some _ => true
      | None => false
      end
  | None => false
  end.

(** The image at [index] exists and fires [error]. *)
Definition fails (env : Decoder) (screenshots : list Screenshot)
           (index : nat) : bool :=
  match nth_error screenshots index with
  | Some screenshot =>
      match decode_reply env (dataUrl screenshot) with
      | Some _ => false
      | None => true
      end
  | None => false
  end.

(** The error [img.onerror] rejects with. *)
Definition load_error (index : nat) : JsError :=
  Error ("Failed to load screenshot " ++ string_of_nat index)%string.

(** The decoded height of a tile. *)
Definition img_height (env : Decoder) (screenshot : Screenshot) : Z :=
  match decode_reply env (dataUrl screenshot) with
  | Some h => h
  | None => 0
  end.

(** The vertical slot of tile [k]: the decoded heights of the tiles
    before it, summed. *)
Definition slot (env : Decoder) (screenshots : list Screenshot) (k : nat) : Z :=
  fold_right Z.add 0 (map (img_height env) (firstn k screenshots)).

(** Which callback drew where, oldest first. *)
Definition placements (c : Canvas) : list (nat * Z) :=
  map (fun d => (tile d, dy d)) (draws c).

End Slots.

(* ------------------------------------------------------------------ *)
(** ** Concrete tiles and decoders *)

Module Tiles.
Import Offscreen.

Definition tile_a : Screenshot :=
  {| dataUrl := "data:image/png;base64,AAAA"; index := 0; shot_scrollY := 0 |}.

Definition tile_b : Screenshot :=
  {| dataUrl := "data:image/png;base64,BBBB"; index := 1; shot_scrollY := 600 |}.

Definition broken : string := "data:image/png;base64,????".

(** Every image but [broken] decodes, to 600 rows. *)
Definition decode_600 (url : string) : option Z :=
  if String.eqb url broken then None else Some 600.

Definition encode (c : Canvas) : JsError + string :=
  inr "data:image/png;base64,STITCHED".

(** The second image finishes decoding before the first. *)
Definition second_first : Decoder :=
  {| decode_order := [1; 0]%nat;
     decode_reply := decode_600;
     toDataURL := encode |}.

(** Images finish decoding in the order they were given their source. *)
Definition in_order (n : nat) : Decoder :=
  {| decode_order := seq 0 n;
     decode_reply := decode_600;
     toDataURL := encode |}.

Definition tile_broken : Screenshot :=
  {| dataUrl := broken; index := 2; shot_scrollY := 1200 |}.

Definition tile_d : Screenshot :=
  {| dataUrl := "data:image/png;base64,DDDD"; index := 3; shot_scrollY := 1800 |}.

Definition tile_e : Screenshot :=
  {| dataUrl := "data:image/png;base64,EEEE"; index := 4; shot_scrollY := 2400 |}.

(** Five tiles, of which the one at index 2 does not decode. *)
Definition five_tiles : list Screenshot :=
  [tile_a; tile_b; tile_broken; tile_d; tile_e].

End Tiles.

(* ------------------------------------------------------------------ *)
(** ** Reading a session off the world it leaves *)

Module Session.
Import Chrome ServiceWorker.

(** The world after [captureVisibleTab] was called once more. *)
Definition captured (w : World) : World :=
  emit EvCaptureVisibleTab (count_capture w).

(** The world after [sleep(ms)]. *)
Definition slept (ms : Z) (w : World) : World := emit (EvSleep ms) w.

(** The world after [scrollToPosition] was injected with [y] and ran. *)
Definition scrolled (host : Host) (tabId : nat) (y : Z) (w : World) : World :=
  set_scrollY (window_scrollTo host y) (emit (EvScrollTo tabId y) (count_scroll w)).

(** The world after the injection of [scrollToPosition] was rejected. *)
Definition scroll_rejected (tabId : nat) (y : Z) (w : World) : World :=
  emit (EvScrollTo tabId y) (count_scroll w).

(** The image of the [k]-th capture call from [w] on. *)
Definition attempt (host : Host) (w : World) (k : nat) : JsError + string :=
  image (capture_reply host (k + capture_calls w)).

Definition is_failure (r : JsError + string) : bool :=
  match r with
  | inl _ => true
  | inr _ => false
  end.

(** How many of the capture calls numbered [from], ..., [from + count - 1]
    fail. *)
Definition failures (host : Host) (from count : nat) : nat :=
  List.length
    (filter (fun k => is_failure (image (capture_reply host k)))
            (seq from count)).

(** The calls of the retry loop when its first [failed] attempts fail. *)
Definition retry_events (failed : nat) : list Event :=
  match failed with
  | O => [EvCaptureVisibleTab]
  | S O => [EvCaptureVisibleTab; EvSleep 1000; EvCaptureVisibleTab]
  | _ => [EvCaptureVisibleTab; EvSleep 1000;
          EvCaptureVisibleTab; EvSleep 2000; EvCaptureVisibleTab]
  end.

(** The calls of one round of the [for] loop. *)
Definition section_events (tabId : nat) (viewportHeight : Z)
           (numScreenshots : LoopBound) (i failed : nat) : list Event :=
  [EvScrollTo tabId (Z.of_nat i * viewportHeight); EvSleep 500]
    ++ retry_events failed
    ++ (if before_last i numScreenshots then [EvSleep 1100] else []).

(** The offsets passed to [scrollToPosition], in order. *)
Fixpoint scroll_requests (events : list Event) : list Z :=
  match events with
  | [] => []
  | EvScrollTo _ y :: rest => y :: scroll_requests rest
  | _ :: rest => scroll_requests rest
  end.

(** Where the page is after the injections of [requests], the first of
    them being the [k]-th the host is asked for, when it was at [y]
    before them: an injection that the host refuses leaves the page
    where it is. *)
Fixpoint offset_after (host : Host) (k : nat) (y : Z) (requests : list Z)
  : Z :=
  match requests with
  | [] => y
  | target :: rest =>
      offset_after host (S k)
        (match scroll_reply host k with
         | None => window_scrollTo host target
         | Some _ => y
         end)
        rest
  end.

(** The computation counts its injections and moves the page by them
    alone. *)
Definition moves_by_injection (host : Host) {A} (m : Async A) : Prop :=
  forall w, exists new,
    trace (snd (m w)) = trace w ++ new
    /\ scroll_calls (snd (m w))
       = (scroll_calls w + List.length (scroll_requests new))%nat
    /\ window_scrollY (snd (m w))
       = offset_after host (scroll_calls w) (window_scrollY w)
                      (scroll_requests new).

(** The milliseconds of the calls of [sleep], in order. *)
Fixpoint sleeps (events : list Event) : list Z :=
  match events with
  | [] => []
  | EvSleep ms :: rest => ms :: sleeps rest
  | _ :: rest => sleeps rest
  end.

(** The number of [captureVisibleTab] calls. *)
Fixpoint captures (events : list Event) : nat :=
  match events with
  | [] => 0
  | EvCaptureVisibleTab :: rest => S (captures rest)
  | _ :: rest => captures rest
  end.

(** The number of calls that involve the offscreen document. *)
Fixpoint compositor_calls (events : list Event) : nat :=
  match events with
  | [] => 0
  | EvGetContexts :: rest => S (compositor_calls rest)
  | EvCreateDocument :: rest => S (compositor_calls rest)
  | EvSendMessage _ _ _ :: rest => S (compositor_calls rest)
  | _ :: rest => compositor_calls rest
  end.

(** The part of [captureFullPageWithScrolling] that captures and
    composes: the [try] block up to the call that restores the scroll
    offset. *)
Definition capture_and_compose (host : Host) (tabId : nat)
           (dimensions : Dimensions) : Async string :=
  screenshots <-
    capture_all_sections host tabId (viewportHeight dimensions)
      (Math_ceil_div (fullHeight dimensions) (viewportHeight dimensions)) ;;
  stitchScreenshots host screenshots (viewportWidth dimensions)
                    (fullHeight dimensions).

(** The [catch] block of [captureFullPageWithScrolling]. *)
Definition restore_and_rethrow (host : Host) (tabId : nat)
           (originalScrollY : Z) (error : JsError) : Async string :=
  try_catch
    (executeScript_scrollToPosition host tabId originalScrollY)
    (fun e => console_error "Failed to restore scroll position:") ;;
  throw error.

(** How often the event loop resumed [c]. *)
Fixpoint resumptions (c : Caller) (order : list Caller) : nat :=
  match order with
  | [] => 0
  | First :: rest =>
      match c with
      | First => S (resumptions c rest)
      | Second => resumptions c rest
      end
  | Second :: rest =>
      match c with
      | First => resumptions c rest
      | Second => S (resumptions c rest)
      end
  end.

(** The call is suspended between [offscreenDocumentCreating = true] and
    its [finally] block. *)
Definition provisioning (pc : EnsurePC) : bool :=
  match pc with
  | AwaitContexts _ => true
  | AwaitCreate _ => true
  | _ => false
  end.

(** The call has returned. *)
Definition succeeded (pc : EnsurePC) : bool :=
  match pc with
  | Settled (Returned _) => true
  | _ => false
  end.

(** What the shared state tells of two such calls: the created flag is
    set exactly when the first has returned, and the second has slept
    [slept] times 100 ms since [before], once on entry and once more for
    every poll that found nothing. *)
Definition waits_counted (before : list Event) (s : Calls) : Prop :=
  offscreenDocumentCreated (shared s) = succeeded (pc_first s)
  /\ exists new slept,
      trace (shared s) = before ++ new
      /\ sleeps new = repeat 100 slept
      /\ (1 <= slept <= poll_limit)%nat
      /\ match pc_second s with
         | AwaitPoll i => slept = S i
         | Settled (Threw _) => slept = poll_limit
         | _ => True
         end.

(** What holds of two calls of which the first found no attempt in flight
    and the second found the first's: [c0] counts the documents created
    before, [polls] the resumptions of the second call. *)
Definition one_provisioner (c0 polls : nat) (s : Calls) : Prop :=
  match pc_first s with
  | AwaitContexts _ =>
      create_calls (shared s) = c0
      /\ offscreenDocumentCreated (shared s) = false
  | AwaitCreate _ =>
      create_calls (shared s) = S c0
      /\ offscreenDocumentCreated (shared s) = false
  | Settled (Returned _) => (create_calls (shared s) <= S c0)%nat
  | Settled (Threw _) =>
      (create_calls (shared s) <= S c0)%nat
      /\ offscreenDocumentCreated (shared s) = false
  | _ => False
  end
  /\ match pc_second s with
     | AwaitPoll i => i = polls /\ (i < poll_limit)%nat
     | Settled (Returned _) => pc_first s = Settled (Returned tt)
     | Settled (Threw e) => e = timeout_error /\ (poll_limit <= polls)%nat
     | _ => False
     end
  /\ offscreenDocumentCreating (shared s) = provisioning (pc_first s).

(** The number of sections of a page, as a count of loop rounds. *)
Definition sections (d : Dimensions) : nat :=
  Z.to_nat (- ((- fullHeight d) / viewportHeight d)).

(** Conditions under which a capture request is answered: the viewport
    has a height, and every image handed to the compositor fires its
    event. *)
Definition answers (host : Host) : Prop :=
  match probe_reply host with
  | ProbeResult d =>
      fullHeight d <= viewportHeight d
      \/ (0 < viewportHeight d
          /\ forall k, (k < sections d)%nat ->
                       In k (Offscreen.decode_order (decoder host)))
  | _ => True
  end.

Definition rejected {A} (o : Outcome A) : bool :=
  match o with
  | Threw _ => true
  | _ => false
  end.

Definition pending {A} (o : Outcome A) : bool :=
  match o with
  | Pending => true
  | _ => false
  end.


End Session.

(* ------------------------------------------------------------------ *)
(** ** Concrete hosts *)

Module Hosts.
Import Chrome ServiceWorker.

(** A page of 1500 rows in a viewport of 800 by 600, scrolled to 250. *)
Definition tall_page : Dimensions :=
  {| fullHeight := 1500; viewportWidth := 800; viewportHeight := 600;
     dim_scrollY := 250 |}.

(** A page that fits its viewport. *)
Definition short_page : Dimensions :=
  {| fullHeight := 600; viewportWidth := 800; viewportHeight := 600;
     dim_scrollY := 0 |}.

(** [window.scrollTo] on [tall_page]: offsets lie between 0 and 900. *)
Definition clamp (y : Z) : Z := Z.max 0 (Z.min y 900).

Definition tile_url (k : nat) : string :=
  ("data:image/png;base64,TILE" ++ string_of_nat k)%string.

(** Every call succeeds. *)
Definition quiet : Host :=
  {| probe_reply := ProbeResult tall_page;
     scroll_reply := fun _ => None;
     window_scrollTo := clamp;
     capture_reply := fun k => {| latency := 40; image := inr (tile_url k) |};
     contexts_reply := fun _ => inr 0%nat;
     create_reply := fun _ => None;
     port_reply := PortDelivers;
     decoder := Tiles.in_order 3;
     cancel_raised := fun _ => false;
     horizon := 0 |}.

Definition fresh : World :=
  {| window_scrollY := 250;
     scroll_calls := 0;
     capture_calls := 0;
     contexts_calls := 0;
     create_calls := 0;
     offscreenDocumentCreating := false;
     offscreenDocumentCreated := false;
     trace := [] |}.

Definition with_probe (p : ProbeReply) (host : Host) : Host :=
  {| probe_reply := p;
     scroll_reply := scroll_reply host;
     window_scrollTo := window_scrollTo host;
     capture_reply := capture_reply host;
     contexts_reply := contexts_reply host;
     create_reply := create_reply host;
     port_reply := port_reply host;
     decoder := decoder host;
     cancel_raised := cancel_raised host;
     horizon := horizon host |}.

Definition with_scroll_reply (f : nat -> option JsError) (host : Host) : Host :=
  {| probe_reply := probe_reply host;
     scroll_reply := f;
     window_scrollTo := window_scrollTo host;
     capture_reply := capture_reply host;
     contexts_reply := contexts_reply host;
     create_reply := create_reply host;
     port_reply := port_reply host;
     decoder := decoder host;
     cancel_raised := cancel_raised host;
     horizon := horizon host |}.

Definition with_capture_reply (f : nat -> CaptureReply) (host : Host) : Host :=
  {| probe_reply := probe_reply host;
     scroll_reply := scroll_reply host;
     window_scrollTo := window_scrollTo host;
     capture_reply := f;
     contexts_reply := contexts_reply host;
     create_reply := create_reply host;
     port_reply := port_reply host;
     decoder := decoder host;
     cancel_raised := cancel_raised host;
     horizon := horizon host |}.

Definition with_create_reply (f : nat -> option JsError) (host : Host) : Host :=
  {| probe_reply := probe_reply host;
     scroll_reply := scroll_reply host;
     window_scrollTo := window_scrollTo host;
     capture_reply := capture_reply host;
     contexts_reply := contexts_reply host;
     create_reply := f;
     port_reply := port_reply host;
     decoder := decoder host;
     cancel_raised := cancel_raised host;
     horizon := horizon host |}.

Definition with_decoder (env : Offscreen.Decoder) (host : Host) : Host :=
  {| probe_reply := probe_reply host;
     scroll_reply := scroll_reply host;
     window_scrollTo := window_scrollTo host;
     capture_reply := capture_reply host;
     contexts_reply := contexts_reply host;
     create_reply := create_reply host;
     port_reply := port_reply host;
     decoder := env;
     cancel_raised := cancel_raised host;
     horizon := horizon host |}.

Definition rate_limited : JsError :=
  Error "This request exceeds the MAX_CAPTURE_VISIBLE_TAB_CALLS_PER_SECOND quota.".

Definition no_access : JsError :=
  Error "Cannot access contents of the page.".

(** The first capture call fails, the others succeed. *)
Definition fails_once : Host :=
  with_capture_reply
    (fun k => if Nat.eqb k 0 then {| latency := 5; image := inl rate_limited |}
              else {| latency := 40; image := inr (tile_url k) |})
    quiet.

(** Every capture call fails. *)
Definition never_captures : Host :=
  with_capture_reply (fun _ => {| latency := 5; image := inl rate_limited |})
                     quiet.

(** The first capture call succeeds, the others fail. *)
Definition captures_once : Host :=
  with_capture_reply
    (fun k => if Nat.eqb k 0 then {| latency := 40; image := inr (tile_url k) |}
              else {| latency := 5; image := inl rate_limited |})
    quiet.

(** Captures fail, and so does every injection after the first. *)
Definition page_lost : Host :=
  with_scroll_reply (fun k => if Nat.eqb k 0 then None else Some no_access)
                    never_captures.

(** Only the injection that restores the offset after stitching fails. *)
Definition restore_fails_once : Host :=
  with_scroll_reply (fun k => if Nat.eqb k 3 then Some no_access else None)
                    quiet.

(** [createDocument] is refused, for a reason other than the document
    existing. *)
Definition cannot_create : Host :=
  with_create_reply (fun _ => Some (Error "Invalid url specified.")) quiet.

(** [createDocument] resolves. *)
Definition creates : Host := quiet.

(** The second call polls fifty times before the first is resumed. *)
Definition first_is_slow : list Caller :=
  repeat Second 50 ++ [First; First].

(** The first call is resumed to its end, then the second polls. *)
Definition first_is_quick : list Caller :=
  [First; First] ++ repeat Second 50.

(** A page that fits its viewport, captured in 40 ms. *)
Definition fits : Host := with_probe (ProbeResult short_page) quiet.


End Hosts.

From Stdlib Require Import Permutation.

(* ------------------------------------------------------------------ *)
(** ** extension/background/service-worker.js, the functions injected
       into the page *)

Module Page.
Import Chrome.

(** What [getPageDimensions] reads of the document and the window. *)
Record Document := {
  body_scrollHeight : Z;
  body_offsetHeight : Z;
  html_clientHeight : Z;
  html_scrollHeight : Z;
  html_offsetHeight : Z;
  innerWidth : Z;
  innerHeight : Z;
  scrollY : Z
}.

(** The five arguments of [Math.max]. *)
Definition measures (doc : Document) : list Z :=
  [body_scrollHeight doc; body_offsetHeight doc; html_clientHeight doc;
   html_scrollHeight doc; html_offsetHeight doc].

Definition getPageDimensions (doc : Document) : Dimensions :=
  {| fullHeight :=
       Z.max (body_scrollHeight doc)
         (Z.max (body_offsetHeight doc)
            (Z.max (html_clientHeight doc)
               (Z.max (html_scrollHeight doc) (html_offsetHeight doc))));
     viewportWidth := innerWidth doc;
     viewportHeight := innerHeight doc;
     dim_scrollY := scrollY doc |}.

End Page.

(* ------------------------------------------------------------------ *)
(** ** More vocabulary for sessions *)

Module Timeline.
Import Chrome ServiceWorker.

(** Reading a trace for the time slept between capture calls: [since] is
    the time slept since the last call, [None] before the first.  The
    result is [None] when a call follows the previous one by less than
    [quota] milliseconds of sleep. *)
Fixpoint pace (quota : Z) (since : option Z) (events : list Event)
  : option (option Z) :=
  match events with
  | [] => Some since
  | EvCaptureVisibleTab :: rest =>
      match since with
      | Some ms => if quota <=? ms then pace quota (Some 0) rest else None
      | None => pace quota (Some 0) rest
      end
  | EvSleep ms :: rest => pace quota (option_map (Z.add ms) since) rest
  | _ :: rest => pace quota since rest
  end.

(** The first section may follow anything; a later one follows a capture
    by the 1100 ms of the rate-limit sleep. *)
Definition rested (since : option Z) : Prop :=
  match since with
  | None => True
  | Some ms => 500 <= ms
  end.

(** The images of the capture calls numbered [from], ...,
    [from + count - 1] that succeeded, in call order. *)
Definition successes (host : Host) (from count : nat) : list string :=
  flat_map (fun k => match image (capture_reply host k) with
                     | inr url => [url]
                     | inl _ => []
                     end)
           (seq from count).

(** The [stitchScreenshots] messages sent, in order. *)
Fixpoint stitch_requests (events : list Event)
  : list (list Screenshot * Z * Z) :=
  match events with
  | [] => []
  | EvSendMessage screenshots w totalHeight :: rest =>
      (screenshots, w, totalHeight) :: stitch_requests rest
  | _ :: rest => stitch_requests rest
  end.

(** The milliseconds asked of [sleep]. *)
Fixpoint slept_ms (events : list Event) : Z :=
  match events with
  | [] => 0
  | EvSleep ms :: rest => ms + slept_ms rest
  | _ :: rest => slept_ms rest
  end.

(** The calls to [getContexts] and [createDocument]. *)
Fixpoint provisioning_calls (events : list Event) : nat :=
  match events with
  | [] => 0
  | EvGetContexts :: rest => S (provisioning_calls rest)
  | EvCreateDocument :: rest => S (provisioning_calls rest)
  | _ :: rest => provisioning_calls rest
  end.

(** Whatever the world, the computation adds to the trace only events
    that satisfy [p]. *)
Definition emits {A} (p : Event -> bool) (m : Async A) : Prop :=
  forall w, exists new,
    trace (snd (m w)) = trace w ++ new /\ forallb p new = true.

(** The events of the capture loop. *)
Definition loop_event (e : Event) : bool :=
  match e with
  | EvScrollTo _ _ => true
  | EvSleep _ => true
  | EvCaptureVisibleTab => true
  | _ => false
  end.

(** The events of a call not followed by others: no capture and no
    message to the offscreen document. *)
Definition idle_event (e : Event) : bool :=
  match e with
  | EvCaptureVisibleTab => false
  | EvSendMessage _ _ _ => false
  | _ => true
  end.

(** Tile [i] of a session over sections of [viewportHeight]. *)
Definition tile_of (viewportHeight : Z) (i : nat) (url : string) : Screenshot :=
  {| dataUrl := url; index := i;
     shot_scrollY := Z.of_nat i * viewportHeight |}.

(** The tiles made of [urls], numbered from [i]. *)
Fixpoint tiles_from (viewportHeight : Z) (i : nat) (urls : list string)
  : list Screenshot :=
  match urls with
  | [] => []
  | url :: rest =>
      tile_of viewportHeight i url :: tiles_from viewportHeight (S i) rest
  end.

End Timeline.

Module Stack.
Import Offscreen.

(** Each draw begins where the one before it ended, the first at [y]. *)
Fixpoint stacked (y : Z) (ds : list DrawOp) : bool :=
  match ds with
  | [] => true
  | d :: rest => (dy d =? y) && stacked (y + dh d) rest
  end.

(** The rows drawn. *)
Definition drawn_height (ds : list DrawOp) : Z :=
  fold_right Z.add 0 (map dh ds).

(** The decoded height of the tile at [k], 0 where there is none. *)
Definition height_at (env : Decoder) (screenshots : list Screenshot)
           (k : nat) : Z :=
  match nth_error screenshots k with
  | Some screenshot => Slots.img_height env screenshot
  | None => 0
  end.

(** What the compositor keeps while images load: the draws are stacked
    from 0, the running offset is their height, and each draw has the
    height of its tile. *)
Definition tidy (env : Decoder) (screenshots : list Screenshot)
           (s : Stitch) : Prop :=
  stacked 0 (draws (canvas s)) = true
  /\ currentY s = drawn_height (draws (canvas s))
  /\ map dh (draws (canvas s))
     = map (height_at env screenshots) (map tile (draws (canvas s))).

(** The outcome of [canvas.toDataURL] as [onload] settles the promise
    with it. *)
Definition encoded (env : Decoder) (c : Canvas) : Outcome string :=
  match toDataURL env c with
  | inr url => Returned url
  | inl error =>
      Threw (Error ("Failed to convert canvas to data URL: "
                      ++ message error)%string)
  end.

End Stack.

(* ------------------------------------------------------------------ *)
(** ** JavaScript strings as the text functions see them *)

Module Text.

(** A string is the sequence of its UTF-16 code units. *)
Definition JsString := list N.

(** A literal of the source, all of whose characters are ASCII. *)
Definition lit (s : string) : JsString :=
  map Ascii.N_of_ascii (list_ascii_of_string s).

(** [s.length] *)
Definition length (s : JsString) : Z := Z.of_nat (List.length s).

(** The code units of [WhiteSpace] and [LineTerminator]: what [trim]
    removes and what [\s] matches. *)
Definition is_space (c : N) : bool :=
  ((9 <=? c) && (c <=? 13) || (c =? 32) || (c =? 160) || (c =? 5760)
   || (8192 <=? c) && (c <=? 8202) || (c =? 8232) || (c =? 8233)
   || (c =? 8239) || (c =? 8287) || (c =? 12288) || (c =? 65279))%N.

Fixpoint trimStart (s : JsString) : JsString :=
  match s with
  | c :: rest => if is_space c then trimStart rest else s
  | [] => []
  end.

Definition trimEnd (s : JsString) : JsString := rev (trimStart (rev s)).

(** [s.trim()] *)
Definition trim (s : JsString) : JsString := trimEnd (trimStart s).

(** [s.substring(0, n)] for an integer [n]: a negative [n] counts as 0,
    one beyond the end as the length. *)
Definition substring0 (s : JsString) (n : Z) : JsString :=
  firstn (Z.to_nat n) s.

(** [s.startsWith(prefix)] *)
Fixpoint startsWith (prefix s : JsString) : bool :=
  match prefix, s with
  | [], _ => true
  | p :: prefix', c :: s' => (p =? c)%N && startsWith prefix' s'
  | _ :: _, [] => false
  end.

(** [s.replace(/c/g, by)] for a pattern of one literal character and a
    replacement without [$]. *)
Definition replace_all (c : N) (by_ : JsString) (s : JsString) : JsString :=
  flat_map (fun x => if (x =? c)%N then by_ else [x]) s.

(** [s.split(/\s+/)]: the pieces between the maximal runs of white
    space.  [cur] is the piece being read, reversed; [in_run] tells that
    the previous code unit belonged to a run. *)
Fixpoint split_spaces_from (cur : JsString) (in_run : bool) (s : JsString)
  : list JsString :=
  match s with
  | [] => [rev cur]
  | c :: rest =>
      if is_space c then
        if in_run then split_spaces_from [] true rest
        else rev cur :: split_spaces_from [] true rest
      else split_spaces_from (c :: cur) false rest
  end.

Definition split_spaces (s : JsString) : list JsString :=
  split_spaces_from [] false s.

(** [a || b] on strings. *)
Definition or_else (a b : JsString) : JsString :=
  match a with [] => b | _ => a end.

(** [`${n}`] for an integer that is not negative. *)
Definition of_Z (n : Z) : JsString := lit (Js.string_of_nat (Z.to_nat n)).

End Text.

(* ------------------------------------------------------------------ *)
(** ** extension/shared/utils.js and the helpers of popup.js

    [escapeHtml] and [formatDate] are written twice, with the same body:
    exported by [shared/utils.js], and again in [popup/popup.js]. *)

Module Utils.
Import Text.

(** *** [escapeHtml] *)

Definition amp : N := 38.
Definition lt : N := 60.
Definition gt : N := 62.
Definition quot : N := 34.
Definition apos : N := 39.

Definition escapeHtml (unsafe : JsString) : JsString :=
  replace_all apos (lit "&#039;")
    (replace_all quot (lit "&quot;")
       (replace_all gt (lit "&gt;")
          (replace_all lt (lit "&lt;")
             (replace_all amp (lit "&amp;") unsafe)))).

(** What one code unit becomes. *)
Definition entity (c : N) : JsString :=
  if (c =? amp)%N then lit "&amp;"
  else if (c =? lt)%N then lit "&lt;"
  else if (c =? gt)%N then lit "&gt;"
  else if (c =? quot)%N then lit "&quot;"
  else if (c =? apos)%N then lit "&#039;"
  else [c].

(** The characters that end or open markup or an attribute value. *)
Definition is_markup (c : N) : bool :=
  ((c =? lt) || (c =? gt) || (c =? quot) || (c =? apos))%N.

(** *** [truncateText] *)

Definition truncateText (text : JsString) (maxLength : Z) : JsString :=
  if length text <=? maxLength then text
  else trim (substring0 text maxLength) ++ lit "...".

(** *** [formatDate] *)

(** [date] is the time value of [new Date(dateString)], [None] for an
    invalid date; [now] that of [new Date()].  Both are integers of
    milliseconds, in the range where their difference and its quotients
    are exact.  [toLocaleDateString] is the host's rendering. *)
Definition formatDate (toLocaleDateString : option Z -> JsString)
           (now : Z) (date : option Z) : JsString :=
  match date with
  | None =>
      (* every comparison with NaN is false *)
      toLocaleDateString date
  | Some time =>
      let diffMs := now - time in
      let diffMins := diffMs / 60000 in
      let diffHours := diffMs / 3600000 in
      let diffDays := diffMs / 86400000 in
      if diffMins <? 1 then lit "Just now"
      else if diffMins <? 60 then of_Z diffMins ++ lit "m ago"
      else if diffHours <? 24 then of_Z diffHours ++ lit "h ago"
      else if diffDays <? 7 then of_Z diffDays ++ lit "d ago"
      else toLocaleDateString date
  end.

(** *** [stringToColor] *)

(** [ToInt32] of an integer. *)
Definition ToInt32 (x : Z) : Z := (x + 2 ^ 31) mod 2 ^ 32 - 2 ^ 31.

(** [x << 5] *)
Definition shl5 (x : Z) : Z := ToInt32 (ToInt32 x * 32).

(** One round of the loop: [hash = str.charCodeAt(i) + ((hash << 5) - hash)].
    The shift wraps to 32 bits; the subtraction and the sum are those of
    numbers, and do not. *)
Definition hash_round (hash : Z) (c : N) : Z :=
  Z.of_N c + (shl5 hash - hash).

Definition hash_of (str : JsString) : Z := fold_left hash_round str 0.

(** [Math.abs(hash % 360)] *)
Definition hue (str : JsString) : Z := Z.abs (Z.rem (hash_of str) 360).

Definition stringToColor (str : JsString) : JsString :=
  lit "hsl(" ++ of_Z (hue str) ++ lit ", 70%, 50%)".

(** A code unit is below 2^16. *)
Definition code_units (str : JsString) : Prop :=
  Forall (fun c => (c < 65536)%N) str.

End Utils.

(* ------------------------------------------------------------------ *)
(** ** The content script

    [SmartTagExtractor.cleanTags] and [isCommonNoise], and of
    [PageExtractor]: [extractMetaDescription], [extractMainContent],
    [extractExcerpt], [extractContent], [extractLinks] and [extractAll].
    The document is what [querySelector] and [querySelectorAll] return
    for the selectors the code passes them. *)

Module Content.
Import Text.

(** *** [SmartTagExtractor] *)

Definition between (lo hi c : N) : bool := ((lo <=? c) && (c <=? hi))%N.

(** [\d] *)
Definition is_digit (c : N) : bool := between 48 57 c.

(** [\w] *)
Definition is_word (c : N) : bool :=
  between 97 122 c || between 65 90 c || is_digit c || (c =? 95)%N.

(** The ranges 4e00-9fff, 3040-309f and 30a0-30ff: Han, hiragana and
    katakana. *)
Definition is_han_or_kana (c : N) : bool :=
  between 19968 40959 c || between 12352 12447 c || between 12448 12543 c.

(** A letter of a pattern under the flag [i] matches its two cases, and
    no code unit beyond ASCII. *)
Definition toLowerAscii (c : N) : N :=
  if between 65 90 c then (c + 32)%N else c.

Fixpoint eqb (a b : JsString) : bool :=
  match a, b with
  | [], [] => true
  | x :: a', y :: b' => (x =? y)%N && eqb a' b'
  | _, _ => false
  end.

(** [/^(w1|w2|...)$/i.test(text)] for words in lower case. *)
Definition is_one_of (words : list string) (text : JsString) : bool :=
  existsb (fun w => eqb (map toLowerAscii text) (lit w)) words.

(** [/^[class]+$/.test(text)] *)
Definition all_in (class : N -> bool) (text : JsString) : bool :=
  match text with
  | [] => false
  | _ => forallb class text
  end.

Definition isCommonNoise (text : JsString) : bool :=
  is_one_of ["home"; "menu"; "search"; "login"; "register"; "sign"; "click";
             "here"; "more"; "view"; "read"; "continue"] text
  || all_in is_digit text
  || all_in (fun c => negb (is_word c || is_han_or_kana c)) text
  || is_one_of ["javascript"; "void"; "undefined"; "null"] text.

(** [tags] are the members of the set, which are strings, in the order
    they were added. *)
Definition cleanTags (tags : list JsString) : list JsString :=
  filter (fun tag => negb (isCommonNoise tag))
    (filter (fun tag => (0 <? length tag) && (length tag <? 100))
       (map trim tags)).

(** *** [PageExtractor]: the content *)

Record Element := {
  textContent : JsString;
  innerHTML : JsString
}.

Record Document := {
  (** the [content] of the element found for each of the two selectors
      of [extractMetaDescription], where one is found *)
  description_metas : list (option JsString);
  (** the text of the element found for [p] *)
  first_paragraph : option JsString;
  (** the element found for each selector of [extractMainContent] *)
  main_candidates : list (option Element);
  (** [document.body], which a document may lack *)
  body : option Element;
  (** [document.title] *)
  doc_title : JsString
}.

(** [if (element && element.content) return element.content.trim()] for
    each selector, then [return ''] *)
Fixpoint extractMetaDescription_from (metas : list (option JsString))
  : JsString :=
  match metas with
  | [] => []
  | Some (c :: content) :: _ => trim (c :: content)
  | _ :: rest => extractMetaDescription_from rest
  end.

Definition extractMetaDescription (doc : Document) : JsString :=
  extractMetaDescription_from (description_metas doc).

Fixpoint extractMainContent_from (candidates : list (option Element))
         (fallback : option Element) : option Element :=
  match candidates with
  | [] => fallback
  | Some element :: rest =>
      if 200 <? length (textContent element) then Some element
      else extractMainContent_from rest fallback
  | None :: rest => extractMainContent_from rest fallback
  end.

(** [None] is [null]. *)
Definition extractMainContent (doc : Document) : option Element :=
  extractMainContent_from (main_candidates doc) (body doc).

(** [None] where the function throws: reading [textContent] of a body
    that is not there. *)
Definition extractExcerpt (doc : Document) (text_content : JsString)
  : option JsString :=
  match extractMetaDescription doc with
  | c :: metaDesc => Some (c :: metaDesc)
  | [] =>
      match first_paragraph doc with
      | Some (c :: p) => Some (substring0 (trim (c :: p)) 300)
      | _ =>
          (* textContent || document.body.textContent || '' *)
          let text :=
            match text_content with
            | _ :: _ => Some text_content
            | [] => option_map textContent (body doc)
            end in
          option_map
            (fun text =>
               substring0 (trim text) 300
                 ++ (if 300 <? length text then lit "..." else []))
            text
      end
  end.

Record ContentData := {
  raw : JsString;
  cleaned : JsString;
  text : JsString;
  excerpt : JsString;
  wordCount : Z
}.

(** The words of a text: the places where a code unit that is not white
    space begins the text or follows white space. *)
Fixpoint count_words (after_space : bool) (s : JsString) : Z :=
  match s with
  | [] => 0
  | c :: rest =>
      if is_space c then count_words true rest
      else (if after_space then 1 else 0) + count_words false rest
  end.

Definition words (s : JsString) : Z := count_words true s.

Definition MAX_CONTENT_LENGTH : Z := 50000.
Definition MAX_TEXT_LENGTH : Z := 10000.

(** The body of [try] in [extractContent]; [None] where it throws. *)
Definition extractContent_try (doc : Document) : option ContentData :=
  match extractMainContent doc with
  | None =>
      (* document.body?.innerHTML || '' *)
      let bodyHTML :=
        match body doc with Some b => innerHTML b | None => [] end in
      let bodyText :=
        match body doc with Some b => textContent b | None => [] end in
      match extractExcerpt doc (substring0 bodyText 1000) with
      | Some excerpt =>
          Some {| raw := substring0 bodyHTML MAX_CONTENT_LENGTH;
                  cleaned := substring0 bodyHTML MAX_CONTENT_LENGTH;
                  text := substring0 bodyText MAX_TEXT_LENGTH;
                  excerpt := excerpt;
                  wordCount :=
                    Z.min (Z.of_nat (List.length (split_spaces bodyText)))
                          5000 |}
      | None => None
      end
  | Some content =>
      let textContent := substring0 (textContent content) MAX_TEXT_LENGTH in
      let contentHTML := substring0 (innerHTML content) MAX_CONTENT_LENGTH in
      let wordCount :=
        Z.of_nat (List.length (filter (fun w => 0 <? length w)
                                      (split_spaces textContent))) in
      match extractExcerpt doc textContent with
      | Some excerpt =>
          Some {| raw := contentHTML;
                  cleaned := contentHTML;
                  text := textContent;
                  excerpt := excerpt;
                  wordCount := wordCount |}
      | None => None
      end
  end.

Definition extractContent (doc : Document) : ContentData :=
  match extractContent_try doc with
  | Some content => content
  | None =>
      {| raw := [];
         cleaned := [];
         text := doc_title doc;
         excerpt := doc_title doc;
         wordCount := 0 |}
  end.

(** *** [PageExtractor]: the links *)

(** An element found for [a[href]]. *)
Record Anchor := {
  href : JsString;
  anchor_textContent : JsString;
  anchor_title : JsString
}.

Record Link := {
  url : JsString;
  link_text : JsString;
  title : JsString
}.

Definition MAX_LINKS : nat := 100.

Definition is_http (url : JsString) : bool :=
  startsWith (lit "http://") url || startsWith (lit "https://") url.

(** One round of the loop of [extractLinks].  [resolve href] is
    [new URL(href, window.location.href).href], [None] where the
    constructor throws. *)
Definition extract_link (resolve : JsString -> option JsString)
           (link : Anchor) : list Link :=
  match resolve (href link) with
  | Some url =>
      if negb (startsWith (lit "http://") url)
         && negb (startsWith (lit "https://") url)
      then []
      else [{| url := url;
               link_text := substring0 (trim (anchor_textContent link)) 200;
               title := anchor_title link |}]
  | None => []
  end.

Definition extractLinks (resolve : JsString -> option JsString)
           (linkElements : list Anchor) : list Link :=
  flat_map (extract_link resolve) (firstn MAX_LINKS linkElements).

(** *** [PageExtractor.extractAll] *)

Inductive JsValue :=
| Undefined
| Null
| Str (s : JsString).

Inductive Key :=
| key_url | key_title | key_domain | key_metaDescription | key_canonicalUrl
| key_author | key_publishedDate | key_content.

Definition coreExtractors : list Key :=
  [key_url; key_title; key_domain; key_metaDescription; key_canonicalUrl;
   key_author; key_publishedDate; key_content].

(** The places where [Date.now()] is read: for [startTime], and in
    [checkTimeout(step)] for each [step]. *)
Inductive Checkpoint :=
| AtStart
| Before (key : Key)
| BeforeParallel
| AfterImages.

Section Extraction.
(** An entry of [data.images]. *)
Variable Image : Type.

(** What a call of each extractor does: return, or throw. *)
Record Extractors := {
  core : Key -> JsError + JsValue;
  content_extractor : JsError + ContentData;
  images_extractor : JsError + list Image;
  links_extractor : JsError + list Link
}.

(** [content = None] is the empty object [data] starts with. *)
Record PageData := {
  data_url : JsValue;
  data_title : JsValue;
  data_domain : JsValue;
  metadata : list (Key * JsValue);
  content : option ContentData;
  images : list Image;
  links : list Link;
  tags : list JsString
}.

Definition empty : PageData :=
  {| data_url := Str [];
     data_title := Str [];
     data_domain := Str [];
     metadata := [];
     content := None;
     images := [];
     links := [];
     tags := [] |}.

Definition TOTAL_TIMEOUT : Z := 3000.

Variable now : Checkpoint -> Z.
Variable extractors : Extractors.

Definition checkTimeout (step : Checkpoint) : bool :=
  TOTAL_TIMEOUT <? now step - now AtStart.

(** [data[key] = result] or [data.metadata[key] = result] *)
Definition assign (key : Key) (result : JsValue) (data : PageData)
  : PageData :=
  match key with
  | key_url =>
      {| data_url := result; data_title := data_title data;
         data_domain := data_domain data; metadata := metadata data;
         content := content data; images := images data;
         links := links data; tags := tags data |}
  | key_title =>
      {| data_url := data_url data; data_title := result;
         data_domain := data_domain data; metadata := metadata data;
         content := content data; images := images data;
         links := links data; tags := tags data |}
  | key_domain =>
      {| data_url := data_url data; data_title := data_title data;
         data_domain := result; metadata := metadata data;
         content := content data; images := images data;
         links := links data; tags := tags data |}
  | _ =>
      {| data_url := data_url data; data_title := data_title data;
         data_domain := data_domain data;
         metadata := metadata data ++ [(key, result)];
         content := content data; images := images data;
         links := links data; tags := tags data |}
  end.

Definition set_content (c : ContentData) (data : PageData) : PageData :=
  {| data_url := data_url data; data_title := data_title data;
     data_domain := data_domain data; metadata := metadata data;
     content := Some c; images := images data;
     links := links data; tags := tags data |}.

Definition set_images (l : list Image) (data : PageData) : PageData :=
  {| data_url := data_url data; data_title := data_title data;
     data_domain := data_domain data; metadata := metadata data;
     content := content data; images := l;
     links := links data; tags := tags data |}.

Definition set_links (l : list Link) (data : PageData) : PageData :=
  {| data_url := data_url data; data_title := data_title data;
     data_domain := data_domain data; metadata := metadata data;
     content := content data; images := images data;
     links := l; tags := tags data |}.

Definition set_tags (l : list JsString) (data : PageData) : PageData :=
  {| data_url := data_url data; data_title := data_title data;
     data_domain := data_domain data; metadata := metadata data;
     content := content data; images := images data;
     links := links data; tags := l |}.

(** The [try] of one round of the loop over [coreExtractors]. *)
Definition extract_core (key : Key) (data : PageData) : PageData :=
  match key with
  | key_content =>
      match content_extractor extractors with
      | inr result => set_content result data
      | inl _ => data
      end
  | _ =>
      match core extractors key with
      | inr Undefined => data
      | inr result => assign key result data
      | inl _ => data
      end
  end.

(** [for (const key of keys) { if (checkTimeout(key)) break; ... }] *)
Fixpoint core_loop (keys : list Key) (data : PageData) : PageData :=
  match keys with
  | [] => data
  | key :: rest =>
      if checkTimeout (Before key) then data
      else core_loop rest (extract_core key data)
  end.

Definition extract_images (data : PageData) : PageData :=
  match images_extractor extractors with
  | inr result => set_images result data
  | inl _ => set_images [] data
  end.

(** The links, and the reset of the tags that follows them. *)
Definition extract_links (data : PageData) : PageData :=
  set_tags []
    (match links_extractor extractors with
     | inr result => set_links result data
     | inl _ => set_links [] data
     end).

Definition extractAll : PageData :=
  let data := core_loop coreExtractors empty in
  if checkTimeout BeforeParallel then data
  else
    let data := extract_images data in
    if checkTimeout AfterImages then data
    else extract_links data.

(** **** Vocabulary for the extraction *)

(** The extractors in the order of the code, each with the checkpoint
    that precedes it. *)
Inductive Step :=
| StepCore (key : Key)
| StepImages
| StepLinks.

Definition steps : list Step :=
  map StepCore coreExtractors ++ [StepImages; StepLinks].

Definition checkpoint (step : Step) : Checkpoint :=
  match step with
  | StepCore key => Before key
  | StepImages => BeforeParallel
  | StepLinks => AfterImages
  end.

Definition perform (data : PageData) (step : Step) : PageData :=
  match step with
  | StepCore key => extract_core key data
  | StepImages => extract_images data
  | StepLinks => extract_links data
  end.

Definition key_position (key : Key) : nat :=
  match key with
  | key_url => 1 | key_title => 2 | key_domain => 3
  | key_metaDescription => 4 | key_canonicalUrl => 5 | key_author => 6
  | key_publishedDate => 7 | key_content => 8
  end.

(** The order in which the clock is read. *)
Definition position (c : Checkpoint) : nat :=
  match c with
  | AtStart => 0
  | Before key => key_position key
  | BeforeParallel => 9
  | AfterImages => 10
  end.

(** The clock does not run backwards. *)
Definition monotone : Prop :=
  forall a b, (position a <= position b)%nat -> now a <= now b.

End Extraction.

End Content.

(* ------------------------------------------------------------------ *)
(** ** extension/popup/popup.js: the screenshot step of
       [saveCurrentPage]

    The calls of the popup to its own console are left out. *)

Module Popup.
Import Chrome ServiceWorker.

(** The two properties of [response.data] that the step writes; [None]
    is a property not set. *)
Record Payload := {
  screenshot : option string;
  enableOCR : option bool
}.

Section WithHost.
Variable host : Host.
(** What becomes of a message of the popup to the service worker. *)
Variable port : PortReply.

(** [chrome.runtime.sendMessage({action: 'captureScreenshot', tabId})]:
    the message reaches the listener of the service worker; [None] is
    [undefined]. *)
Definition sendMessage_captureScreenshot (tabId : nat)
  : Async (option Response) :=
  match port with
  | PortRejects e => throw e
  | PortSilent => ret None
  | PortDelivers =>
      response <- onMessage_captureScreenshot host tabId ;;
      ret (Some response)
  end.

(** [screenshotResponse && screenshotResponse.success
     && screenshotResponse.dataUrl], where it is truthy. *)
Definition usable (screenshotResponse : option Response) : option string :=
  match screenshotResponse with
  | Some response =>
      if success response then
        match dataUrl_field response with
        | Some url => if String.eqb url "" then None else Some url
        | None => None
        end
      else None
  | None => None
  end.

Definition attached (url : string) : Payload :=
  {| screenshot := Some url; enableOCR := Some true |}.

Definition declined (data : Payload) : Payload :=
  {| screenshot := screenshot data; enableOCR := Some false |}.

(** [if (enableOCR) { try { ... } catch (screenshotError) { ... } }],
    [checked] being the state of the checkbox. *)
Definition screenshot_step (checked : bool) (tabId : nat) (data : Payload)
  : Async Payload :=
  if checked then
    try_catch
      (screenshotResponse <- sendMessage_captureScreenshot tabId ;;
       match usable screenshotResponse with
       | Some url => ret (attached url)
       | None => ret (declined data)
       end)
      (fun screenshotError => ret (declined data))
  else ret data.

End WithHost.

(** [performSearch]: the query sent to [/search], [None] where the
    results are cleared and nothing is sent. *)
Definition performSearch_query (query : Text.JsString)
  : option Text.JsString :=
  match query with
  | [] => None
  | _ =>
      if Text.length (Text.trim query) <? 2 then None
      else Some (Text.trim query)
  end.

End Popup.

(* ------------------------------------------------------------------ *)
(** ** proxy-server: the guards of the requests *)

Module Proxy.

(** *** middleware/auth.js *)

Inductive Verdict :=
| Next                  (* next() *)
| Denied                (* res.status(403).json(...) *)
| TypeError.            (* clientIp.startsWith of [undefined] *)

(** [req.ip || req.connection.remoteAddress]; [None] is [undefined]. *)
Definition clientIp (ip remoteAddress : option string) : option string :=
  match ip with
  | Some (String c address) => Some (String c address)
  | _ => remoteAddress
  end.

Definition isLocal (clientIp : string) : bool :=
  String.eqb clientIp "127.0.0.1"
  || String.eqb clientIp "::1"
  || String.eqb clientIp "::ffff:127.0.0.1"
  || String.prefix "192.168." clientIp
  || String.prefix "10." clientIp
  || String.prefix "172." clientIp.

Definition localhostOnly (ip remoteAddress : option string) : Verdict :=
  match clientIp ip remoteAddress with
  | Some address => if isLocal address then Next else Denied
  | None => TypeError
  end.

(** *** routes/search.js, [POST /api/search] *)

(** [!query || query.trim().length < 2] answers 400; [query] is the
    string of the body, [None] where the body has none. *)
Definition search_query_refused (query : option Text.JsString) : bool :=
  match query with
  | Some (c :: text) => Text.length (Text.trim (c :: text)) <? 2
  | _ => true
  end.

End Proxy.

(* ------------------------------------------------------------------ *)
(** * Properties of the offscreen compositor *)

Section OffscreenFacts.
Import Offscreen Slots.
Variable env : Decoder.
Variable screenshots : list Screenshot.
Variable w : Z.

Lemma settle_settled r s :
  promise s <> Pending -> settle r s = s.
Proof.
  unfold settle. destruct (promise s); congruence.
Qed.

Lemma settle_pending r s :
  promise s = Pending -> promise (settle r s) = r.
Proof.
  unfold settle. intros ->. reflexivity.
Qed.

(** Once settled, the promise keeps its state whatever fires later. *)
Lemma fire_settled s index :
  promise s <> Pending -> promise (fire env screenshots w s index) = promise s.
Proof.
  intros Hs. unfold fire.
  destruct (nth_error screenshots index) as [shot|]; [|reflexivity].
  destruct (decode_reply env (dataUrl shot)) as [h|].
  - unfold onload. cbn [loadedCount].
    destruct (Nat.eqb _ _); [|reflexivity].
    destruct (toDataURL env _); rewrite settle_settled; auto.
  - unfold onerror. rewrite settle_settled; auto.
Qed.

Lemma fold_fire_settled order : forall s,
  promise s <> Pending ->
  promise (fold_left (fire env screenshots w) order s) = promise s.
Proof.
  induction order as [|k order IH]; intros s Hs; [reflexivity|].
  cbn [fold_left]. rewrite IH; rewrite fire_settled; auto.
Qed.

(** Events of images that load, while fewer than all have loaded, leave
    the promise pending. *)
Lemma fold_fire_pending order : forall s,
  promise s = Pending ->
  (forall k, In k order -> fails env screenshots k = false) ->
  (loadedCount s + List.length (filter (loads env screenshots) order) < List.length screenshots)%nat ->
  promise (fold_left (fire env screenshots w) order s) = Pending.
Proof.
  induction order as [|k order IH]; intros s Hs Hok Hlt; [exact Hs|].
  cbn [fold_left]. cbn [filter] in Hlt.
  assert (Hk : fails env screenshots k = false) by (apply Hok; left; reflexivity).
  assert (Hrest : forall j, In j order -> fails env screenshots j = false)
    by (intros j Hj; apply Hok; right; exact Hj).
  unfold fire.
  destruct (nth_error screenshots k) as [shot|] eqn:Hnth.
  - destruct (decode_reply env (dataUrl shot)) as [h|] eqn:Hdec.
    + assert (Hl : loads env screenshots k = true) by (unfold Slots.loads; rewrite Hnth, Hdec; reflexivity).
      rewrite Hl in Hlt. cbn [List.length] in Hlt.
      unfold onload. cbn [loadedCount].
      destruct (Nat.eqb_spec (S (loadedCount s)) (List.length screenshots)); [lia|].
      apply IH; [exact Hs|exact Hrest|cbn [loadedCount]; lia].
    + unfold Slots.fails in Hk. rewrite Hnth, Hdec in Hk. discriminate.
  - assert (Hl : loads env screenshots k = false) by (unfold Slots.loads; rewrite Hnth; reflexivity).
    rewrite Hl in Hlt. apply IH; auto.
Qed.

Lemma loads_lt k : loads env screenshots k = true -> (k < List.length screenshots)%nat.
Proof.
  unfold Slots.loads. intros H. apply nth_error_Some.
  destruct (nth_error screenshots k); congruence.
Qed.

Lemma fails_lt k : fails env screenshots k = true -> (k < List.length screenshots)%nat.
Proof.
  unfold Slots.fails. intros H. apply nth_error_Some.
  destruct (nth_error screenshots k); congruence.
Qed.

(** Distinct images other than [j] are fewer than all images. *)
Lemma loaded_before_failure order j :
  NoDup order -> ~ In j order -> (j < List.length screenshots)%nat ->
  (List.length (filter (loads env screenshots) order) < List.length screenshots)%nat.
Proof.
  intros Hnd Hj Hlt.
  assert (Hincl : incl (j :: filter (loads env screenshots) order) (seq 0 (List.length screenshots))).
  { intros x [<-|Hx].
    - apply in_seq. lia.
    - apply filter_In in Hx. destruct Hx as [_ Hx].
      apply loads_lt in Hx. apply in_seq. lia. }
  assert (Hnd' : NoDup (j :: filter (loads env screenshots) order)).
  { constructor.
    - intros Hin. apply filter_In in Hin. tauto.
    - apply NoDup_filter. exact Hnd. }
  pose proof (NoDup_incl_length Hnd' Hincl) as Hlen.
  cbn [List.length] in Hlen. rewrite length_seq in Hlen. lia.
Qed.

(** The first image of the order to fire [error] decides the outcome. *)
Lemma stitch_rejects_first_failure before j after totalHeight :
  decode_order env = before ++ j :: after ->
  NoDup (decode_order env) ->
  (forall k, In k before -> fails env screenshots k = false) ->
  fails env screenshots j = true ->
  stitchScreenshots env screenshots w totalHeight = Threw (load_error j).
Proof.
  intros Hord Hnd Hbefore Hj.
  unfold stitchScreenshots, stitch. rewrite Hord in *.
  rewrite fold_left_app. cbn [fold_left].
  assert (Hnd' : NoDup before /\ ~ In j before).
  { apply NoDup_remove in Hnd. destruct Hnd as [Hnd Hnin]. split.
    - apply NoDup_app_remove_r in Hnd. exact Hnd.
    - intros Hin. apply Hnin. apply in_or_app. left. exact Hin. }
  destruct Hnd' as [Hndb Hjb].
  assert (Hpend : promise (fold_left (fire env screenshots w) before
                                     (start w totalHeight)) = Pending).
  { apply fold_fire_pending; [reflexivity|exact Hbefore|].
    cbn [start loadedCount]. 
    pose proof (loaded_before_failure before j Hndb Hjb (fails_lt j Hj)). lia. }
  rewrite fold_fire_settled.
  - unfold fire. unfold Slots.fails in Hj.
    destruct (nth_error screenshots j) as [shot|]; [|discriminate].
    destruct (decode_reply env (dataUrl shot)); [discriminate|].
    unfold onerror. apply settle_pending. exact Hpend.
  - unfold fire. unfold Slots.fails in Hj.
    destruct (nth_error screenshots j) as [shot|]; [|discriminate].
    destruct (decode_reply env (dataUrl shot)); [discriminate|].
    unfold onerror. rewrite settle_pending; [discriminate|exact Hpend].
Qed.

Lemma settle_not_pending r s :
  r <> Pending -> promise (settle r s) <> Pending.
Proof.
  intros Hr. unfold settle. destruct (promise s) eqn:Hs; cbn; congruence.
Qed.

(** A promise still pending has seen no [error] event and fewer [load]
    events than there are images. *)
Lemma fold_fire_still_pending order : forall s,
  (loadedCount s < List.length screenshots)%nat ->
  promise (fold_left (fire env screenshots w) order s) = Pending ->
  (loadedCount s + List.length (filter (loads env screenshots) order)
   < List.length screenshots)%nat
  /\ (forall k, In k order -> fails env screenshots k = false).
Proof.
  induction order as [|k order IH]; intros s Hlt Hpend.
  - cbn. split; [lia|]. intros k [].
  - cbn [fold_left] in Hpend. cbn [filter].
    assert (Hnow : promise (fire env screenshots w s k) = Pending).
    { destruct (promise (fire env screenshots w s k)) eqn:Hp; auto;
        rewrite fold_fire_settled in Hpend; congruence. }
    remember (fire env screenshots w s k) as s1 eqn:Hs1.
    unfold fire in Hs1.
    destruct (nth_error screenshots k) as [shot|] eqn:Hnth.
    + destruct (decode_reply env (dataUrl shot)) as [h|] eqn:Hdec.
      * assert (Hl : loads env screenshots k = true)
          by (unfold loads; rewrite Hnth, Hdec; reflexivity).
        assert (Hf : fails env screenshots k = false)
          by (unfold fails; rewrite Hnth, Hdec; reflexivity).
        rewrite Hl.
        unfold onload in Hs1. cbn [loadedCount] in Hs1.
        destruct (Nat.eqb_spec (S (loadedCount s)) (List.length screenshots)).
        { exfalso. subst s1. destruct (toDataURL env _);
            revert Hnow; apply settle_not_pending; discriminate. }
        assert (Hlc : loadedCount s1 = S (loadedCount s)) by (subst s1; reflexivity).
        destruct (IH s1 ltac:(lia) Hpend) as [Hcount Hok].
        cbn [List.length].
        split; [lia|].
        intros j [<-|Hj]; [exact Hf|].
        apply Hok in Hj. exact Hj.
      * exfalso. subst s1. revert Hnow. apply settle_not_pending. discriminate.
    + assert (Hl : loads env screenshots k = false)
        by (unfold loads; rewrite Hnth; reflexivity).
      assert (Hf : fails env screenshots k = false)
        by (unfold fails; rewrite Hnth; reflexivity).
      rewrite Hl. subst s1.
      destruct (IH _ Hlt Hpend) as [Hcount Hok].
      split; [exact Hcount|].
      intros j [<-|Hj]; [exact Hf|].
      apply Hok in Hj. exact Hj.
Qed.

(** When every image fires its event, the composition settles. *)
Lemma stitch_settles totalHeight :
  (0 < List.length screenshots)%nat ->
  (forall k, (k < List.length screenshots)%nat -> In k (decode_order env)) ->
  stitchScreenshots env screenshots w totalHeight <> Pending.
Proof.
  intros Hpos Hall Hpend. unfold stitchScreenshots, stitch in Hpend.
  apply fold_fire_still_pending in Hpend; [|exact Hpos].
  destruct Hpend as [Hcount Hok]. cbn [start loadedCount] in Hcount.
  assert (Hincl : incl (seq 0 (List.length screenshots))
                       (filter (loads env screenshots) (decode_order env))).
  { intros k Hk. apply in_seq in Hk. apply filter_In. split.
    - apply Hall. lia.
    - specialize (Hok k (Hall k ltac:(lia))).
      unfold fails in Hok. unfold loads.
      destruct (nth_error screenshots k) as [shot|] eqn:Hnth.
      + destruct (decode_reply env (dataUrl shot)); congruence.
      + apply nth_error_None in Hnth. lia. }
  pose proof (NoDup_incl_length (seq_NoDup _ _) Hincl) as Hlen.
  rewrite length_seq in Hlen. lia.
Qed.

(** A list with a member satisfying [f] splits at the first such member. *)
Lemma split_at_first (f : nat -> bool) l k :
  In k l -> f k = true ->
  exists before j after,
    l = before ++ j :: after /\ f j = true /\
    (forall i, In i before -> f i = false).
Proof.
  induction l as [|x l IH]; intros Hin Hk; [contradiction|].
  destruct (f x) eqn:Hx.
  - exists [], x, l. repeat split; auto. intros i [].
  - destruct Hin as [->|Hin]; [congruence|].
    destruct (IH Hin Hk) as (before & j & after & -> & Hj & Hb).
    exists (x :: before), j, after. repeat split; auto.
    intros i [<-|Hi]; auto.
Qed.

Lemma find_first (f : nat -> bool) before j after :
  f j = true -> (forall i, In i before -> f i = false) ->
  find f (before ++ j :: after) = Some j.
Proof.
  intros Hj. induction before as [|x before IH]; intros Hb; cbn.
  - rewrite Hj. reflexivity.
  - rewrite (Hb x (or_introl eq_refl)). apply IH.
    intros i Hi. apply Hb. right. exact Hi.
Qed.

End OffscreenFacts.

Lemma string_of_nat_inj i j : string_of_nat i = string_of_nat j -> i = j.
Proof.
  unfold string_of_nat. intros H.
  apply DecimalNat.Unsigned.to_uint_inj.
  pose proof (NilEmpty.usu (Nat.to_uint i)) as Hi.
  pose proof (NilEmpty.usu (Nat.to_uint j)) as Hj.
  rewrite H in Hi. congruence.
Qed.

(** The message of a load failure names one image only. *)
Lemma load_error_inj i j : Slots.load_error i = Slots.load_error j -> i = j.
Proof.
  unfold Slots.load_error. intros H. injection H as H.
  apply string_of_nat_inj.
  cbn in H. repeat (injection H as H). exact H.
Qed.

(** ** Where the tiles are drawn *)

Section Placement.
Import Offscreen Slots.
Variable env : Decoder.
Variable screenshots : list Screenshot.
Variable w : Z.

Lemma settle_canvas r s :
  canvas (settle r s) = canvas s /\ currentY (settle r s) = currentY s.
Proof.
  unfold settle. destruct (promise s); split; reflexivity.
Qed.

(** A [load] event draws at the running offset and advances it. *)
Lemma fire_load s k screenshot h :
  nth_error screenshots k = Some screenshot ->
  decode_reply env (dataUrl screenshot) = Some h ->
  placements (canvas (fire env screenshots w s k))
    = placements (canvas s) ++ [(k, currentY s)]
  /\ currentY (fire env screenshots w s k) = currentY s + h.
Proof.
  intros Hnth Hdec. unfold fire. rewrite Hnth, Hdec.
  unfold onload. cbn [loadedCount].
  assert (Hdraw : forall c d, placements (drawImage d c)
                              = placements c ++ [(tile d, dy d)]).
  { intros c d. unfold placements, drawImage. cbn [draws].
    rewrite map_app. reflexivity. }
  destruct (Nat.eqb _ _).
  - destruct (toDataURL env _);
      match goal with |- context [settle ?r ?s] =>
        destruct (settle_canvas r s) as [-> ->] end;
      cbn [canvas currentY]; rewrite Hdraw; split; reflexivity.
  - cbn [canvas currentY]. rewrite Hdraw. split; reflexivity.
Qed.

Lemma slot_S k screenshot :
  nth_error screenshots k = Some screenshot ->
  slot env screenshots (S k) = slot env screenshots k + img_height env screenshot.
Proof.
  unfold slot. revert k.
  induction screenshots as [|x l IH]; intros k Hnth.
  - destruct k; discriminate.
  - destruct k as [|k].
    + injection Hnth as ->. cbn. lia.
    + cbn [nth_error] in Hnth. specialize (IH k Hnth).
      change (firstn (S (S k)) (x :: l)) with (x :: firstn (S k) l).
      change (firstn (S k) (x :: l)) with (x :: firstn k l).
      cbn [map fold_right]. rewrite IH. lia.
Qed.

Lemma fold_fire_in_order m : forall i s,
  (i + m <= List.length screenshots)%nat ->
  (forall k, (k < List.length screenshots)%nat -> loads env screenshots k = true) ->
  currentY s = slot env screenshots i ->
  placements (canvas (fold_left (fire env screenshots w) (seq i m) s))
    = placements (canvas s) ++ map (fun k => (k, slot env screenshots k)) (seq i m).
Proof.
  induction m as [|m IH]; intros i s Hlen Hall Hy.
  - cbn. rewrite app_nil_r. reflexivity.
  - cbn [seq fold_left map].
    assert (Hi : loads env screenshots i = true) by (apply Hall; lia).
    unfold loads in Hi.
    destruct (nth_error screenshots i) as [shot|] eqn:Hnth; [|discriminate].
    destruct (decode_reply env (dataUrl shot)) as [h|] eqn:Hdec; [|discriminate].
    destruct (fire_load s i shot h Hnth Hdec) as [Hp Hc].
    rewrite IH; [|lia|exact Hall|].
    + rewrite Hp, Hy, <- app_assoc. reflexivity.
    + rewrite Hc, Hy, (slot_S i shot Hnth). unfold img_height.
      rewrite Hdec. reflexivity.
Qed.

(** When the images finish decoding in index order and all decode, tile
    [k] is drawn at the summed heights of the tiles before it. *)
Lemma stitch_in_order totalHeight :
  decode_order env = seq 0 (List.length screenshots) ->
  (forall k, (k < List.length screenshots)%nat -> loads env screenshots k = true) ->
  placements (canvas (stitch env screenshots w totalHeight))
    = map (fun k => (k, slot env screenshots k))
          (seq 0 (List.length screenshots)).
Proof.
  intros Hord Hall. unfold stitch. rewrite Hord.
  rewrite fold_fire_in_order; [reflexivity|lia|exact Hall|reflexivity].
Qed.

End Placement.

(** C1.  The compositor does not give a tile its index-assigned slot when
    decodes complete out of index order: with two tiles of 600 rows of
    which the second finishes decoding first, the second tile is drawn at
    offset 0 and the first at offset 600, the composition still resolving;
    their slots are 0 for the first and 600 for the second. *)
Theorem stitch_draws_in_completion_order :
  let s := Offscreen.stitch Tiles.second_first [Tiles.tile_a; Tiles.tile_b] 800 1200 in
  Offscreen.drawn_at 0 (Offscreen.canvas s) = Some 600
  /\ Offscreen.drawn_at 1 (Offscreen.canvas s) = Some 0
  /\ Slots.slot Tiles.second_first [Tiles.tile_a; Tiles.tile_b] 0 = 0
  /\ Slots.slot Tiles.second_first [Tiles.tile_a; Tiles.tile_b] 1 = 600
  /\ exists url, Offscreen.promise s = Returned url.
Proof.
  cbv zeta. repeat split; try reflexivity.
  eexists. reflexivity.
Qed.

(* ------------------------------------------------------------------ *)
(** * Properties of the capture orchestrator *)

Section AsyncLaws.
Import Chrome ServiceWorker.

Lemma bind_assoc {A B C} (m : Async A) (f : A -> Async B) (g : B -> Async C) w :
  bind (bind m f) g w = bind m (fun a => bind (f a) g) w.
Proof.
  unfold bind. destruct (m w) as [[a|e|] w1]; reflexivity.
Qed.

Lemma bind_ext {A B} (m : Async A) (f g : A -> Async B) w :
  (forall a w1, f a w1 = g a w1) -> bind m f w = bind m g w.
Proof.
  intros H. unfold bind. destruct (m w) as [[a|e|] w1]; auto.
Qed.

Lemma bind_returned {A B} (m : Async A) (k : A -> Async B) w a w1 :
  m w = (Returned a, w1) -> bind m k w = k a w1.
Proof. unfold bind. intros ->. reflexivity. Qed.

Lemma bind_threw {A B} (m : Async A) (k : A -> Async B) w e w1 :
  m w = (Threw e, w1) -> bind m k w = (Threw e, w1).
Proof. unfold bind. intros ->. reflexivity. Qed.

Lemma bind_pending {A B} (m : Async A) (k : A -> Async B) w w1 :
  m w = (Pending, w1) -> bind m k w = (Pending, w1).
Proof. unfold bind. intros ->. reflexivity. Qed.

End AsyncLaws.

(** ** The retry loop *)

Section Retry.
Import Chrome ServiceWorker Session.
Variable host : Host.

Lemma waitTime_1 : waitTime 1 = 1000.
Proof. reflexivity. Qed.

Lemma waitTime_2 : waitTime 2 = 2000.
Proof. reflexivity. Qed.

(** The loop, started with [retries = 0], by the replies to its calls. *)
Lemma capture_with_retry_cases w :
  capture_with_retry host (Z.to_nat maxRetries) 0 w =
  match attempt host w 0 with
  | inr url => (Returned url, captured w)
  | inl _ =>
      match attempt host w 1 with
      | inr url => (Returned url, captured (slept 1000 (captured w)))
      | inl _ =>
          let w3 := captured (slept 2000 (captured (slept 1000 (captured w)))) in
          match attempt host w 2 with
          | inr url => (Returned url, w3)
          | inl captureError => (Threw captureError, w3)
          end
      end
  end.
Proof.
  unfold attempt. cbn [Nat.add].
  change (Z.to_nat maxRetries) with 3%nat.
  cbn [capture_with_retry]. change (0 <? maxRetries) with true. cbv iota.
  unfold try_catch at 1, captureVisibleTab at 1, call_captureVisibleTab.
  fold (captured w).
  destruct (image (capture_reply host (capture_calls w))) as [e1|url1];
    cbn [settled]; [|reflexivity].
  change (0 + 1 >=? maxRetries) with false. cbv iota.
  change (0 + 1 <? maxRetries) with true. cbv iota.
  change (waitTime (0 + 1)) with 1000.
  unfold bind at 1, sleep at 1. fold (slept 1000 (captured w)).
  unfold try_catch at 1, captureVisibleTab at 1, call_captureVisibleTab.
  fold (captured (slept 1000 (captured w))).
  change (capture_calls (slept 1000 (captured w))) with (S (capture_calls w)).
  destruct (image (capture_reply host (S (capture_calls w)))) as [e2|url2];
    cbn [settled]; [|reflexivity].
  change (0 + 1 + 1 >=? maxRetries) with false. cbv iota.
  change (0 + 1 + 1 <? maxRetries) with true. cbv iota.
  change (waitTime (0 + 1 + 1)) with 2000.
  unfold bind at 1, sleep at 1.
  fold (slept 2000 (captured (slept 1000 (captured w)))).
  unfold try_catch at 1, captureVisibleTab at 1, call_captureVisibleTab.
  fold (captured (slept 2000 (captured (slept 1000 (captured w))))).
  change (capture_calls (slept 2000 (captured (slept 1000 (captured w)))))
    with (S (S (capture_calls w))).
  destruct (image (capture_reply host (S (S (capture_calls w))))) as [e3|url3];
    cbn [settled]; reflexivity.
Qed.

End Retry.

(** ** One round of the [for] loop *)

Section Rounds.
Import Chrome ServiceWorker Session.
Variable host : Host.
Variable tabId : nat.
Variable viewportHeight : Z.
Variable numScreenshots : LoopBound.

Lemma scroll_eq y w :
  executeScript_scrollToPosition host tabId y w =
  match scroll_reply host (scroll_calls w) with
  | None => (Returned tt, scrolled host tabId y w)
  | Some e => (Threw e, scroll_rejected tabId y w)
  end.
Proof. reflexivity. Qed.

(** The round at [i], by the replies of the host. *)
Lemma capture_section_eq i w :
  capture_section host tabId viewportHeight numScreenshots i w =
  let y := Z.of_nat i * viewportHeight in
  match scroll_reply host (scroll_calls w) with
  | Some e => (Threw e, scroll_rejected tabId y w)
  | None =>
      match capture_with_retry host (Z.to_nat maxRetries) 0
                               (slept 500 (scrolled host tabId y w)) with
      | (Returned url, w2) =>
          (Returned {| dataUrl := url; index := i; shot_scrollY := y |},
           if before_last i numScreenshots then slept 1100 w2 else w2)
      | (Threw e, w2) => (Threw e, w2)
      | (Pending, w2) => (Pending, w2)
      end
  end.
Proof.
  unfold capture_section. cbv zeta. unfold bind at 1. rewrite scroll_eq.
  destruct (scroll_reply host (scroll_calls w)); [reflexivity|].
  unfold bind at 1, sleep at 1. fold (slept 500 (scrolled host tabId (Z.of_nat i * viewportHeight) w)).
  unfold bind at 1.
  destruct (capture_with_retry _ _ _ _) as [[url|e|] w2]; try reflexivity.
  unfold bind, ret, sleep.
  destruct (before_last i numScreenshots); reflexivity.
Qed.

Lemma trace_slept ms w : trace (slept ms w) = trace w ++ [EvSleep ms].
Proof. reflexivity. Qed.

Lemma trace_captured w : trace (captured w) = trace w ++ [EvCaptureVisibleTab].
Proof. reflexivity. Qed.

Lemma trace_scrolled y w :
  trace (scrolled host tabId y w) = trace w ++ [EvScrollTo tabId y].
Proof. reflexivity. Qed.

(** A round that returns made the calls of [section_events], its first
    [failed] attempts having failed and the next one not. *)
Lemma capture_section_returned i w screenshot w' :
  capture_section host tabId viewportHeight numScreenshots i w
    = (Returned screenshot, w') ->
  exists failed,
    (failed <= 2)%nat
    /\ trace w' = trace w
                  ++ section_events tabId viewportHeight numScreenshots i failed
    /\ capture_calls w' = (capture_calls w + S failed)%nat
    /\ failures host (capture_calls w) (S failed) = failed
    /\ index screenshot = i
    /\ shot_scrollY screenshot = Z.of_nat i * viewportHeight.
Proof.
  rewrite capture_section_eq. cbv zeta.
  destruct (scroll_reply host (scroll_calls w)); [discriminate|].
  rewrite capture_with_retry_cases. unfold attempt.
  cbn [Nat.add captured slept scrolled capture_calls emit count_capture set_scrollY count_scroll].
  unfold failures, section_events.
  destruct (image (capture_reply host (capture_calls w))) as [e1|u1] eqn:H1.
  - destruct (image (capture_reply host (S (capture_calls w)))) as [e2|u2] eqn:H2.
    + cbv zeta.
      destruct (image (capture_reply host (S (S (capture_calls w))))) as [e3|u3] eqn:H3;
        [discriminate|].
      intros [= <- <-]. exists 2%nat.
      cbn [seq filter]. rewrite H1, H2, H3.
      destruct (before_last i numScreenshots);
        cbn; rewrite <- ?app_assoc; cbn [app];
        repeat split; try reflexivity; lia.
    + intros [= <- <-]. exists 1%nat.
      cbn [seq filter]. rewrite H1, H2.
      destruct (before_last i numScreenshots);
        cbn; rewrite <- ?app_assoc; cbn [app];
        repeat split; try reflexivity; lia.
  - intros [= <- <-]. exists 0%nat.
    cbn [seq filter]. rewrite H1.
    destruct (before_last i numScreenshots);
      cbn; rewrite <- ?app_assoc; cbn [app];
      repeat split; try reflexivity; lia.
Qed.

(** A round that throws was refused an injection or three captures. *)
Lemma capture_section_threw i w e w' :
  capture_section host tabId viewportHeight numScreenshots i w = (Threw e, w') ->
  scroll_reply host (scroll_calls w) = Some e
  \/ (scroll_reply host (scroll_calls w) = None
      /\ attempt host w 2 = inl e
      /\ is_failure (attempt host w 0) = true
      /\ is_failure (attempt host w 1) = true).
Proof.
  rewrite capture_section_eq. cbv zeta.
  destruct (scroll_reply host (scroll_calls w)) as [e0|].
  - intros [= <- _]. left. reflexivity.
  - rewrite capture_with_retry_cases. unfold attempt.
    cbn [Nat.add captured slept scrolled capture_calls emit count_capture set_scrollY count_scroll].
    destruct (image (capture_reply host (capture_calls w))) as [e1|u1];
      [|destruct (before_last i numScreenshots); discriminate].
    destruct (image (capture_reply host (S (capture_calls w)))) as [e2|u2];
      [|destruct (before_last i numScreenshots); discriminate].
    cbv zeta.
    destruct (image (capture_reply host (S (S (capture_calls w))))) as [e3|u3];
      [|destruct (before_last i numScreenshots); discriminate].
    intros [= <- _]. right. auto.
Qed.

Lemma capture_section_settles i w :
  pending (fst (capture_section host tabId viewportHeight numScreenshots i w)) = false.
Proof.
  rewrite capture_section_eq. cbv zeta.
  destruct (scroll_reply host (scroll_calls w)); [reflexivity|].
  rewrite capture_with_retry_cases.
  destruct (attempt host _ 0); [|reflexivity].
  destruct (attempt host _ 1); [|reflexivity].
  cbv zeta. destruct (attempt host _ 2); reflexivity.
Qed.

End Rounds.

(** ** The [for] loop *)

Section Loop.
Import Chrome ServiceWorker Session.
Variable host : Host.
Variable tabId : nat.
Variable viewportHeight : Z.
Variable numScreenshots : LoopBound.

Lemma scroll_requests_app a b :
  scroll_requests (a ++ b) = scroll_requests a ++ scroll_requests b.
Proof.
  induction a as [|[] a IH]; cbn [app scroll_requests]; rewrite ?IH; reflexivity.
Qed.

Lemma captures_app a b : captures (a ++ b) = (captures a + captures b)%nat.
Proof.
  induction a as [|[] a IH]; cbn [app captures]; rewrite ?IH; reflexivity.
Qed.

Lemma scroll_requests_section i failed :
  scroll_requests (section_events tabId viewportHeight numScreenshots i failed)
  = [Z.of_nat i * viewportHeight].
Proof.
  unfold section_events.
  destruct failed as [|[|failed]]; destruct (before_last i numScreenshots);
    reflexivity.
Qed.

Lemma captures_section i failed :
  (failed <= 2)%nat ->
  captures (section_events tabId viewportHeight numScreenshots i failed)
  = S failed.
Proof.
  unfold section_events. intros H.
  destruct failed as [|[|[|failed]]]; [| | |lia];
    destruct (before_last i numScreenshots); reflexivity.
Qed.

Lemma failures_app from a b :
  failures host from (a + b)
  = (failures host from a + failures host (from + a) b)%nat.
Proof.
  unfold failures. rewrite seq_app, filter_app, length_app. reflexivity.
Qed.

(** The rounds compose. *)
Lemma capture_sections_split a b : forall i screenshots w,
  capture_sections host tabId viewportHeight numScreenshots (a + b) i screenshots w
  = bind (capture_sections host tabId viewportHeight numScreenshots a i screenshots)
         (fun s => capture_sections host tabId viewportHeight numScreenshots
                                    b (a + i) s) w.
Proof.
  induction a as [|a IH]; intros i screenshots w.
  - reflexivity.
  - cbn [Nat.add capture_sections]. rewrite bind_assoc.
    apply bind_ext. intros shot w1.
    rewrite IH. replace (a + S i)%nat with (S (a + i)) by lia. reflexivity.
Qed.

(** A loop that runs to its end visited every section once, in order,
    and called the capture primitive once per section and once more per
    failed attempt. *)
Lemma capture_sections_returned m : forall i screenshots w screenshots' w',
  capture_sections host tabId viewportHeight numScreenshots m i screenshots w
    = (Returned screenshots', w') ->
  exists new,
    trace w' = trace w ++ new
    /\ List.length screenshots' = (List.length screenshots + m)%nat
    /\ scroll_requests new
       = map (fun j => Z.of_nat j * viewportHeight) (seq i m)
    /\ captures new = (m + failures host (capture_calls w) (captures new))%nat
    /\ (captures new <= 3 * m)%nat
    /\ capture_calls w' = (capture_calls w + captures new)%nat.
Proof.
  induction m as [|m IH]; intros i screenshots w screenshots' w' Hrun.
  - cbn in Hrun. injection Hrun as <- <-. exists [].
    rewrite app_nil_r. cbn. repeat split; lia.
  - cbn [capture_sections] in Hrun. unfold bind in Hrun.
    destruct (capture_section _ _ _ _ _ _) as [[shot|e|] w1] eqn:Hsec;
      try discriminate.
    destruct (capture_section_returned _ _ _ _ _ _ _ _ Hsec)
      as (failed & Hle & Htr & Hcalls & Hfail & _ & _).
    destruct (IH _ _ _ _ _ Hrun)
      as (new & Htr' & Hlen & Hscroll & Hcap & Hbound & Hcalls').
    exists (section_events tabId viewportHeight numScreenshots i failed ++ new).
    rewrite scroll_requests_app, captures_app, scroll_requests_section,
      (captures_section _ _ Hle).
    repeat split.
    + rewrite Htr', Htr, app_assoc. reflexivity.
    + rewrite Hlen, length_app. cbn. lia.
    + rewrite Hscroll. reflexivity.
    + rewrite failures_app, Hfail, <- Hcalls. lia.
    + lia.
    + lia.
Qed.

(** A loop that throws was refused a call by the host. *)
Lemma capture_sections_threw m : forall i screenshots w e w',
  capture_sections host tabId viewportHeight numScreenshots m i screenshots w
    = (Threw e, w') ->
  (exists k, scroll_reply host k = Some e)
  \/ (exists k, image (capture_reply host k) = inl e).
Proof.
  induction m as [|m IH]; intros i screenshots w e w' Hrun.
  - discriminate.
  - cbn [capture_sections] in Hrun. unfold bind in Hrun.
    destruct (capture_section _ _ _ _ _ _) as [[shot|e1|] w1] eqn:Hsec;
      try discriminate.
    + eapply IH. exact Hrun.
    + injection Hrun as <- <-.
      destruct (capture_section_threw _ _ _ _ _ _ _ _ Hsec)
        as [H|(_ & H & _)]; [left|right]; eexists; exact H.
Qed.

Lemma capture_sections_settles m : forall i screenshots w,
  pending (fst (capture_sections host tabId viewportHeight numScreenshots
                                 m i screenshots w)) = false.
Proof.
  induction m as [|m IH]; intros i screenshots w; [reflexivity|].
  cbn [capture_sections]. unfold bind.
  pose proof (capture_section_settles host tabId viewportHeight numScreenshots i w) as Hs.
  destruct (capture_section _ _ _ _ _ _) as [[shot|e|] w1];
    [apply IH|reflexivity|discriminate].
Qed.

End Loop.


(** ** The number of sections *)

Section Ceiling.
Import ServiceWorker.

(** [- ((- a) / b)] is the least integer not below the quotient. *)
Lemma ceil_div_spec a b :
  0 < b -> b * (- ((- a) / b) - 1) < a <= b * (- ((- a) / b)).
Proof.
  intros Hb.
  pose proof (Z.div_mod (- a) b ltac:(lia)) as Hdm.
  pose proof (Z.mod_pos_bound (- a) b Hb) as Hmod.
  nia.
Qed.

Lemma Math_ceil_div_bounded a b :
  0 < b -> Math_ceil_div a b = Bounded (- ((- a) / b)).
Proof.
  intros Hb. unfold Math_ceil_div.
  destruct (Z.eqb_spec b 0); [lia|reflexivity].
Qed.

(** A page taller than its viewport has at least two sections. *)
Lemma ceil_div_ge_2 a b : 0 < b -> b < a -> 2 <= - ((- a) / b).
Proof.
  intros Hb Hab. pose proof (ceil_div_spec a b Hb). nia.
Qed.

Lemma offsets_increasing vh m : forall i,
  0 < vh ->
  StronglySorted Z.lt (map (fun j => Z.of_nat j * vh) (seq i m)).
Proof.
  induction m as [|m IH]; intros i Hvh; cbn [seq map]; constructor.
  - apply IH. exact Hvh.
  - apply Forall_forall. intros y Hy.
    apply in_map_iff in Hy. destruct Hy as (j & <- & Hj).
    apply in_seq in Hj. nia.
Qed.

End Ceiling.

(** ** The session: capture, compose, restore *)

Section SessionShape.
Import Chrome ServiceWorker Session.
Variable host : Host.
Variable tabId : nat.

Lemma restore_and_rethrow_eq y e w :
  restore_and_rethrow host tabId y e w =
  (Threw e,
   match scroll_reply host (scroll_calls w) with
   | None => scrolled host tabId y w
   | Some _ =>
       emit (EvConsoleError "Failed to restore scroll position:")
            (scroll_rejected tabId y w)
   end).
Proof.
  unfold restore_and_rethrow, bind, try_catch. rewrite scroll_eq.
  destruct (scroll_reply host (scroll_calls w)); reflexivity.
Qed.

(** The session, by the outcome of capturing and composing and by the
    replies to the injections that restore the offset. *)
Lemma session_eq d w :
  captureFullPageWithScrolling host tabId d w =
  match capture_and_compose host tabId d w with
  | (Returned url, w1) =>
      match scroll_reply host (scroll_calls w1) with
      | None => (Returned url, scrolled host tabId (dim_scrollY d) w1)
      | Some e =>
          restore_and_rethrow host tabId (dim_scrollY d) e
                              (scroll_rejected tabId (dim_scrollY d) w1)
      end
  | (Threw e, w1) => restore_and_rethrow host tabId (dim_scrollY d) e w1
  | (Pending, w1) => (Pending, w1)
  end.
Proof.
  unfold captureFullPageWithScrolling. cbv zeta.
  unfold try_catch at 1.
  match goal with |- context [bind ?m ?k w] =>
    assert (Hassoc : bind m k w =
      bind (capture_and_compose host tabId d)
           (fun stitchedDataUrl =>
              executeScript_scrollToPosition host tabId (dim_scrollY d) ;;
              ret stitchedDataUrl) w)
  end.
  { unfold capture_and_compose. rewrite bind_assoc. reflexivity. }
  rewrite Hassoc. clear Hassoc.
  unfold bind at 1.
  destruct (capture_and_compose host tabId d w) as [[url|e|] w1]; try reflexivity.
  unfold bind, ret. rewrite scroll_eq.
  destruct (scroll_reply host (scroll_calls w1)); reflexivity.
Qed.

(** What capturing and composing throws, the session throws. *)
Lemma session_rethrows d w e w1 :
  capture_and_compose host tabId d w = (Threw e, w1) ->
  fst (captureFullPageWithScrolling host tabId d w) = Threw e.
Proof.
  intros H. rewrite session_eq, H, restore_and_rethrow_eq. reflexivity.
Qed.

(** A loop that throws ends capturing and composing. *)
Lemma compose_after_loop_threw d w e w1 :
  capture_all_sections host tabId (viewportHeight d)
    (Math_ceil_div (fullHeight d) (viewportHeight d)) w = (Threw e, w1) ->
  capture_and_compose host tabId d w = (Threw e, w1).
Proof.
  intros H. unfold capture_and_compose. apply bind_threw. exact H.
Qed.

(** Three refusals in the section after [done] captured ones end the
    loop with the third error. *)
Lemma loop_aborts_after_three_refusals d w done screenshots w1 e :
  0 < viewportHeight d ->
  (done < Z.to_nat (- ((- fullHeight d) / viewportHeight d)))%nat ->
  capture_sections host tabId (viewportHeight d)
    (Math_ceil_div (fullHeight d) (viewportHeight d)) done 0 [] w
    = (Returned screenshots, w1) ->
  scroll_reply host (scroll_calls w1) = None ->
  is_failure (attempt host w1 0) = true ->
  is_failure (attempt host w1 1) = true ->
  attempt host w1 2 = inl e ->
  capture_all_sections host tabId (viewportHeight d)
    (Math_ceil_div (fullHeight d) (viewportHeight d)) w
  = (Threw e,
     captured (slept 2000 (captured (slept 1000 (captured
       (slept 500 (scrolled host tabId (Z.of_nat done * viewportHeight d) w1))))))).
Proof.
  intros Hviewport Hmore Hdone Hscrolls Hfirst Hsecond Hthird.
  rewrite (Math_ceil_div_bounded _ _ Hviewport) in *.
  unfold capture_all_sections.
  remember (Z.to_nat (- ((- fullHeight d) / viewportHeight d))) as n eqn:Hn.
  replace n with (done + S (n - S done))%nat by lia.
  rewrite capture_sections_split.
  rewrite (bind_returned _ _ _ _ _ Hdone).
  cbn [capture_sections]. apply bind_threw.
  rewrite capture_section_eq. cbv zeta.
  replace (done + 0)%nat with done by lia.
  rewrite Hscrolls, capture_with_retry_cases.
  unfold attempt in *.
  change (capture_calls
            (slept 500 (scrolled host tabId (Z.of_nat done * viewportHeight d) w1)))
    with (capture_calls w1).
  cbn [Nat.add] in *.
  destruct (image (capture_reply host (capture_calls w1))); [|discriminate].
  destruct (image (capture_reply host (S (capture_calls w1)))); [|discriminate].
  cbv zeta. rewrite Hthird. reflexivity.
Qed.

End SessionShape.

(** ** Provisioning the offscreen document *)

Section Provisioning.
Import Chrome ServiceWorker Session.
Variable host : Host.

Lemma run_ensure_settled fuel r w :
  run_ensure host fuel (Settled r) w = (r, w).
Proof. destruct fuel; reflexivity. Qed.

(** A call that polls alone settles within its fifty rounds. *)
Lemma run_ensure_poll_settles fuel : forall i w,
  (i < poll_limit)%nat -> (poll_limit < i + fuel)%nat ->
  pending (fst (run_ensure host fuel (AwaitPoll i) w)) = false.
Proof.
  induction fuel as [|fuel IH]; intros i w Hi Hfuel; [lia|].
  cbn [run_ensure advance].
  destruct (offscreenDocumentCreated w).
  - rewrite run_ensure_settled. reflexivity.
  - destruct (Nat.ltb_spec (S i) poll_limit).
    + apply IH; lia.
    + rewrite run_ensure_settled. reflexivity.
Qed.

Lemma ensure_catch_settles error w :
  exists r, fst (ensure_catch error w) = Settled r /\ pending r = false.
Proof.
  unfold ensure_catch. destruct (includes _ _); eexists; split; reflexivity.
Qed.

(** A call that nothing interleaves with settles. *)
Lemma run_ensure_S fuel pc w :
  run_ensure host (S fuel) pc w =
  match pc with
  | Settled r => (r, w)
  | _ => let (pc', w') := advance host pc w in run_ensure host fuel pc' w'
  end.
Proof. destruct pc; reflexivity. Qed.

Lemma ensureOffscreenDocument_settles w :
  pending (fst (ensureOffscreenDocument host w)) = false.
Proof.
  unfold ensureOffscreenDocument.
  assert (Hcatch : forall fuel error w1,
             pending (fst (let (pc', w') := ensure_catch error w1 in
                           run_ensure host fuel pc' w')) = false).
  { intros fuel error w1. unfold ensure_catch.
    destruct (includes _ _); rewrite run_ensure_settled; reflexivity. }
  rewrite run_ensure_S. cbn [advance].
  destruct (offscreenDocumentCreated w); [rewrite run_ensure_settled; reflexivity|].
  destruct (offscreenDocumentCreating w).
  - apply run_ensure_poll_settles; unfold poll_limit; lia.
  - rewrite run_ensure_S. cbn [advance].
    destruct (contexts_reply host _) as [error|len]; [apply Hcatch|].
    destruct (Nat.ltb 0 len).
    + unfold ensure_created. rewrite run_ensure_settled. reflexivity.
    + unfold poll_limit. rewrite run_ensure_S. cbn [advance].
      destruct (create_reply host _) as [error|]; [apply Hcatch|].
      unfold ensure_created. rewrite run_ensure_settled. reflexivity.
Qed.

End Provisioning.

(** ** Two calls sharing the flags *)

Section SingleFlight.
Import Chrome ServiceWorker Session.
Variable host : Host.

Ltac close_invariant :=
  cbn [pc_first pc_second shared set_creating set_created emit count_create
       create_calls offscreenDocumentCreated offscreenDocumentCreating
       provisioning] in *;
  repeat split; try lia; try congruence; try tauto.

Lemma one_provisioner_first c0 polls s :
  one_provisioner c0 polls s -> one_provisioner c0 polls (resume host s First).
Proof.
  destruct s as [p1 p2 w]. unfold one_provisioner, resume.
  cbn [pc_first pc_second shared].
  intros (H1 & H2 & H3).
  destruct p1 as [| |k|k|[[]|e|]]; try contradiction; cbn [advance].
  - (* resumed from [await getContexts] *)
    destruct H1 as [Hc Hcr].
    destruct (contexts_reply host k) as [error|len];
      [unfold ensure_catch; destruct (includes _ _)
      |destruct (Nat.ltb 0 len); [unfold ensure_created|]];
      destruct p2 as [|i| | |[[]|e2|]]; try contradiction; close_invariant.
  - (* resumed from [await createDocument] *)
    destruct H1 as [Hc Hcr].
    destruct (create_reply host k) as [error|];
      [unfold ensure_catch; destruct (includes _ _)|unfold ensure_created];
      destruct p2 as [|i| | |[[]|e2|]]; try contradiction; close_invariant.
  - close_invariant.
  - close_invariant.
Qed.

Lemma one_provisioner_second c0 polls s :
  one_provisioner c0 polls s ->
  one_provisioner c0 (S polls) (resume host s Second).
Proof.
  destruct s as [p1 p2 w]. unfold one_provisioner, resume.
  cbn [pc_first pc_second shared].
  intros (H1 & H2 & H3).
  destruct p2 as [|i| | |[[]|e|]]; try contradiction; cbn [advance].
  - (* resumed from [await sleep(100)] *)
    destruct H2 as [-> Hlt].
    destruct (offscreenDocumentCreated w) eqn:Hcr.
    + destruct p1 as [| |k|k|[[]|e|]]; try contradiction; close_invariant.
    + destruct (Nat.ltb_spec (S polls) poll_limit);
        destruct p1 as [| |k|k|[[]|e|]]; try contradiction; close_invariant.
  - close_invariant.
  - close_invariant.
Qed.

(** The invariant holds along every schedule. *)
Lemma one_provisioner_schedule c0 order : forall polls s,
  one_provisioner c0 polls s ->
  one_provisioner c0 (polls + resumptions Second order)
                  (schedule host order s).
Proof.
  unfold schedule.
  induction order as [|c order IH]; intros polls s Hinv.
  - cbn. rewrite Nat.add_0_r. exact Hinv.
  - cbn [fold_left]. destruct c; cbn [resumptions].
    + apply IH. apply one_provisioner_first. exact Hinv.
    + replace (polls + S (resumptions Second order))%nat
        with (S polls + resumptions Second order)%nat by lia.
      apply IH. apply one_provisioner_second. exact Hinv.
Qed.

(** It holds when the second call has just found the first in flight. *)
Lemma one_provisioner_overlapping w :
  offscreenDocumentCreated w = false ->
  offscreenDocumentCreating w = false ->
  one_provisioner (create_calls w) 0 (overlapping host w).
Proof.
  intros Hcr Hcg. unfold overlapping, schedule, one_provisioner.
  cbn [fold_left resume pc_first pc_second shared advance].
  rewrite Hcr, Hcg. cbn. rewrite Hcr. repeat split.
  - exact Hcr.
  - unfold poll_limit. lia.
Qed.

End SingleFlight.

(** ** Asking the offscreen document to stitch *)

Section StitchRequest.
Import Chrome ServiceWorker Session.
Variable host : Host.

(** The request, by the outcome of provisioning, the port and the answer
    of the offscreen listener. *)
Lemma stitchScreenshots_eq screenshots wd totalHeight w :
  fst (stitchScreenshots host screenshots wd totalHeight w) =
  match fst (ensureOffscreenDocument host w) with
  | Returned _ =>
      match port_reply host with
      | PortDelivers =>
          match Offscreen.onMessage (decoder host) screenshots wd totalHeight with
          | Some (Offscreen.StitchOk url) => Returned url
          | Some (Offscreen.StitchErr error) =>
              Threw (Error (or_else error "Failed to stitch screenshots"))
          | None => Pending
          end
      | PortSilent => Threw (Error "Failed to stitch screenshots")
      | PortRejects e => Threw e
      end
  | Threw e => Threw e
  | Pending => Pending
  end.
Proof.
  unfold stitchScreenshots, try_catch. unfold bind at 1.
  destruct (ensureOffscreenDocument host w) as [[[]|e|] w1]; cbn [fst];
    try reflexivity.
  unfold bind, sendMessage_stitchScreenshots.
  destruct (port_reply host); try reflexivity.
  destruct (Offscreen.onMessage _ _ _ _) as [[url|error]|]; reflexivity.
Qed.

Lemma stitchScreenshots_settles screenshots wd totalHeight w :
  (0 < List.length screenshots)%nat ->
  (forall k, (k < List.length screenshots)%nat ->
             In k (Offscreen.decode_order (decoder host))) ->
  pending (fst (stitchScreenshots host screenshots wd totalHeight w)) = false.
Proof.
  intros Hpos Hall. rewrite stitchScreenshots_eq.
  pose proof (ensureOffscreenDocument_settles host w) as Hens.
  destruct (fst (ensureOffscreenDocument host w)) as [[]|e|];
    [|reflexivity|discriminate].
  destruct (port_reply host); try reflexivity.
  unfold Offscreen.onMessage.
  pose proof (stitch_settles (decoder host) screenshots wd totalHeight Hpos Hall)
    as Hst.
  destruct (Offscreen.stitchScreenshots _ _ _ _); [reflexivity|reflexivity|].
  congruence.
Qed.

End StitchRequest.

(** ** Requests are answered *)

Section Answered.
Import Chrome ServiceWorker Session.
Variable host : Host.
Variable tabId : nat.

Lemma capture_and_compose_settles d w :
  0 < viewportHeight d -> viewportHeight d < fullHeight d ->
  (forall k, (k < sections d)%nat ->
             In k (Offscreen.decode_order (decoder host))) ->
  pending (fst (capture_and_compose host tabId d w)) = false.
Proof.
  intros Hvh Htall Hall. unfold capture_and_compose.
  rewrite (Math_ceil_div_bounded _ _ Hvh). unfold capture_all_sections.
  fold (sections d). unfold bind.
  pose proof (capture_sections_settles host tabId (viewportHeight d)
                (Bounded (- ((- fullHeight d) / viewportHeight d)))
                (sections d) 0 [] w) as Hsettles.
  destruct (capture_sections _ _ _ _ _ _ _ _) as [[screenshots|e|] w1] eqn:Hrun;
    [|reflexivity|discriminate].
  destruct (capture_sections_returned _ _ _ _ _ _ _ _ _ _ Hrun)
    as (new & _ & Hlen & _).
  cbn [List.length Nat.add] in Hlen.
  pose proof (ceil_div_ge_2 _ _ Hvh Htall) as Hge.
  assert (Hpos : (0 < sections d)%nat) by (unfold sections; lia).
  apply stitchScreenshots_settles; rewrite Hlen; auto.
Qed.

Lemma session_settles d w :
  pending (fst (capture_and_compose host tabId d w)) = false ->
  pending (fst (captureFullPageWithScrolling host tabId d w)) = false.
Proof.
  rewrite session_eq.
  destruct (capture_and_compose host tabId d w) as [[url|e|] w1]; cbn [fst].
  - intros _. destruct (scroll_reply host (scroll_calls w1)); [|reflexivity].
    rewrite restore_and_rethrow_eq. reflexivity.
  - intros _. rewrite restore_and_rethrow_eq. reflexivity.
  - discriminate.
Qed.

Lemma captureSingleScreenshot_settles w :
  pending (fst (captureSingleScreenshot host tabId w)) = false.
Proof.
  unfold captureSingleScreenshot, call_captureVisibleTab.
  destruct (latency _ <? 5000); [|reflexivity].
  destruct (image _); reflexivity.
Qed.

Lemma capture_pipeline_settles w :
  answers host -> pending (fst (capture_pipeline host tabId w)) = false.
Proof.
  unfold answers, capture_pipeline, bind, executeScript_getPageDimensions.
  destruct (probe_reply host) as [e| |d]; try reflexivity.
  intros Hans.
  destruct (Z.leb_spec (fullHeight d) (viewportHeight d)) as [Hfit|Htall].
  - apply captureSingleScreenshot_settles.
  - destruct Hans as [Hfit|[Hvh Hall]]; [lia|].
    apply session_settles. apply capture_and_compose_settles; assumption.
Qed.

(** The handler, by the outcome of its [try] block. *)
Lemma handleCaptureScreenshot_eq w :
  fst (handleCaptureScreenshot host tabId w) =
  match fst (capture_pipeline host tabId w) with
  | Returned url => Returned (Some url)
  | Threw _ => Returned None
  | Pending => Pending
  end.
Proof.
  unfold handleCaptureScreenshot, try_catch, bind.
  destruct (capture_pipeline host tabId w) as [[url|e|] w1]; reflexivity.
Qed.

(** The handler on a page that fits its viewport. *)
Lemma handle_single_eq d w :
  probe_reply host = ProbeResult d ->
  fullHeight d <= viewportHeight d ->
  handleCaptureScreenshot host tabId w =
  let reply := capture_reply host (capture_calls w) in
  let w2 := captured (emit (EvGetPageDimensions tabId) w) in
  if latency reply <? 5000 then
    match image reply with
    | inr url => (Returned (Some url), w2)
    | inl e =>
        (Returned None,
         emit (EvConsoleError ("Screenshot capture error: " ++ message e)%string)
              w2)
    end
  else
    (Returned None,
     emit (EvConsoleError "Screenshot capture error: Screenshot timeout") w2).
Proof.
  intros Hprobe Hfits.
  unfold handleCaptureScreenshot, try_catch, capture_pipeline, bind,
    executeScript_getPageDimensions.
  rewrite Hprobe.
  destruct (Z.leb_spec (fullHeight d) (viewportHeight d)) as [_|Hgt]; [|lia].
  unfold captureSingleScreenshot, call_captureVisibleTab. cbv zeta.
  change (capture_calls (emit (EvGetPageDimensions tabId) w))
    with (capture_calls w).
  destruct (latency (capture_reply host (capture_calls w)) <? 5000);
    [|reflexivity].
  destruct (image (capture_reply host (capture_calls w))); reflexivity.
Qed.

End Answered.

(* ------------------------------------------------------------------ *)
(** * Where the page is left *)

Section Injections.
Import Chrome ServiceWorker Session.
Variable host : Host.

Lemma offset_after_app a : forall k y b,
  offset_after host k y (a ++ b)
  = offset_after host (k + List.length a) (offset_after host k y a) b.
Proof.
  induction a as [|target a IH]; intros k y b; cbn [app offset_after List.length].
  - rewrite Nat.add_0_r. reflexivity.
  - rewrite IH. f_equal. lia.
Qed.

(** A computation that adds events other than injections, and leaves
    the counter and the page alone. *)
Lemma still_moves {A} (m : Async A) :
  (forall w, exists new,
      trace (snd (m w)) = trace w ++ new
      /\ scroll_requests new = []
      /\ scroll_calls (snd (m w)) = scroll_calls w
      /\ window_scrollY (snd (m w)) = window_scrollY w) ->
  moves_by_injection host m.
Proof.
  intros Hm w. destruct (Hm w) as (new & Htr & Hnone & Hcalls & Hy).
  exists new. rewrite Hnone. cbn. rewrite Nat.add_0_r. auto.
Qed.

Lemma moves_ret {A} (a : A) : moves_by_injection host (ret a).
Proof.
  apply still_moves. intros w. exists []. cbn. rewrite app_nil_r. auto.
Qed.

Lemma moves_throw {A} e : moves_by_injection host (@throw A e).
Proof.
  apply still_moves. intros w. exists []. cbn. rewrite app_nil_r. auto.
Qed.

Lemma moves_never {A} : moves_by_injection host (@never A).
Proof.
  apply still_moves. intros w. exists []. cbn. rewrite app_nil_r. auto.
Qed.

Lemma moves_sleep ms : moves_by_injection host (sleep ms).
Proof. apply still_moves. intros w. exists [EvSleep ms]. cbn. auto. Qed.

Lemma moves_console_error text : moves_by_injection host (console_error text).
Proof.
  apply still_moves. intros w. exists [EvConsoleError text]. cbn. auto.
Qed.

Lemma moves_captureVisibleTab : moves_by_injection host (captureVisibleTab host).
Proof.
  apply still_moves. intros w. exists [EvCaptureVisibleTab]. cbn. auto.
Qed.

Lemma moves_scroll tabId y :
  moves_by_injection host (executeScript_scrollToPosition host tabId y).
Proof.
  intros w. exists [EvScrollTo tabId y].
  unfold executeScript_scrollToPosition.
  destruct (scroll_reply host (scroll_calls w)) eqn:Hreply;
    cbn; rewrite Hreply; repeat split; lia.
Qed.

(** What two computations in a row add. *)
Lemma moves_then (w w1 w2 : World) new new' :
  trace w1 = trace w ++ new ->
  scroll_calls w1 = (scroll_calls w + List.length (scroll_requests new))%nat ->
  window_scrollY w1
    = offset_after host (scroll_calls w) (window_scrollY w)
                   (scroll_requests new) ->
  trace w2 = trace w1 ++ new' ->
  scroll_calls w2 = (scroll_calls w1 + List.length (scroll_requests new'))%nat ->
  window_scrollY w2
    = offset_after host (scroll_calls w1) (window_scrollY w1)
                   (scroll_requests new') ->
  trace w2 = trace w ++ (new ++ new')
  /\ scroll_calls w2
     = (scroll_calls w + List.length (scroll_requests (new ++ new')))%nat
  /\ window_scrollY w2
     = offset_after host (scroll_calls w) (window_scrollY w)
                    (scroll_requests (new ++ new')).
Proof.
  intros Htr Hcalls Hy Htr' Hcalls' Hy'.
  rewrite scroll_requests_app, length_app, offset_after_app.
  rewrite Htr', Htr, app_assoc, Hcalls', Hy', Hcalls, Hy.
  repeat split; lia.
Qed.

Lemma moves_bind {A B} (m : Async A) (k : A -> Async B) :
  moves_by_injection host m -> (forall a, moves_by_injection host (k a)) ->
  moves_by_injection host (bind m k).
Proof.
  unfold moves_by_injection. intros Hm Hk w. unfold bind.
  destruct (Hm w) as (new & Htr & Hcalls & Hy).
  destruct (m w) as [[a|e|] w1]; cbn [snd] in *;
    try solve [exists new; auto].
  destruct (Hk a w1) as (new' & Htr' & Hcalls' & Hy').
  exists (new ++ new'). eapply moves_then; eassumption.
Qed.

Lemma moves_try_catch {A} (m : Async A) (h : JsError -> Async A) :
  moves_by_injection host m -> (forall e, moves_by_injection host (h e)) ->
  moves_by_injection host (try_catch m h).
Proof.
  unfold moves_by_injection. intros Hm Hh w. unfold try_catch.
  destruct (Hm w) as (new & Htr & Hcalls & Hy).
  destruct (m w) as [[a|e|] w1]; cbn [snd] in *;
    try solve [exists new; auto].
  destruct (Hh e w1) as (new' & Htr' & Hcalls' & Hy').
  exists (new ++ new'). eapply moves_then; eassumption.
Qed.

Lemma moves_capture_with_retry fuel : forall retries,
  moves_by_injection host (capture_with_retry host fuel retries).
Proof.
  induction fuel as [|fuel IH]; intros retries; cbn [capture_with_retry].
  - apply moves_never.
  - destruct (retries <? maxRetries); [|apply moves_ret].
    apply moves_try_catch; [apply moves_captureVisibleTab|].
    intros e. cbv zeta. destruct (retries + 1 >=? maxRetries).
    + apply moves_throw.
    + apply moves_bind; [apply moves_sleep|]. intros _. apply IH.
Qed.

Lemma moves_capture_section tabId vh n i :
  moves_by_injection host (capture_section host tabId vh n i).
Proof.
  unfold capture_section. cbv zeta.
  apply moves_bind; [apply moves_scroll|]. intros _.
  apply moves_bind; [apply moves_sleep|]. intros _.
  apply moves_bind; [apply moves_capture_with_retry|]. intros url.
  apply moves_bind; [|intros _; apply moves_ret].
  destruct (before_last i n); [apply moves_sleep|apply moves_ret].
Qed.

Lemma moves_capture_sections tabId vh n m : forall i screenshots,
  moves_by_injection host (capture_sections host tabId vh n m i screenshots).
Proof.
  induction m as [|m IH]; intros i screenshots; cbn [capture_sections].
  - apply moves_ret.
  - apply moves_bind; [apply moves_capture_section|]. intros shot. apply IH.
Qed.

Lemma moves_capture_all_sections tabId vh n :
  moves_by_injection host (capture_all_sections host tabId vh n).
Proof.
  unfold capture_all_sections. destruct n as [n|].
  - apply moves_capture_sections.
  - apply moves_bind; [apply moves_capture_sections|].
    intros _. apply moves_never.
Qed.

(** One run of a provisioning call between two suspension points. *)
Lemma advance_still pc w :
  exists new,
    trace (snd (advance host pc w)) = trace w ++ new
    /\ scroll_requests new = []
    /\ scroll_calls (snd (advance host pc w)) = scroll_calls w
    /\ window_scrollY (snd (advance host pc w)) = window_scrollY w.
Proof.
  assert (Hnone : forall w0 : World,
             scroll_calls w0 = scroll_calls w ->
             window_scrollY w0 = window_scrollY w ->
             trace w0 = trace w ->
             exists new, trace w0 = trace w ++ new
                         /\ scroll_requests new = []
                         /\ scroll_calls w0 = scroll_calls w
                         /\ window_scrollY w0 = window_scrollY w).
  { intros w0 Hc Hy Ht. exists []. rewrite app_nil_r. auto. }
  assert (Hone : forall (w0 : World) e,
             trace w0 = trace w ++ [e] ->
             scroll_requests [e] = [] ->
             scroll_calls w0 = scroll_calls w ->
             window_scrollY w0 = window_scrollY w ->
             exists new, trace w0 = trace w ++ new
                         /\ scroll_requests new = []
                         /\ scroll_calls w0 = scroll_calls w
                         /\ window_scrollY w0 = window_scrollY w).
  { intros w0 e Ht He Hc Hy. exists [e]. auto. }
  assert (Hcatch : forall error,
             exists new,
               trace (snd (ensure_catch error w)) = trace w ++ new
               /\ scroll_requests new = []
               /\ scroll_calls (snd (ensure_catch error w)) = scroll_calls w
               /\ window_scrollY (snd (ensure_catch error w))
                  = window_scrollY w).
  { intros error. unfold ensure_catch.
    destruct (includes _ _); cbn [snd];
      [apply Hnone|eapply Hone]; reflexivity. }
  destruct pc as [|i|k|k|r]; cbn [advance].
  - destruct (offscreenDocumentCreated w);
      [|destruct (offscreenDocumentCreating w)]; cbn [snd];
      [apply Hnone|eapply Hone|eapply Hone]; reflexivity.
  - destruct (offscreenDocumentCreated w);
      [|destruct (Nat.ltb (S i) poll_limit)]; cbn [snd];
      [apply Hnone|eapply Hone|apply Hnone]; reflexivity.
  - destruct (contexts_reply host k) as [error|len]; [apply Hcatch|].
    destruct (Nat.ltb 0 len); cbn [snd ensure_created];
      [apply Hnone|eapply Hone]; reflexivity.
  - destruct (create_reply host k) as [error|]; [apply Hcatch|].
    cbn [snd ensure_created]. apply Hnone; reflexivity.
  - cbn [snd]. apply Hnone; reflexivity.
Qed.

Lemma moves_run_ensure fuel : forall pc,
  moves_by_injection host (run_ensure host fuel pc).
Proof.
  induction fuel as [|fuel IH]; intros pc.
  - apply still_moves. intros w.
    destruct pc; exists []; cbn; rewrite app_nil_r; auto.
  - intros w. rewrite run_ensure_S.
    assert (Hstep : forall pc0,
               exists new,
                 trace (snd (let (pc', w') := advance host pc0 w in
                             run_ensure host fuel pc' w'))
                 = trace w ++ new
                 /\ scroll_calls (snd (let (pc', w') := advance host pc0 w in
                                       run_ensure host fuel pc' w'))
                    = (scroll_calls w + List.length (scroll_requests new))%nat
                 /\ window_scrollY (snd (let (pc', w') := advance host pc0 w in
                                         run_ensure host fuel pc' w'))
                    = offset_after host (scroll_calls w) (window_scrollY w)
                                   (scroll_requests new)).
    { intros pc0.
      destruct (advance_still pc0 w) as (new & Htr & Hnone & Hcalls & Hy).
      destruct (advance host pc0 w) as [pc' w1]. cbn [snd] in *.
      destruct (IH pc' w1) as (new' & Htr' & Hcalls' & Hy').
      exists (new ++ new').
      rewrite scroll_requests_app, Hnone. cbn [app].
      rewrite Htr', Htr, app_assoc, Hcalls', Hy', Hcalls, Hy. auto. }
    destruct pc; try apply Hstep.
    exists []. cbn. rewrite app_nil_r, Nat.add_0_r. auto.
Qed.

Lemma moves_sendMessage screenshots wd totalHeight :
  moves_by_injection host
    (sendMessage_stitchScreenshots host screenshots wd totalHeight).
Proof.
  apply still_moves. intros w.
  exists [EvSendMessage screenshots wd totalHeight].
  unfold sendMessage_stitchScreenshots.
  destruct (port_reply host);
    [destruct (Offscreen.onMessage _ _ _ _)| |]; cbn; auto.
Qed.

Lemma moves_stitchScreenshots screenshots wd totalHeight :
  moves_by_injection host (stitchScreenshots host screenshots wd totalHeight).
Proof.
  unfold stitchScreenshots.
  apply moves_try_catch.
  - apply moves_bind; [apply moves_run_ensure|]. intros _.
    apply moves_bind; [apply moves_sendMessage|].
    intros [[url|error]|]; [apply moves_ret|apply moves_throw|apply moves_throw].
  - intros e. apply moves_bind; [apply moves_console_error|].
    intros _. apply moves_throw.
Qed.

Lemma moves_capture_and_compose tabId d :
  moves_by_injection host (capture_and_compose host tabId d).
Proof.
  unfold capture_and_compose.
  apply moves_bind; [apply moves_capture_all_sections|].
  intros screenshots. apply moves_stitchScreenshots.
Qed.

End Injections.

Section SessionEnd.
Import Chrome ServiceWorker Session.
Variable host : Host.
Variable tabId : nat.

Lemma moves_session d :
  moves_by_injection host (captureFullPageWithScrolling host tabId d).
Proof.
  unfold captureFullPageWithScrolling. cbv zeta.
  apply moves_try_catch.
  - apply moves_bind; [apply moves_capture_all_sections|]. intros screenshots.
    apply moves_bind; [apply moves_stitchScreenshots|]. intros url.
    apply moves_bind; [apply moves_scroll|]. intros _. apply moves_ret.
  - intros error. apply moves_bind; [|intros _; apply moves_throw].
    apply moves_try_catch; [apply moves_scroll|].
    intros e. apply moves_console_error.
Qed.

(** A session that ends has last asked for the offset it recorded; after
    that it has at most logged. *)
Lemma session_last_request d w :
  pending (fst (captureFullPageWithScrolling host tabId d w)) = false ->
  exists before tail,
    trace (snd (captureFullPageWithScrolling host tabId d w))
      = trace w ++ before ++ [EvScrollTo tabId (dim_scrollY d)] ++ tail
    /\ scroll_requests tail = [].
Proof.
  rewrite session_eq.
  destruct (moves_capture_and_compose host tabId d w) as (new1 & Htr1 & _).
  destruct (capture_and_compose host tabId d w) as [[url|e|] w1];
    cbn [snd] in Htr1; [| |discriminate]; intros _.
  - destruct (scroll_reply host (scroll_calls w1)) as [e1|].
    + rewrite restore_and_rethrow_eq. cbn [snd].
      exists (new1 ++ [EvScrollTo tabId (dim_scrollY d)]).
      destruct (scroll_reply host _);
        [exists [EvConsoleError "Failed to restore scroll position:"]
        |exists []];
        cbn [scrolled scroll_rejected trace set_scrollY emit count_scroll];
        rewrite Htr1, <- !app_assoc; split; reflexivity.
    + cbn [snd]. exists new1, [].
      cbn [scrolled trace set_scrollY emit count_scroll].
      rewrite Htr1, <- !app_assoc. split; reflexivity.
  - rewrite restore_and_rethrow_eq. cbn [snd]. exists new1.
    destruct (scroll_reply host _);
      [exists [EvConsoleError "Failed to restore scroll position:"]
      |exists []];
      cbn [scrolled scroll_rejected trace set_scrollY emit count_scroll];
      rewrite Htr1, <- !app_assoc; split; reflexivity.
Qed.

End SessionEnd.

(* ------------------------------------------------------------------ *)
(** * What the waiting call sees *)

Section Waiting.
Import Chrome ServiceWorker Session.
Variable host : Host.

Lemma sleeps_app a b : sleeps (a ++ b) = sleeps a ++ sleeps b.
Proof.
  induction a as [|e a IH]; [reflexivity|].
  destruct e; cbn [app sleeps]; rewrite IH; reflexivity.
Qed.

Lemma repeat_snoc {A} (x : A) n : repeat x n ++ [x] = repeat x (S n).
Proof. rewrite <- repeat_cons. reflexivity. Qed.

(** The first call sleeps nowhere after its entry, and sets the created
    flag exactly when it returns. *)
Lemma waits_counted_first before c0 polls s :
  one_provisioner c0 polls s -> waits_counted before s ->
  waits_counted before (resume host s First).
Proof.
  destruct s as [p1 p2 w]. unfold one_provisioner, waits_counted, resume.
  cbn [pc_first pc_second shared].
  intros (H1 & _ & _) (Hflag & new & slept & Htrace & Hsleeps & Hbound & Hsecond).
  assert (Hsame : forall w' : World,
             trace w' = trace w ->
             exists new' slept',
               trace w' = before ++ new'
               /\ sleeps new' = repeat 100 slept'
               /\ (1 <= slept' <= poll_limit)%nat
               /\ match p2 with
                  | AwaitPoll i => slept' = S i
                  | Settled (Threw _) => slept' = poll_limit
                  | _ => True
                  end).
  { intros w' Hw'. exists new, slept. rewrite Hw'. auto. }
  assert (Hmore : forall (w' : World) e,
             trace w' = trace w ++ [e] -> sleeps [e] = [] ->
             exists new' slept',
               trace w' = before ++ new'
               /\ sleeps new' = repeat 100 slept'
               /\ (1 <= slept' <= poll_limit)%nat
               /\ match p2 with
                  | AwaitPoll i => slept' = S i
                  | Settled (Threw _) => slept' = poll_limit
                  | _ => True
                  end).
  { intros w' e Hw' He. exists (new ++ [e]), slept.
    rewrite Hw', Htrace, app_assoc, sleeps_app, He, app_nil_r. auto. }
  assert (Hcatch : forall error,
             offscreenDocumentCreated w = false ->
             offscreenDocumentCreated (snd (ensure_catch error w))
               = succeeded (fst (ensure_catch error w))
             /\ exists new' slept',
                 trace (snd (ensure_catch error w)) = before ++ new'
                 /\ sleeps new' = repeat 100 slept'
                 /\ (1 <= slept' <= poll_limit)%nat
                 /\ match p2 with
                    | AwaitPoll i => slept' = S i
                    | Settled (Threw _) => slept' = poll_limit
                    | _ => True
                    end).
  { intros error Hcr. unfold ensure_catch.
    destruct (includes _ _); cbn [fst snd succeeded].
    - split; [reflexivity|]. apply Hsame. reflexivity.
    - split; [exact Hcr|]. eapply Hmore; reflexivity. }
  destruct p1 as [| |k|k|r]; try contradiction; cbn [advance].
  - destruct H1 as [_ Hcr].
    destruct (contexts_reply host k) as [error|len].
    + destruct (Hcatch error Hcr) as [Hflag' Hcount].
      destruct (ensure_catch error w) as [pc' w']. cbn [fst snd] in *.
      split; assumption.
    + destruct (Nat.ltb 0 len); cbn [ensure_created succeeded].
      * split; [reflexivity|]. apply Hsame. reflexivity.
      * split; [exact Hcr|]. eapply Hmore; reflexivity.
  - destruct H1 as [_ Hcr].
    destruct (create_reply host k) as [error|].
    + destruct (Hcatch error Hcr) as [Hflag' Hcount].
      destruct (ensure_catch error w) as [pc' w']. cbn [fst snd] in *.
      split; assumption.
    + cbn [ensure_created succeeded].
      split; [reflexivity|]. apply Hsame. reflexivity.
  - split; [exact Hflag|]. apply Hsame. reflexivity.
Qed.

(** The second call sleeps once more at every poll that finds the flag
    unset, up to the fiftieth sleep. *)
Lemma waits_counted_second before c0 polls s :
  one_provisioner c0 polls s -> waits_counted before s ->
  waits_counted before (resume host s Second).
Proof.
  destruct s as [p1 p2 w]. unfold one_provisioner, waits_counted, resume.
  cbn [pc_first pc_second shared].
  intros (_ & H2 & _) (Hflag & new & slept & Htrace & Hsleeps & Hbound & Hsecond).
  destruct p2 as [|i| | |r]; try contradiction; cbn [advance].
  - destruct H2 as [_ Hlt]. subst slept.
    destruct (offscreenDocumentCreated w) eqn:Hcr;
      [|destruct (Nat.ltb_spec (S i) poll_limit) as [Hnext|Hlast]];
      cbn [pc_first pc_second shared emit trace offscreenDocumentCreated];
      (split; [congruence|]).
    + exists new, (S i). auto.
    + exists (new ++ [EvSleep 100]), (S (S i)).
      rewrite Htrace, app_assoc, sleeps_app, Hsleeps.
      cbn [sleeps]. rewrite repeat_snoc. repeat split; lia.
    + exists new, (S i). repeat split; try assumption; lia.
  - cbn [pc_first pc_second shared]. split; [exact Hflag|].
    exists new, slept. auto.
Qed.

Lemma waits_counted_schedule before c0 order : forall polls s,
  one_provisioner c0 polls s -> waits_counted before s ->
  waits_counted before (schedule host order s).
Proof.
  unfold schedule.
  induction order as [|c order IH]; intros polls s Hinv Hwaits; [exact Hwaits|].
  cbn [fold_left]. destruct c.
  - apply (IH polls); [apply one_provisioner_first; exact Hinv|].
    eapply waits_counted_first; eassumption.
  - apply (IH (S polls)); [apply one_provisioner_second; exact Hinv|].
    eapply waits_counted_second; eassumption.
Qed.

Lemma waits_counted_overlapping w :
  offscreenDocumentCreated w = false ->
  offscreenDocumentCreating w = false ->
  waits_counted (trace w) (overlapping host w).
Proof.
  intros Hcr Hcg. unfold overlapping, schedule, waits_counted.
  cbn [fold_left resume pc_first pc_second shared advance].
  rewrite Hcr, Hcg. cbn. rewrite Hcr. split; [exact Hcr|].
  exists [EvGetContexts; EvSleep 100], 1%nat.
  cbn [pc_first pc_second shared emit trace count_contexts set_creating].
  rewrite <- app_assoc. unfold poll_limit. repeat split; lia.
Qed.

(** Once the first call has returned, a second call that still polls
    returns when it is next resumed, and stays so. *)
Lemma waiter_returns later : forall s,
  pc_first s = Settled (Returned tt) ->
  offscreenDocumentCreated (shared s) = true ->
  (exists i, pc_second s = AwaitPoll i)
  \/ pc_second s = Settled (Returned tt) ->
  (pc_second s = Settled (Returned tt)
   \/ (0 < resumptions Second later)%nat) ->
  pc_second (schedule host later s) = Settled (Returned tt).
Proof.
  unfold schedule.
  induction later as [|c later IH]; intros s Hfirst Hcreated Hsecond Hresumed.
  - cbn in *. destruct Hresumed as [Hdone|Hlt]; [exact Hdone|lia].
  - cbn [fold_left]. destruct s as [p1 p2 w].
    cbn [pc_first pc_second shared] in *. subst p1.
    destruct c; cbn [resume pc_first pc_second shared advance].
    + apply IH; cbn [pc_first pc_second shared]; auto.
    + destruct Hsecond as [[i ->]| ->]; cbn [advance]; rewrite ?Hcreated;
        apply IH; cbn [pc_first pc_second shared]; auto.
Qed.

End Waiting.

(* ------------------------------------------------------------------ *)
(** * The capture session *)

Section SessionClaims.
Import Chrome ServiceWorker Session.

(** C2, as stated, fails.  With captures refused and the page lost to
    injections after the first, the session ends in failure with the tab
    left at offset 0, the offset recorded at its start being 250. *)
Lemma scroll_not_restored_when_injection_fails :
  let session := captureFullPageWithScrolling Hosts.page_lost 7 Hosts.tall_page
                                              Hosts.fresh in
  fst session = Threw Hosts.rate_limited
  /\ window_scrollY Hosts.fresh = dim_scrollY Hosts.tall_page
  /\ window_scrollY (snd session) <> dim_scrollY Hosts.tall_page.
Proof.
  vm_compute. repeat split; discriminate.
Qed.

(** C2, amended.  A session that ends, in success or in failure, has
    last injected [scrollToPosition] with the offset recorded at its
    start.  The tab is left where the injections that ran put it: where
    [window.scrollTo] of the recorded offset puts the page when that last
    injection ran, and where the injections before it left the page (at
    its offset before the session, if none of them ran) when the host
    refused it. *)
Theorem session_restores_scroll host tabId d w
        (Hends : pending (fst (captureFullPageWithScrolling host tabId d w)) = false) :
  exists new earlier,
    trace (snd (captureFullPageWithScrolling host tabId d w)) = trace w ++ new
    /\ scroll_requests new = earlier ++ [dim_scrollY d]
    /\ scroll_calls (snd (captureFullPageWithScrolling host tabId d w))
       = (scroll_calls w + S (List.length earlier))%nat
    /\ window_scrollY (snd (captureFullPageWithScrolling host tabId d w))
       = match scroll_reply host (scroll_calls w + List.length earlier) with
         | None => window_scrollTo host (dim_scrollY d)
         | Some _ =>
             offset_after host (scroll_calls w) (window_scrollY w) earlier
         end.
Proof.
  destruct (moves_session host tabId d w) as (new & Htrace & Hcalls & Hoffset).
  destruct (session_last_request host tabId d w Hends)
    as (before & tail & Hlast & Htail).
  assert (Hnew : new = before ++ [EvScrollTo tabId (dim_scrollY d)] ++ tail).
  { apply (app_inv_head (trace w)). rewrite <- Htrace. exact Hlast. }
  assert (Hrequests : scroll_requests new
                      = scroll_requests before ++ [dim_scrollY d]).
  { rewrite Hnew, !scroll_requests_app, Htail. reflexivity. }
  exists new, (scroll_requests before).
  split; [exact Htrace|]. split; [exact Hrequests|].
  rewrite Hrequests in Hcalls, Hoffset.
  rewrite length_app in Hcalls. cbn [List.length] in Hcalls.
  split; [rewrite Hcalls; lia|].
  rewrite Hoffset, offset_after_app. reflexivity.
Qed.

(** The session of the counterexample: the restoring injection is
    refused, and the tab stays where the one injection that ran, of the
    first section, put it. *)
Lemma session_restores_scroll_witness :
  window_scrollY
    (snd (captureFullPageWithScrolling Hosts.page_lost 7 Hosts.tall_page
                                       Hosts.fresh))
  = window_scrollTo Hosts.page_lost 0.
Proof.
  destruct (session_restores_scroll Hosts.page_lost 7 Hosts.tall_page
              Hosts.fresh ltac:(vm_compute; reflexivity))
    as (new & earlier & Htrace & Hrequests & _ & Hoffset).
  assert (Hearlier : earlier = [0]).
  { apply (app_inv_tail [dim_scrollY Hosts.tall_page]).
    rewrite <- Hrequests.
    apply (f_equal scroll_requests) in Htrace.
    rewrite scroll_requests_app in Htrace. vm_compute in Htrace.
    vm_compute. congruence. }
  rewrite Hoffset, Hearlier. reflexivity.
Defined.

(** C3, as stated, fails.  With the first capture refused and retried,
    the loop over three sections calls the capture primitive four
    times. *)
Lemma retried_capture_adds_a_call :
  let loop := capture_all_sections Hosts.fails_once 7 600
                (Math_ceil_div 1500 600) Hosts.fresh in
  Math_ceil_div 1500 600 = Bounded 3
  /\ (exists screenshots, fst loop = Returned screenshots)
  /\ captures (trace (snd loop)) = 4%nat.
Proof.
  vm_compute. repeat split. eexists. reflexivity.
Qed.

(** C3, amended.  On a page taller than its viewport, the number of
    sections is the quotient of the heights rounded up, and the loop
    either throws an error with which the host refused a call, or runs to
    its end having recorded one tile per section, having set the offsets
    0, viewportHeight, 2 * viewportHeight, ... once each in increasing
    order, and having called the capture primitive once per section and
    once more per refused call, at most three times per section. *)
Theorem capture_loop_visits_every_section host tabId fullHeight viewportHeight w
        (Hviewport : 0 < viewportHeight)
        (Htall : viewportHeight < fullHeight) :
  let n := Z.to_nat (- ((- fullHeight) / viewportHeight)) in
  Math_ceil_div fullHeight viewportHeight = Bounded (Z.of_nat n)
  /\ viewportHeight * (Z.of_nat n - 1) < fullHeight <= viewportHeight * Z.of_nat n
  /\ match capture_all_sections host tabId viewportHeight
             (Math_ceil_div fullHeight viewportHeight) w with
     | (Returned screenshots, w') =>
         exists new,
           trace w' = trace w ++ new
           /\ List.length screenshots = n
           /\ scroll_requests new
              = map (fun i => Z.of_nat i * viewportHeight) (seq 0 n)
           /\ StronglySorted Z.lt (scroll_requests new)
           /\ captures new
              = (n + failures host (capture_calls w) (captures new))%nat
           /\ (captures new <= 3 * n)%nat
     | (Threw e, _) =>
         (exists k, scroll_reply host k = Some e)
         \/ (exists k, image (capture_reply host k) = inl e)
     | (Pending, _) => False
     end.
Proof.
  intros n.
  pose proof (ceil_div_spec fullHeight viewportHeight Hviewport) as Hceil.
  pose proof (ceil_div_ge_2 fullHeight viewportHeight Hviewport Htall) as Hge.
  assert (Hn : Z.of_nat n = - ((- fullHeight) / viewportHeight))
    by (unfold n; lia).
  rewrite (Math_ceil_div_bounded _ _ Hviewport), <- Hn.
  split; [reflexivity|]. split; [lia|].
  unfold capture_all_sections. rewrite Nat2Z.id.
  pose proof (capture_sections_settles host tabId viewportHeight
                (Bounded (Z.of_nat n)) n 0 [] w) as Hsettles.
  destruct (capture_sections _ _ _ _ _ _ _ _) as [[screenshots|e|] w'] eqn:Hrun.
  - destruct (capture_sections_returned _ _ _ _ _ _ _ _ _ _ Hrun)
      as (new & Htr & Hlen & Hscroll & Hcap & Hbound & _).
    exists new. repeat split; auto.
    rewrite Hscroll. apply offsets_increasing. exact Hviewport.
  - eapply capture_sections_threw. exact Hrun.
  - discriminate.
Qed.

(** A page of 1500 rows in a viewport of 600, nothing refused. *)
Lemma capture_loop_visits_every_section_witness :
  let n := 3%nat in
  Math_ceil_div 1500 600 = Bounded 3
  /\ 600 * (3 - 1) < 1500 <= 600 * 3
  /\ match capture_all_sections Hosts.quiet 7 600 (Math_ceil_div 1500 600)
                                Hosts.fresh with
     | (Returned screenshots, w') =>
         exists new,
           trace w' = trace Hosts.fresh ++ new
           /\ List.length screenshots = n
           /\ scroll_requests new
              = map (fun i => Z.of_nat i * 600) (seq 0 n)
           /\ StronglySorted Z.lt (scroll_requests new)
           /\ captures new
              = (n + failures Hosts.quiet (capture_calls Hosts.fresh)
                              (captures new))%nat
           /\ (captures new <= 3 * n)%nat
     | (Threw e, _) =>
         (exists k, scroll_reply Hosts.quiet k = Some e)
         \/ (exists k, image (capture_reply Hosts.quiet k) = inl e)
     | (Pending, _) => False
     end.
Proof.
  apply (capture_loop_visits_every_section Hosts.quiet 7 1500 600 Hosts.fresh);
    lia.
Defined.

(** C5.  The retry loop of a section calls the capture primitive at most
    three times, sleeping 1000 ms before the second call and 2000 ms
    before the third; the first call to succeed ends the loop with its
    image; a third refusal is thrown without a further call or wait.  When
    the three calls of a section are refused, after any number of sections
    captured, the session throws the error of the third refusal, no
    capture call following, and the restoring injection having been
    made. *)
Theorem capture_retried_then_session_aborts host tabId d w done
        screenshots w1 e
        (Hviewport : 0 < viewportHeight d)
        (Hmore : (done < Z.to_nat (- ((- fullHeight d) / viewportHeight d)))%nat)
        (Hdone : capture_sections host tabId (viewportHeight d)
                   (Math_ceil_div (fullHeight d) (viewportHeight d))
                   done 0 [] w = (Returned screenshots, w1))
        (Hscrolls : scroll_reply host (scroll_calls w1) = None)
        (Hfirst : is_failure (attempt host w1 0) = true)
        (Hsecond : is_failure (attempt host w1 1) = true)
        (Hthird : attempt host w1 2 = inl e) :
  maxRetries = 3
  /\ waitTime 1 = 1000 /\ waitTime 2 = 2000
  /\ (forall w0,
        capture_with_retry host (Z.to_nat maxRetries) 0 w0 =
        match attempt host w0 0 with
        | inr url => (Returned url, captured w0)
        | inl _ =>
            match attempt host w0 1 with
            | inr url => (Returned url, captured (slept 1000 (captured w0)))
            | inl _ =>
                let w3 :=
                  captured (slept 2000 (captured (slept 1000 (captured w0)))) in
                match attempt host w0 2 with
                | inr url => (Returned url, w3)
                | inl captureError => (Threw captureError, w3)
                end
            end
        end)
  /\ fst (captureFullPageWithScrolling host tabId d w) = Threw e
  /\ capture_calls (snd (captureFullPageWithScrolling host tabId d w))
     = (capture_calls w1 + 3)%nat
  /\ exists earlier,
      scroll_requests (trace (snd (captureFullPageWithScrolling host tabId d w)))
      = earlier ++ [dim_scrollY d].
Proof.
  pose proof (loop_aborts_after_three_refusals host tabId d w done screenshots
                w1 e Hviewport Hmore Hdone Hscrolls Hfirst Hsecond Hthird)
    as Hloop.
  apply compose_after_loop_threw in Hloop.
  pose proof (session_eq host tabId d w) as Hsession.
  rewrite Hloop, restore_and_rethrow_eq in Hsession.
  rewrite Hsession.
  split; [reflexivity|]. split; [reflexivity|]. split; [reflexivity|].
  split; [intros w0; apply capture_with_retry_cases|].
  split; [reflexivity|].
  split.
  - cbn [snd].
    match goal with |- context [match scroll_reply host ?k with _ => _ end] =>
      destruct (scroll_reply host k) end; cbn; lia.
  - cbn [snd]. eexists.
    match goal with |- context [match scroll_reply host ?k with _ => _ end] =>
      destruct (scroll_reply host k) end;
      cbn [scrolled scroll_rejected trace set_scrollY emit count_scroll
           captured slept count_capture];
      rewrite ?scroll_requests_app; cbn [scroll_requests app];
      rewrite ?app_nil_r; reflexivity.
Qed.

(** The first tile captured, every later capture refused. *)
Lemma capture_retried_then_session_aborts_witness :
  fst (captureFullPageWithScrolling Hosts.captures_once 7 Hosts.tall_page
                                    Hosts.fresh)
    = Threw Hosts.rate_limited
  /\ capture_calls
       (snd (captureFullPageWithScrolling Hosts.captures_once 7 Hosts.tall_page
                                          Hosts.fresh))
     = 4%nat.
Proof.
  pose proof (capture_retried_then_session_aborts
                Hosts.captures_once 7 Hosts.tall_page Hosts.fresh 1
                [{| dataUrl := Hosts.tile_url 0; index := 0; shot_scrollY := 0 |}]
                (slept 1100 (captured (slept 500
                   (scrolled Hosts.captures_once 7 0 Hosts.fresh))))
                Hosts.rate_limited
                ltac:(reflexivity) ltac:(vm_compute; lia) ltac:(reflexivity)
                ltac:(reflexivity) ltac:(reflexivity) ltac:(reflexivity)
                ltac:(reflexivity))
    as (_ & _ & _ & _ & Hthrows & Hcalls & _).
  split; [exact Hthrows|exact Hcalls].
Defined.

(** C7.  A failure of the injection that restores the offset after a
    successful composition discards the image: with three tiles captured
    and stitched and that one injection refused, capturing and composing
    returns the stitched image, the session throws the error of the
    injection, and the handler returns null. *)
Theorem restore_failure_discards_image :
  fst (capture_and_compose Hosts.restore_fails_once 7 Hosts.tall_page Hosts.fresh)
    = Returned "data:image/png;base64,STITCHED"
  /\ fst (captureFullPageWithScrolling Hosts.restore_fails_once 7
                                       Hosts.tall_page Hosts.fresh)
     = Threw Hosts.no_access
  /\ fst (handleCaptureScreenshot
            (Hosts.with_probe (ProbeResult Hosts.tall_page)
                              Hosts.restore_fails_once) 7 Hosts.fresh)
     = Returned None.
Proof.
  vm_compute. repeat split.
Qed.

End SessionClaims.

(* ------------------------------------------------------------------ *)
(** * The handler, the compositor and its provisioning *)

Section HandlerClaims.
Import Chrome ServiceWorker Session.

(** C4.  When the probed page fits its viewport, the handler calls the
    capture primitive exactly once, injects no scroll, calls nothing of
    the offscreen document, leaves the scroll offset and the provisioning
    flags as they were, and returns the image of that one call, or null
    when the call is refused or takes 5000 ms or more. *)
Theorem single_capture_when_page_fits host tabId d w
        (Hprobe : probe_reply host = ProbeResult d)
        (Hfits : fullHeight d <= viewportHeight d) :
  let reply := capture_reply host (capture_calls w) in
  let result :=
    if latency reply <? 5000 then
      match image reply with
      | inr url => Some url
      | inl _ => None
      end
    else None in
  let w' := snd (handleCaptureScreenshot host tabId w) in
  fst (handleCaptureScreenshot host tabId w) = Returned result
  /\ exists new,
      trace w' = trace w ++ new
      /\ captures new = 1%nat
      /\ scroll_requests new = []
      /\ compositor_calls new = 0%nat
      /\ window_scrollY w' = window_scrollY w
      /\ offscreenDocumentCreated w' = offscreenDocumentCreated w.
Proof.
  cbv zeta.
  rewrite (handle_single_eq host tabId d w Hprobe Hfits). cbv zeta.
  destruct (latency (capture_reply host (capture_calls w)) <? 5000);
    [destruct (image (capture_reply host (capture_calls w))) as [e|url]|];
    cbn [fst snd]; (split; [reflexivity|]); eexists;
    (split; [cbn [trace emit captured count_capture];
             rewrite <- ?app_assoc; reflexivity|]);
    repeat split.
Qed.

(** A page of 600 rows in a viewport of 600. *)
Lemma single_capture_when_page_fits_witness :
  fst (handleCaptureScreenshot Hosts.fits 7 Hosts.fresh)
    = Returned (Some (Hosts.tile_url 0))
  /\ exists new,
      trace (snd (handleCaptureScreenshot Hosts.fits 7 Hosts.fresh))
        = trace Hosts.fresh ++ new
      /\ captures new = 1%nat
      /\ scroll_requests new = []
      /\ compositor_calls new = 0%nat
      /\ window_scrollY (snd (handleCaptureScreenshot Hosts.fits 7 Hosts.fresh))
         = window_scrollY Hosts.fresh
      /\ offscreenDocumentCreated
           (snd (handleCaptureScreenshot Hosts.fits 7 Hosts.fresh))
         = offscreenDocumentCreated Hosts.fresh.
Proof.
  apply (single_capture_when_page_fits Hosts.fits 7 Hosts.short_page Hosts.fresh).
  - reflexivity.
  - vm_compute. discriminate.
Defined.

(** C10.  The handler never rejects.  Whatever its [try] block throws, it
    returns null, and the response to a [captureScreenshot] message, when
    one is sent, has [success: true] and no [error] property, with
    [dataUrl: null] when the capture failed; a response is sent whenever
    the probed viewport has a height and every tile image fires its
    event. *)
Theorem handler_never_rejects host tabId w :
  rejected (fst (handleCaptureScreenshot host tabId w)) = false
  /\ fst (onMessage_captureScreenshot host tabId w)
     = match fst (capture_pipeline host tabId w) with
       | Returned url => Returned (ResponseOk (Some url))
       | Threw _ => Returned (ResponseOk None)
       | Pending => Pending
       end
  /\ match fst (onMessage_captureScreenshot host tabId w) with
     | Returned response =>
         success response = true /\ error_field response = None
     | Threw _ => False
     | Pending => True
     end
  /\ (answers host ->
      pending (fst (onMessage_captureScreenshot host tabId w)) = false).
Proof.
  assert (Hmsg : fst (onMessage_captureScreenshot host tabId w)
                 = match fst (capture_pipeline host tabId w) with
                   | Returned url => Returned (ResponseOk (Some url))
                   | Threw _ => Returned (ResponseOk None)
                   | Pending => Pending
                   end).
  { unfold onMessage_captureScreenshot.
    pose proof (handleCaptureScreenshot_eq host tabId w) as Heq.
    destruct (handleCaptureScreenshot host tabId w) as [[dataUrl|e|] w1];
      cbn [fst] in *;
      destruct (fst (capture_pipeline host tabId w)); congruence. }
  split; [|split; [exact Hmsg|split]].
  - rewrite handleCaptureScreenshot_eq.
    destruct (fst (capture_pipeline host tabId w)); reflexivity.
  - rewrite Hmsg.
    destruct (fst (capture_pipeline host tabId w)); cbn; auto.
  - intros Hans. rewrite Hmsg.
    pose proof (capture_pipeline_settles host tabId w Hans) as Hset.
    destruct (fst (capture_pipeline host tabId w)); [reflexivity|reflexivity|].
    discriminate.
Qed.

(** A session in which every capture is refused is answered with
    [success: true] and [dataUrl: null]. *)
Lemma handler_never_rejects_witness :
  fst (onMessage_captureScreenshot Hosts.never_captures 7 Hosts.fresh)
    = Returned (ResponseOk None)
  /\ pending (fst (onMessage_captureScreenshot Hosts.never_captures 7 Hosts.fresh))
     = false.
Proof.
  destruct (handler_never_rejects Hosts.never_captures 7 Hosts.fresh)
    as (_ & Hmsg & _ & Hanswered).
  split.
  - rewrite Hmsg. reflexivity.
  - apply Hanswered. right. split; [reflexivity|].
    intros k Hk. change (sections Hosts.tall_page) with 3%nat in Hk.
    apply in_seq. lia.
Defined.



End HandlerClaims.

Section ProvisioningClaims.
Import Chrome ServiceWorker Session.

(** C6, as stated, fails: the two callers need not observe the same
    state.  When [createDocument] is refused, the first call throws that
    error at once; the second, which only watches for success, sleeps its
    fifty times and throws the timeout error. *)
Lemma overlapping_calls_settle_differently :
  let refused := schedule Hosts.cannot_create Hosts.first_is_quick
                          (overlapping Hosts.cannot_create Hosts.fresh) in
  pc_first refused = Settled (Threw (Error "Invalid url specified."))
  /\ pc_second refused = Settled (Threw timeout_error)
  /\ sleeps (trace (shared refused)) = repeat 100 50.
Proof.
  vm_compute. repeat split.
Qed.

(** C6, amended.  Of two calls of which the second is issued while the
    first is provisioning, only the first calls [createDocument], and at
    most once; the in-flight flag is set exactly while the first call is
    suspended in its [try] block, and the created flag exactly once it
    has returned.  The second call waits in sleeps of 100 ms, one on
    entry and one more at every poll that finds the created flag unset,
    fifty at most; it returns only if the first has returned, and it
    does return, at its next resumption, once the first has, unless it
    has timed out by then; it throws the timeout error at its fiftieth
    resumption, having slept fifty times, and nothing else. *)
Theorem overlapping_calls_create_once host w order later
        (Hnone : offscreenDocumentCreated w = false)
        (Hidle : offscreenDocumentCreating w = false) :
  let s := schedule host order (overlapping host w) in
  (create_calls (shared s) <= S (create_calls w))%nat
  /\ match pc_second s with
     | AwaitPoll i =>
         i = resumptions Second order /\ (i < poll_limit)%nat
     | Settled (Returned _) => pc_first s = Settled (Returned tt)
     | Settled (Threw e) =>
         e = timeout_error /\ (poll_limit <= resumptions Second order)%nat
     | _ => False
     end
  /\ offscreenDocumentCreating (shared s) = provisioning (pc_first s)
  /\ offscreenDocumentCreated (shared s) = succeeded (pc_first s)
  /\ (exists new slept,
        trace (shared s) = trace w ++ new
        /\ sleeps new = repeat 100 slept
        /\ (1 <= slept <= poll_limit)%nat
        /\ match pc_second s with
           | AwaitPoll i => slept = S i
           | Settled (Threw _) => slept = poll_limit
           | _ => True
           end)
  /\ (pc_first s = Settled (Returned tt) ->
      pc_second s <> Settled (Threw timeout_error) ->
      (0 < resumptions Second later)%nat ->
      pc_second (schedule host later s) = Settled (Returned tt)).
Proof.
  cbv zeta.
  pose proof (one_provisioner_schedule host (create_calls w) order 0 _
                (one_provisioner_overlapping host w Hnone Hidle)) as Hinv.
  pose proof (waits_counted_schedule host (trace w) (create_calls w) order 0 _
                (one_provisioner_overlapping host w Hnone Hidle)
                (waits_counted_overlapping host w Hnone Hidle)) as Hwaits.
  cbn [Nat.add] in Hinv.
  destruct Hinv as (Hfirst & Hsecond & Hflag).
  destruct Hwaits as (Hcreated & Hcount).
  split; [|split; [exact Hsecond|split; [exact Hflag|split;
            [exact Hcreated|split; [exact Hcount|]]]]].
  - destruct (pc_first (schedule host order (overlapping host w)))
      as [| |k|k|[[]|e|]]; try contradiction; lia.
  - intros Hreturned Hwaiting Hresumed.
    apply waiter_returns; [exact Hreturned| | |right; exact Hresumed].
    + rewrite Hcreated, Hreturned. reflexivity.
    + destruct (pc_second (schedule host order (overlapping host w)))
        as [|i| | |[[]|e|]]; try contradiction.
      * left. exists i. reflexivity.
      * right. reflexivity.
      * destruct Hsecond as [-> _]. congruence.
Qed.

(** The second call polls once, the first creates the document, and the
    second returns when it is next resumed. *)
Lemma overlapping_calls_create_once_witness :
  let s := schedule Hosts.creates [Second; First; First]
                    (overlapping Hosts.creates Hosts.fresh) in
  pc_first s = Settled (Returned tt)
  /\ pc_second s = AwaitPoll 1
  /\ pc_second (schedule Hosts.creates [Second] s) = Settled (Returned tt).
Proof.
  cbv zeta. split; [reflexivity|]. split; [reflexivity|].
  apply (overlapping_calls_create_once Hosts.creates Hosts.fresh
           [Second; First; First] [Second]
           ltac:(reflexivity) ltac:(reflexivity)).
  - reflexivity.
  - vm_compute. discriminate.
  - cbn. lia.
Defined.

(** C8.  When the image of a tile fails to decode, the composition rejects
    with the load error of the first tile to fire its error event, which
    names that tile's index; no image is resolved, the offscreen listener
    answers with that error, and the service worker's request throws: that
    error when the document was provisioned and the port delivered. *)
Theorem stitch_fails_on_decode_failure host screenshots wd totalHeight k
        (Hfire_once : NoDup (Offscreen.decode_order (decoder host)))
        (Hfires : In k (Offscreen.decode_order (decoder host)))
        (Hfails : Slots.fails (decoder host) screenshots k = true) :
  exists j,
    find (Slots.fails (decoder host) screenshots)
         (Offscreen.decode_order (decoder host)) = Some j
    /\ Slots.fails (decoder host) screenshots j = true
    /\ Offscreen.stitchScreenshots (decoder host) screenshots wd totalHeight
       = Threw (Slots.load_error j)
    /\ Offscreen.onMessage (decoder host) screenshots wd totalHeight
       = Some (Offscreen.StitchErr (message (Slots.load_error j)))
    /\ forall w,
        fst (stitchScreenshots host screenshots wd totalHeight w) =
        match fst (ensureOffscreenDocument host w) with
        | Returned _ =>
            match port_reply host with
            | PortDelivers => Threw (Slots.load_error j)
            | PortSilent => Threw (Error "Failed to stitch screenshots")
            | PortRejects e => Threw e
            end
        | Threw e => Threw e
        | Pending => Pending
        end.
Proof.
  destruct (split_at_first (Slots.fails (decoder host) screenshots) _ k
                           Hfires Hfails)
    as (before & j & after & Hord & Hj & Hbefore).
  exists j.
  pose proof (stitch_rejects_first_failure (decoder host) screenshots wd
                before j after totalHeight Hord Hfire_once Hbefore Hj) as Hrej.
  assert (Hmsg : Offscreen.onMessage (decoder host) screenshots wd totalHeight
                 = Some (Offscreen.StitchErr (message (Slots.load_error j)))).
  { unfold Offscreen.onMessage. rewrite Hrej. reflexivity. }
  split; [rewrite Hord; apply find_first; assumption|].
  split; [exact Hj|]. split; [exact Hrej|]. split; [exact Hmsg|].
  intros w. rewrite stitchScreenshots_eq, Hmsg. reflexivity.
Qed.

(** Tile 2 of 5 failing, the others decoding, in index order. *)
Lemma stitch_fails_on_decode_failure_witness :
  Offscreen.stitchScreenshots (Tiles.in_order 5) Tiles.five_tiles 800 3000
    = Threw (Slots.load_error 2)
  /\ Slots.load_error 2 = Error "Failed to load screenshot 2".
Proof.
  destruct (stitch_fails_on_decode_failure
              (Hosts.with_decoder (Tiles.in_order 5) Hosts.quiet)
              Tiles.five_tiles 800 3000 2
              (seq_NoDup 5 0) ltac:(simpl; tauto) ltac:(reflexivity))
    as (j & Hfind & _ & Hrej & _).
  vm_compute in Hfind. injection Hfind as <-.
  split; [exact Hrej|reflexivity].
Defined.

End ProvisioningClaims.

(* ------------------------------------------------------------------ *)
(** * Worked examples *)

Section Examples.
Import Chrome ServiceWorker Session.

(** Viewport 800 by 600, total height 1500: three tiles at offsets 0, 600
    and 1200, then the offset is restored. *)
Example three_tiles_session :
  let session := handleCaptureScreenshot Hosts.quiet 7 Hosts.fresh in
  fst session = Returned (Some "data:image/png;base64,STITCHED")
  /\ scroll_requests (trace (snd session)) = [0; 600; 1200; 250]
  /\ captures (trace (snd session)) = 3%nat
  /\ window_scrollY (snd session) = 250.
Proof. vm_compute. repeat split. Qed.

(** The tiles of that session are drawn at 0, 600 and 1200. *)
Example three_tiles_placed :
  Slots.placements
    (Offscreen.canvas
       (Offscreen.stitch (Tiles.in_order 3)
          [Tiles.tile_a; Tiles.tile_b; Tiles.tile_d] 800 1500))
  = [(0%nat, 0); (1%nat, 600); (2%nat, 1200)].
Proof. reflexivity. Qed.

(** Viewport 800 by 600, total height 600: one capture, no scrolling. *)
Example one_tile_session :
  let session := handleCaptureScreenshot Hosts.fits 7 Hosts.fresh in
  fst session = Returned (Some (Hosts.tile_url 0))
  /\ trace (snd session) = [EvGetPageDimensions 7; EvCaptureVisibleTab].
Proof. vm_compute. repeat split. Qed.

Example ceil_1500_600 : Math_ceil_div 1500 600 = Bounded 3.
Proof. reflexivity. Qed.

Example ceil_1200_600 : Math_ceil_div 1200 600 = Bounded 2.
Proof. reflexivity. Qed.

Example ceil_by_zero : Math_ceil_div 1500 0 = Unbounded.
Proof. reflexivity. Qed.

Example waitTime_capped : waitTime 3 = 3000.
Proof. reflexivity. Qed.

Example load_error_2 :
  Slots.load_error 2 = Error "Failed to load screenshot 2".
Proof. reflexivity. Qed.

Example includes_already_exists :
  includes "already exists"
           "Only a single offscreen document may be created: it already exists"
  = true.
Proof. reflexivity. Qed.

(** A refusal of [createDocument] that says the document exists counts as
    creation. *)
Example already_exists_is_success :
  let host :=
    Hosts.with_create_reply
      (fun _ => Some (Error "Offscreen document already exists")) Hosts.quiet in
  fst (ensureOffscreenDocument host Hosts.fresh) = Returned tt
  /\ offscreenDocumentCreated (snd (ensureOffscreenDocument host Hosts.fresh))
     = true
  /\ offscreenDocumentCreating (snd (ensureOffscreenDocument host Hosts.fresh))
     = false.
Proof. vm_compute. repeat split. Qed.

(** A call that finds the in-flight flag set, and nobody to clear it,
    sleeps fifty times and throws. *)
Example lone_waiter_times_out :
  let session := ensureOffscreenDocument Hosts.quiet
                   (set_creating true Hosts.fresh) in
  fst session = Threw timeout_error
  /\ trace (snd session) = repeat (EvSleep 100) 50.
Proof. vm_compute. repeat split. Qed.

(** The first call resumed only after the second has polled fifty
    times: the second has timed out, as its bound allows, and the first
    returns. *)
Example late_provisioner_outlives_waiter :
  let late := schedule Hosts.creates Hosts.first_is_slow
                       (overlapping Hosts.creates Hosts.fresh) in
  pc_first late = Settled (Returned tt)
  /\ pc_second late = Settled (Threw timeout_error).
Proof. vm_compute. repeat split. Qed.

End Examples.

(* ------------------------------------------------------------------ *)
(** * Further properties of the capture loop *)

Section PacingFacts.
Import Chrome ServiceWorker Session Timeline.
Variable host : Host.
Variable tabId : nat.
Variable viewportHeight : Z.
Variable numScreenshots : LoopBound.

Lemma pace_app quota a : forall since b,
  pace quota since (a ++ b) =
  match pace quota since a with
  | Some since' => pace quota since' b
  | None => None
  end.
Proof.
  induction a as [|e a IH]; intros since b; [reflexivity|].
  destruct e; cbn [app pace]; try apply IH.
  destruct since as [ms|]; [destruct (quota <=? ms)|]; auto.
Qed.

(** One round keeps the pace and, when it returns before the last
    section, leaves the 1100 ms of its closing sleep behind. *)
Lemma capture_section_paced i w since :
  rested since ->
  exists new,
    trace (snd (capture_section host tabId viewportHeight numScreenshots i w))
      = trace w ++ new
    /\ match fst (capture_section host tabId viewportHeight numScreenshots i w)
       with
       | Returned _ =>
           pace 1000 since new
           = Some (Some (if before_last i numScreenshots then 1100 else 0))
       | _ => pace 1000 since new <> None
       end.
Proof.
  intros Hrest. rewrite capture_section_eq. cbv zeta.
  assert (Hquota : forall ms, since = Some ms -> (1000 <=? 500 + ms) = true).
  { intros ms ->. cbn in Hrest. apply Z.leb_le. lia. }
  destruct (scroll_reply host (scroll_calls w)).
  - eexists. split; [reflexivity|]. cbn. destruct since; discriminate.
  - rewrite capture_with_retry_cases.
    destruct (attempt host _ 0) as [e1|u1];
      [destruct (attempt host _ 1) as [e2|u2];
       [cbv zeta; destruct (attempt host _ 2) as [e3|u3]|]|];
      try destruct (before_last i numScreenshots);
      (eexists; split; [cbn; rewrite <- ?app_assoc; reflexivity|]);
      destruct since as [ms|];
      cbn [fst app pace option_map];
      rewrite ?(Hquota _ eq_refl); cbn;
      first [reflexivity | discriminate].
Qed.

(** Rounds of which all but the last are followed by the rate-limit
    sleep keep the pace. *)
Lemma capture_sections_paced m : forall i screenshots w since,
  rested since ->
  (forall j, (i <= j)%nat -> (S j < i + m)%nat ->
             before_last j numScreenshots = true) ->
  exists new,
    trace (snd (capture_sections host tabId viewportHeight numScreenshots
                                 m i screenshots w))
      = trace w ++ new
    /\ pace 1000 since new <> None.
Proof.
  induction m as [|m IH]; intros i screenshots w since Hrest Hlast.
  - exists []. cbn. rewrite app_nil_r. split; [reflexivity|discriminate].
  - cbn [capture_sections]. unfold bind.
    destruct (capture_section_paced i w since Hrest) as (new & Htr & Hpace).
    destruct (capture_section host tabId viewportHeight numScreenshots i w)
      as [[shot|e|] w1]; cbn [fst snd] in *.
    + destruct m as [|m].
      * exists new. cbn. split; [exact Htr|]. rewrite Hpace. discriminate.
      * rewrite (Hlast i) in Hpace by lia.
        destruct (IH (S i) (screenshots ++ [shot]) w1 (Some 1100))
          as (new' & Htr' & Hpace').
        { cbn. lia. }
        { intros j Hj Hj'. apply Hlast; lia. }
        exists (new ++ new'). split.
        -- rewrite Htr', Htr, app_assoc. reflexivity.
        -- rewrite pace_app, Hpace. exact Hpace'.
    + exists new. split; assumption.
    + exists new. split; assumption.
Qed.

End PacingFacts.

(** Whatever the host replies, any two consecutive calls of the capture
    primitive made by the capture loop are separated by at least 1000 ms
    of sleep. *)
Lemma capture_all_sections_paced host tabId viewportHeight fullHeight w :
  exists new last,
    Chrome.trace
      (snd (ServiceWorker.capture_all_sections host tabId viewportHeight
              (ServiceWorker.Math_ceil_div fullHeight viewportHeight) w))
      = Chrome.trace w ++ new
    /\ Timeline.pace 1000 None new = Some last.
Proof.
  assert (Hex : exists new,
             Chrome.trace
               (snd (ServiceWorker.capture_all_sections host tabId viewportHeight
                       (ServiceWorker.Math_ceil_div fullHeight viewportHeight) w))
             = Chrome.trace w ++ new
             /\ Timeline.pace 1000 None new <> None).
  { unfold ServiceWorker.capture_all_sections.
    destruct (ServiceWorker.Math_ceil_div fullHeight viewportHeight) as [n|] eqn:Hn.
    - apply capture_sections_paced; [exact I|].
      intros j _ Hj. cbn. apply Z.ltb_lt. lia.
    - destruct (capture_sections_paced host tabId viewportHeight
                  ServiceWorker.Unbounded (Chrome.horizon host) 0 [] w None I)
        as (new & Htr & Hpace); [reflexivity|].
      exists new. unfold Chrome.bind, Chrome.never.
      destruct (ServiceWorker.capture_sections _ _ _ _ _ _ _ _) as [[s|e|] w1];
        split; assumption. }
  destruct Hex as (new & Htr & Hpace). exists new.
  destruct (Timeline.pace 1000 None new) as [last|]; [|contradiction].
  exists last. split; [exact Htr|reflexivity].
Qed.

(** ** The tiles of a session *)

Section TileFacts.
Import Chrome ServiceWorker Session Timeline.
Variable host : Host.
Variable tabId : nat.
Variable viewportHeight : Z.
Variable numScreenshots : LoopBound.

Lemma successes_app from a b :
  successes host from (a + b)
  = successes host from a ++ successes host (from + a) b.
Proof.
  unfold successes. rewrite seq_app, flat_map_app. reflexivity.
Qed.

Lemma tiles_from_app a : forall i b,
  tiles_from viewportHeight i (a ++ b)
  = tiles_from viewportHeight i a
    ++ tiles_from viewportHeight (i + List.length a) b.
Proof.
  induction a as [|url a IH]; intros i b; cbn [app tiles_from List.length].
  - rewrite Nat.add_0_r. reflexivity.
  - rewrite IH. replace (S i + List.length a)%nat
      with (i + S (List.length a))%nat by lia. reflexivity.
Qed.

Lemma tiles_from_length urls : forall i,
  List.length (tiles_from viewportHeight i urls) = List.length urls.
Proof.
  induction urls as [|url urls IH]; intros i; cbn; [|rewrite IH]; reflexivity.
Qed.

(** The tile a round records holds the image of its one successful
    call. *)
Lemma capture_section_tile i w screenshot w' :
  capture_section host tabId viewportHeight numScreenshots i w
    = (Returned screenshot, w') ->
  exists calls,
    (1 <= calls <= 3)%nat
    /\ capture_calls w' = (capture_calls w + calls)%nat
    /\ successes host (capture_calls w) calls = [dataUrl screenshot]
    /\ screenshot = tile_of viewportHeight i (dataUrl screenshot).
Proof.
  rewrite capture_section_eq. cbv zeta.
  destruct (scroll_reply host (scroll_calls w)); [discriminate|].
  rewrite capture_with_retry_cases. unfold attempt, successes.
  cbn [Nat.add captured slept scrolled capture_calls emit count_capture
       set_scrollY count_scroll].
  destruct (image (capture_reply host (capture_calls w))) as [e1|u1] eqn:H1;
    [destruct (image (capture_reply host (S (capture_calls w))))
       as [e2|u2] eqn:H2;
     [cbv zeta;
      destruct (image (capture_reply host (S (S (capture_calls w)))))
        as [e3|u3] eqn:H3; [discriminate|]|]|];
    intros [= <- <-];
    [exists 3%nat|exists 2%nat|exists 1%nat];
    cbn [seq flat_map]; rewrite ?H1, ?H2, ?H3;
    destruct (before_last i numScreenshots); cbn;
    repeat split; lia.
Qed.

(** The tiles a loop records are the images of its successful calls, in
    call order, numbered by section. *)
Lemma capture_sections_tiles m : forall i screenshots w screenshots' w',
  capture_sections host tabId viewportHeight numScreenshots m i screenshots w
    = (Returned screenshots', w') ->
  exists calls,
    capture_calls w' = (capture_calls w + calls)%nat
    /\ List.length (successes host (capture_calls w) calls) = m
    /\ screenshots'
       = screenshots
         ++ tiles_from viewportHeight i (successes host (capture_calls w) calls).
Proof.
  induction m as [|m IH]; intros i screenshots w screenshots' w' Hrun.
  - cbn in Hrun. injection Hrun as <- <-. exists 0%nat.
    cbn. rewrite app_nil_r. repeat split; lia.
  - cbn [capture_sections] in Hrun. unfold bind in Hrun.
    destruct (capture_section _ _ _ _ _ _) as [[shot|e|] w1] eqn:Hsec;
      try discriminate.
    destruct (capture_section_tile _ _ _ _ Hsec)
      as (calls & Hcalls & Hw1 & Hsucc & Hshot).
    destruct (IH _ _ _ _ _ Hrun) as (calls' & Hw' & Hlen & Hshots).
    exists (calls + calls')%nat.
    rewrite successes_app, <- Hw1, Hsucc.
    repeat split.
    + lia.
    + cbn. rewrite Hlen. reflexivity.
    + rewrite Hshots, <- app_assoc. cbn [app tiles_from]. rewrite <- Hshot.
      reflexivity.
Qed.

End TileFacts.

(** X2.  The tiles handed to the compositor by a capture loop that runs
    to its end are the images of the capture calls that succeeded, in the
    order of the calls, tile [i] carrying index [i] and offset
    [i * viewportHeight]: refused attempts leave no mark on them. *)
Theorem tiles_are_the_successful_captures host tabId viewportHeight bound w
        screenshots w'
        (Hruns : ServiceWorker.capture_all_sections host tabId viewportHeight
                   bound w = (Returned screenshots, w')) :
  exists calls,
    Chrome.capture_calls w' = (Chrome.capture_calls w + calls)%nat
    /\ screenshots
       = Timeline.tiles_from viewportHeight 0
           (Timeline.successes host (Chrome.capture_calls w) calls).
Proof.
  unfold ServiceWorker.capture_all_sections in Hruns.
  destruct bound as [n|].
  - destruct (capture_sections_tiles _ _ _ _ _ _ _ _ _ _ Hruns)
      as (calls & Hcalls & _ & Hshots).
    exists calls. split; assumption.
  - unfold Chrome.bind, Chrome.never in Hruns.
    destruct (ServiceWorker.capture_sections _ _ _ _ _ _ _ _) as [[s|e|] w1];
      discriminate.
Qed.

(** Three sections, the first capture refused once. *)
Lemma tiles_are_the_successful_captures_witness :
  exists calls,
    Chrome.capture_calls
      (snd (ServiceWorker.capture_all_sections Hosts.fails_once 7 600
              (ServiceWorker.Bounded 3) Hosts.fresh))
    = (Chrome.capture_calls Hosts.fresh + calls)%nat
    /\ Timeline.tiles_from 600 0
         [Hosts.tile_url 1; Hosts.tile_url 2; Hosts.tile_url 3]
       = Timeline.tiles_from 600 0
           (Timeline.successes Hosts.fails_once
              (Chrome.capture_calls Hosts.fresh) calls).
Proof.
  apply (tiles_are_the_successful_captures Hosts.fails_once 7 600
           (ServiceWorker.Bounded 3) Hosts.fresh).
  vm_compute. reflexivity.
Defined.

(** ** A call of [ensureOffscreenDocument] on its own *)

Section LoneCall.
Import Chrome ServiceWorker Session Timeline.
Variable host : Host.

(** A waiter whom nobody serves sleeps out its rounds and throws. *)
Lemma run_ensure_poll_alone fuel : forall i w,
  offscreenDocumentCreated w = false ->
  (i < poll_limit)%nat -> (poll_limit < i + fuel)%nat ->
  run_ensure host fuel (AwaitPoll i) w
  = (Threw timeout_error, Nat.iter (poll_limit - S i) (slept 100) w).
Proof.
  induction fuel as [|fuel IH]; intros i w Hcr Hi Hfuel; [lia|].
  rewrite run_ensure_S. cbn [advance]. rewrite Hcr.
  destruct (Nat.ltb_spec (S i) poll_limit) as [Hlt|Hge].
  - rewrite IH; [|exact Hcr|lia|lia].
    replace (poll_limit - S i)%nat with (S (poll_limit - S (S i))) by lia.
    rewrite Nat.iter_succ_r. reflexivity.
  - rewrite run_ensure_settled.
    replace (poll_limit - S i)%nat with 0%nat by lia. reflexivity.
Qed.

End LoneCall.

(** The call that finds no attempt in flight, by what it leaves. *)
Lemma ensure_idle_effect host w
        (Hidle : Chrome.offscreenDocumentCreating w = false) :
  let r := ServiceWorker.ensureOffscreenDocument host w in
  Chrome.offscreenDocumentCreating (snd r) = false
  /\ (Chrome.contexts_calls (snd r) <= S (Chrome.contexts_calls w))%nat
  /\ (Chrome.create_calls (snd r) <= S (Chrome.create_calls w))%nat
  /\ match fst r with
     | Returned _ => Chrome.offscreenDocumentCreated (snd r) = true
     | Threw e =>
         Chrome.offscreenDocumentCreated (snd r) = false
         /\ includes "already exists" (message e) = false
         /\ (Chrome.contexts_reply host (Chrome.contexts_calls w) = inl e
             \/ Chrome.create_reply host (Chrome.create_calls w) = Some e)
     | Pending => False
     end.
Proof.
  cbv zeta. unfold ServiceWorker.ensureOffscreenDocument.
  rewrite run_ensure_S. cbn [ServiceWorker.advance].
  destruct (Chrome.offscreenDocumentCreated w) eqn:Hcr.
  - rewrite run_ensure_settled. cbn. repeat split; auto; lia.
  - rewrite Hidle. rewrite run_ensure_S. cbn [ServiceWorker.advance].
    destruct (Chrome.contexts_reply host (Chrome.contexts_calls w))
      as [error|len] eqn:Hctx.
    + unfold ServiceWorker.ensure_catch.
      destruct (includes "already exists" (message error)) eqn:Hinc;
        rewrite run_ensure_settled; cbn; repeat split; auto; lia.
    + destruct (Nat.ltb 0 len).
      * unfold ServiceWorker.ensure_created. rewrite run_ensure_settled.
        cbn. repeat split; auto; lia.
      * unfold ServiceWorker.poll_limit. rewrite run_ensure_S.
        cbn [ServiceWorker.advance].
        change (Chrome.create_calls
                  (Chrome.emit Chrome.EvGetContexts
                     (Chrome.count_contexts (Chrome.set_creating true w))))
          with (Chrome.create_calls w).
        destruct (Chrome.create_reply host (Chrome.create_calls w))
          as [error|] eqn:Hcreate.
        -- unfold ServiceWorker.ensure_catch.
           destruct (includes "already exists" (message error)) eqn:Hinc;
             rewrite run_ensure_settled; cbn; repeat split; auto; lia.
        -- unfold ServiceWorker.ensure_created. rewrite run_ensure_settled.
           cbn. repeat split; auto; lia.
Qed.


(** X3.  A call of [ensureOffscreenDocument] that finds no attempt in
    flight clears the in-flight flag before it settles, calls
    [getContexts] and [createDocument] at most once each, returns exactly
    when it leaves the created flag set, and otherwise throws an error of
    the host that does not mention that the document already exists. *)
Theorem provisioning_call_clears_its_flag host w
        (Hidle : Chrome.offscreenDocumentCreating w = false) :
  let r := ServiceWorker.ensureOffscreenDocument host w in
  Chrome.offscreenDocumentCreating (snd r) = false
  /\ (Chrome.contexts_calls (snd r) <= S (Chrome.contexts_calls w))%nat
  /\ (Chrome.create_calls (snd r) <= S (Chrome.create_calls w))%nat
  /\ match fst r with
     | Returned _ => Chrome.offscreenDocumentCreated (snd r) = true
     | Threw e =>
         Chrome.offscreenDocumentCreated (snd r) = false
         /\ includes "already exists" (message e) = false
         /\ (Chrome.contexts_reply host (Chrome.contexts_calls w) = inl e
             \/ Chrome.create_reply host (Chrome.create_calls w) = Some e)
     | Pending => False
     end.
Proof.
  exact (ensure_idle_effect host w Hidle).
Qed.

(** A first call on a host that refuses nothing. *)
Lemma provisioning_call_clears_its_flag_witness :
  Chrome.offscreenDocumentCreating
    (snd (ServiceWorker.ensureOffscreenDocument Hosts.quiet Hosts.fresh)) = false
  /\ Chrome.offscreenDocumentCreated
      (snd (ServiceWorker.ensureOffscreenDocument Hosts.quiet Hosts.fresh)) = true.
Proof.
  destruct (provisioning_call_clears_its_flag Hosts.quiet Hosts.fresh eq_refl)
    as (Hflag & _ & _ & Hresult).
  split; [exact Hflag|exact Hresult].
Defined.

(** X4.  Once a call of [ensureOffscreenDocument] has returned, every
    later call returns at once, without a call to the host and without
    changing anything: the document is created at most once. *)
Theorem provisioned_document_is_reused host w
        (Hreturned : fst (ServiceWorker.ensureOffscreenDocument host w)
                     = Returned tt) :
  let w' := snd (ServiceWorker.ensureOffscreenDocument host w) in
  ServiceWorker.ensureOffscreenDocument host w' = (Returned tt, w').
Proof.
  cbv zeta.
  assert (Hcreated : Chrome.offscreenDocumentCreated
                       (snd (ServiceWorker.ensureOffscreenDocument host w))
                     = true).
  { revert Hreturned. unfold ServiceWorker.ensureOffscreenDocument.
    rewrite run_ensure_S. cbn [ServiceWorker.advance].
    destruct (Chrome.offscreenDocumentCreated w) eqn:Hcr.
    - rewrite run_ensure_settled. intros _. exact Hcr.
    - destruct (Chrome.offscreenDocumentCreating w) eqn:Hcg.
      + rewrite run_ensure_poll_alone;
          [discriminate|exact Hcr| |]; unfold ServiceWorker.poll_limit; lia.
      + intros Hret.
        pose proof (ensure_idle_effect host w Hcg) as (_ & _ & _ & Hflags).
        unfold ServiceWorker.ensureOffscreenDocument in Hflags.
        rewrite run_ensure_S in Hflags. cbn [ServiceWorker.advance] in Hflags.
        rewrite Hcr, Hcg in Hflags. rewrite Hret in Hflags. exact Hflags. }
  unfold ServiceWorker.ensureOffscreenDocument at 1.
  rewrite run_ensure_S. cbn [ServiceWorker.advance].
  rewrite Hcreated. apply run_ensure_settled.
Qed.

(** On a host that creates the document, a second call after the first
    changes nothing. *)
Lemma provisioned_document_is_reused_witness :
  fst (ServiceWorker.ensureOffscreenDocument Hosts.creates Hosts.fresh)
    = Returned tt
  /\ ServiceWorker.ensureOffscreenDocument Hosts.creates
       (snd (ServiceWorker.ensureOffscreenDocument Hosts.creates Hosts.fresh))
     = (Returned tt,
        snd (ServiceWorker.ensureOffscreenDocument Hosts.creates Hosts.fresh)).
Proof.
  split; [vm_compute; reflexivity|].
  apply (provisioned_document_is_reused Hosts.creates Hosts.fresh).
  vm_compute. reflexivity.
Defined.

(** X10.  A call of [ensureOffscreenDocument] that finds the creating
    flag set and the document not yet there, and runs with nothing else
    resumed in between, sleeps fifty times 100 ms, asks the host nothing,
    leaves both flags as they were and throws the timeout error. *)
Theorem waiter_alone_times_out host w
        (Hcreating : Chrome.offscreenDocumentCreating w = true)
        (Hcreated : Chrome.offscreenDocumentCreated w = false) :
  let w' := Nat.iter ServiceWorker.poll_limit (Session.slept 100) w in
  ServiceWorker.ensureOffscreenDocument host w
    = (Threw ServiceWorker.timeout_error, w')
  /\ Chrome.trace w' = Chrome.trace w
                       ++ repeat (Chrome.EvSleep 100) ServiceWorker.poll_limit
  /\ Chrome.offscreenDocumentCreating w' = true
  /\ Chrome.offscreenDocumentCreated w' = false
  /\ Chrome.contexts_calls w' = Chrome.contexts_calls w
  /\ Chrome.create_calls w' = Chrome.create_calls w.
Proof.
  cbv zeta. split.
  - unfold ServiceWorker.ensureOffscreenDocument.
    rewrite run_ensure_S. cbn [ServiceWorker.advance].
    rewrite Hcreated, Hcreating.
    rewrite run_ensure_poll_alone;
      [|exact Hcreated|unfold ServiceWorker.poll_limit; lia
       |unfold ServiceWorker.poll_limit; lia].
    change (Chrome.emit (Chrome.EvSleep 100) w) with (Session.slept 100 w).
    rewrite <- Nat.iter_succ_r. reflexivity.
  - generalize ServiceWorker.poll_limit as n.
    induction n as [|n (Htrace & Hcg & Hcr & Hctx & Hcreate)].
    + cbn. rewrite app_nil_r. auto.
    + rewrite Nat.iter_succ. unfold Session.slept at 1 3 4 5 6.
      cbn [Chrome.emit Chrome.trace Chrome.offscreenDocumentCreating
           Chrome.offscreenDocumentCreated Chrome.contexts_calls
           Chrome.create_calls].
      rewrite Htrace. repeat split; auto.
      rewrite <- app_assoc. f_equal.
      change [Chrome.EvSleep 100] with (repeat (Chrome.EvSleep 100) 1).
      rewrite <- repeat_app. f_equal. lia.
Qed.

(** The second of two calls, resumed alone while the first awaits. *)
Lemma waiter_alone_times_out_witness :
  fst (ServiceWorker.ensureOffscreenDocument Hosts.creates
         (Chrome.set_creating true Hosts.fresh))
  = Threw ServiceWorker.timeout_error.
Proof.
  destruct (waiter_alone_times_out Hosts.creates
              (Chrome.set_creating true Hosts.fresh) eq_refl eq_refl)
    as [Hrun _].
  exact (f_equal fst Hrun).
Defined.

(** ** What a computation adds to the trace *)

Section Emits.
Import Chrome ServiceWorker Session Timeline.

Lemma emits_ret {A} p (a : A) : emits p (ret a).
Proof. intros w. exists []. cbn. rewrite app_nil_r. auto. Qed.

Lemma emits_throw {A} p e : emits p (@throw A e).
Proof. intros w. exists []. cbn. rewrite app_nil_r. auto. Qed.

Lemma emits_never {A} p : emits p (@never A).
Proof. intros w. exists []. cbn. rewrite app_nil_r. auto. Qed.

Lemma emits_bind {A B} p (m : Async A) (k : A -> Async B) :
  emits p m -> (forall a, emits p (k a)) -> emits p (bind m k).
Proof.
  unfold emits. intros Hm Hk w. unfold bind.
  destruct (Hm w) as (new & Htr & Hp).
  destruct (m w) as [[a|e|] w1]; cbn [snd] in *; try solve [exists new; auto].
  destruct (Hk a w1) as (new' & Htr' & Hp').
  exists (new ++ new'). rewrite Htr', Htr, app_assoc, forallb_app, Hp, Hp'.
  auto.
Qed.

Lemma emits_try_catch {A} p (m : Async A) (h : JsError -> Async A) :
  emits p m -> (forall e, emits p (h e)) -> emits p (try_catch m h).
Proof.
  unfold emits. intros Hm Hh w. unfold try_catch.
  destruct (Hm w) as (new & Htr & Hp).
  destruct (m w) as [[a|e|] w1]; cbn [snd] in *; try solve [exists new; auto].
  destruct (Hh e w1) as (new' & Htr' & Hp').
  exists (new ++ new'). rewrite Htr', Htr, app_assoc, forallb_app, Hp, Hp'.
  auto.
Qed.

Lemma emits_one {A} p (m : Async A) e :
  p e = true -> (forall w, trace (snd (m w)) = trace w ++ [e]) -> emits p m.
Proof.
  intros Hp Hm w. exists [e]. rewrite Hm. cbn. rewrite Hp. auto.
Qed.

Lemma emits_sleep p ms : p (EvSleep ms) = true -> emits p (sleep ms).
Proof. intros Hp. apply (emits_one p _ (EvSleep ms) Hp). reflexivity. Qed.

Lemma emits_console_error p text :
  p (EvConsoleError text) = true -> emits p (console_error text).
Proof. intros Hp. apply (emits_one p _ _ Hp). reflexivity. Qed.

Lemma emits_scroll p host tabId y :
  p (EvScrollTo tabId y) = true ->
  emits p (executeScript_scrollToPosition host tabId y).
Proof.
  intros Hp. apply (emits_one p _ _ Hp). intros w.
  unfold executeScript_scrollToPosition.
  destruct (scroll_reply host (scroll_calls w)); reflexivity.
Qed.

Lemma emits_captureVisibleTab p host :
  p EvCaptureVisibleTab = true -> emits p (captureVisibleTab host).
Proof. intros Hp. apply (emits_one p _ _ Hp). reflexivity. Qed.

Lemma emits_capture_with_retry host fuel : forall retries,
  emits loop_event (capture_with_retry host fuel retries).
Proof.
  induction fuel as [|fuel IH]; intros retries; cbn [capture_with_retry].
  - apply emits_never.
  - destruct (retries <? maxRetries); [|apply emits_ret].
    apply emits_try_catch; [apply emits_captureVisibleTab; reflexivity|].
    intros e. cbv zeta. destruct (retries + 1 >=? maxRetries).
    + apply emits_throw.
    + apply emits_bind; [apply emits_sleep; reflexivity|]. intros _. apply IH.
Qed.

Lemma emits_capture_section host tabId vh n i :
  emits loop_event (capture_section host tabId vh n i).
Proof.
  unfold capture_section. cbv zeta.
  apply emits_bind; [apply emits_scroll; reflexivity|]. intros _.
  apply emits_bind; [apply emits_sleep; reflexivity|]. intros _.
  apply emits_bind; [apply emits_capture_with_retry|]. intros url.
  apply emits_bind; [|intros _; apply emits_ret].
  destruct (before_last i n); [apply emits_sleep; reflexivity|apply emits_ret].
Qed.

Lemma emits_capture_sections host tabId vh n m : forall i screenshots,
  emits loop_event (capture_sections host tabId vh n m i screenshots).
Proof.
  induction m as [|m IH]; intros i screenshots; cbn [capture_sections].
  - apply emits_ret.
  - apply emits_bind; [apply emits_capture_section|]. intros shot. apply IH.
Qed.

Lemma emits_capture_all_sections host tabId vh n :
  emits loop_event (capture_all_sections host tabId vh n).
Proof.
  unfold capture_all_sections. destruct n as [n|].
  - apply emits_capture_sections.
  - apply emits_bind; [apply emits_capture_sections|].
    intros _. apply emits_never.
Qed.

(** One run of a call between two suspension points. *)
Lemma advance_idle host pc w :
  exists new,
    trace (snd (advance host pc w)) = trace w ++ new
    /\ forallb idle_event new = true.
Proof.
  assert (Hnone : forall w0 : World,
             exists new, trace w0 = trace w0 ++ new
                         /\ forallb idle_event new = true).
  { intros w0. exists []. rewrite app_nil_r. auto. }
  assert (Hone : forall (w0 : World) e,
             idle_event e = true ->
             exists new, trace w0 ++ [e] = trace w0 ++ new
                         /\ forallb idle_event new = true).
  { intros w0 e He. exists [e]. cbn. rewrite He. auto. }
  assert (Hcatch : forall error w0,
             exists new,
               trace (snd (ensure_catch error w0)) = trace w0 ++ new
               /\ forallb idle_event new = true).
  { intros error w0. unfold ensure_catch.
    destruct (includes _ _); cbn; [apply Hnone|apply Hone; reflexivity]. }
  destruct pc as [|i|k|k|r]; cbn [advance].
  - destruct (offscreenDocumentCreated w);
      [|destruct (offscreenDocumentCreating w)]; cbn;
      [apply Hnone|apply Hone; reflexivity|apply Hone; reflexivity].
  - destruct (offscreenDocumentCreated w);
      [|destruct (Nat.ltb (S i) poll_limit)]; cbn;
      [apply Hnone|apply Hone; reflexivity|apply Hnone].
  - destruct (contexts_reply host k) as [error|len]; [apply Hcatch|].
    destruct (Nat.ltb 0 len); cbn; [apply Hnone|apply Hone; reflexivity].
  - destruct (create_reply host k) as [error|]; [apply Hcatch|].
    cbn. apply Hnone.
  - cbn. apply Hnone.
Qed.

Lemma emits_run_ensure host fuel : forall pc,
  emits idle_event (run_ensure host fuel pc).
Proof.
  unfold emits.
  induction fuel as [|fuel IH]; intros pc w.
  - destruct pc; exists []; cbn; rewrite app_nil_r; auto.
  - assert (Hstep : forall pc0,
               exists new,
                 trace (snd (let (pc', w') := advance host pc0 w in
                             run_ensure host fuel pc' w'))
                 = trace w ++ new
                 /\ forallb idle_event new = true).
    { intros pc0.
      destruct (advance_idle host pc0 w) as (new & Htr & Hp).
      destruct (advance host pc0 w) as [pc' w1]. cbn [snd] in *.
      destruct (IH pc' w1) as (new' & Htr' & Hp').
      exists (new ++ new').
      rewrite Htr', Htr, app_assoc, forallb_app, Hp, Hp'. auto. }
    rewrite run_ensure_S. destruct pc; try apply Hstep.
    exists []. cbn. rewrite app_nil_r. auto.
Qed.

Lemma emits_ensure host : emits idle_event (ensureOffscreenDocument host).
Proof. apply emits_run_ensure. Qed.

Lemma idle_no_captures new :
  forallb idle_event new = true ->
  captures new = 0%nat /\ stitch_requests new = [].
Proof.
  induction new as [|e new IH]; [auto|].
  cbn [forallb]. intros H. apply andb_prop in H. destruct H as [He Hnew].
  destruct (IH Hnew) as [Hc Hs]. destruct e; cbn in *; try discriminate; auto.
Qed.

Lemma loop_no_requests new :
  forallb loop_event new = true -> stitch_requests new = [].
Proof.
  induction new as [|e new IH]; [auto|].
  cbn [forallb]. intros H. apply andb_prop in H. destruct H as [He Hnew].
  destruct e; cbn in *; try discriminate; auto.
Qed.

Lemma stitch_requests_app a b :
  stitch_requests (a ++ b) = stitch_requests a ++ stitch_requests b.
Proof.
  induction a as [|[] a IH]; cbn [app stitch_requests]; rewrite ?IH; reflexivity.
Qed.

Lemma pace_no_captures quota new : forall since,
  captures new = 0%nat -> exists last, pace quota since new = Some last.
Proof.
  induction new as [|e new IH]; intros since Hc; [eexists; reflexivity|].
  destruct e; cbn in *; try discriminate; apply IH; exact Hc.
Qed.

End Emits.

(** ** What a session sends to the compositor, and when it captures *)

Section SessionTrace.
Import Chrome ServiceWorker Session Timeline.
Variable host : Host.
Variable tabId : nat.

(** The request adds no capture, and at most the one message. *)
Lemma stitch_trace screenshots wd totalHeight w :
  exists new,
    trace (snd (stitchScreenshots host screenshots wd totalHeight w))
      = trace w ++ new
    /\ captures new = 0%nat
    /\ (stitch_requests new = []
        \/ stitch_requests new = [(screenshots, wd, totalHeight)]).
Proof.
  destruct (emits_ensure host w) as (l1 & Htr1 & Hidle).
  destruct (idle_no_captures l1 Hidle) as [Hc1 Hs1].
  assert (Hshape : forall tail,
             captures tail = 0%nat ->
             (stitch_requests tail = []
              \/ stitch_requests tail = [(screenshots, wd, totalHeight)]) ->
             captures (l1 ++ tail) = 0%nat
             /\ (stitch_requests (l1 ++ tail) = []
                 \/ stitch_requests (l1 ++ tail)
                    = [(screenshots, wd, totalHeight)])).
  { intros tail Hc Hs. rewrite captures_app, stitch_requests_app, Hc1, Hs1.
    auto. }
  unfold stitchScreenshots, try_catch. unfold bind at 1.
  destruct (ensureOffscreenDocument host w) as [[[]|e|] w1]; cbn [snd] in *.
  - unfold bind, sendMessage_stitchScreenshots.
    destruct (port_reply host);
      [destruct (Offscreen.onMessage _ _ _ _) as [[url|error]|]| |];
      cbn [snd trace emit console_error throw ret fst];
      rewrite Htr1, <- ?app_assoc;
      (eexists; split; [reflexivity|]); apply Hshape; cbn; auto.
  - cbn [snd trace emit console_error throw bind]. rewrite Htr1, <- app_assoc.
    eexists. split; [reflexivity|]. apply Hshape; cbn; auto.
  - exists l1. split; [exact Htr1|]. split; [exact Hc1|left; exact Hs1].
Qed.

(** After capturing and composing, a session only restores and logs. *)
Lemma session_tail d w :
  exists tail,
    trace (snd (captureFullPageWithScrolling host tabId d w))
      = trace (snd (capture_and_compose host tabId d w)) ++ tail
    /\ forallb idle_event tail = true.
Proof.
  rewrite session_eq.
  destruct (capture_and_compose host tabId d w) as [[url|e|] w1]; cbn [snd].
  - destruct (scroll_reply host (scroll_calls w1)).
    + rewrite restore_and_rethrow_eq. cbn [snd].
      destruct (scroll_reply host _);
        cbn [trace emit scrolled scroll_rejected set_scrollY count_scroll];
        rewrite <- ?app_assoc; (eexists; split; [reflexivity|reflexivity]).
    + cbn [trace emit scrolled set_scrollY count_scroll].
      eexists; split; reflexivity.
  - rewrite restore_and_rethrow_eq. cbn [snd].
    destruct (scroll_reply host _);
      cbn [trace emit scrolled scroll_rejected set_scrollY count_scroll];
      rewrite <- ?app_assoc; (eexists; split; [reflexivity|reflexivity]).
  - exists []. rewrite app_nil_r. auto.
Qed.

(** Capturing and composing: the loop, then the request. *)
Lemma compose_trace d w :
  exists loop request,
    trace (snd (capture_and_compose host tabId d w)) = trace w ++ loop ++ request
    /\ trace (snd (capture_all_sections host tabId (viewportHeight d)
                     (Math_ceil_div (fullHeight d) (viewportHeight d)) w))
       = trace w ++ loop
    /\ forallb loop_event loop = true
    /\ captures request = 0%nat
    /\ (stitch_requests request = []
        \/ exists screenshots,
            fst (capture_all_sections host tabId (viewportHeight d)
                   (Math_ceil_div (fullHeight d) (viewportHeight d)) w)
            = Returned screenshots
            /\ stitch_requests request
               = [(screenshots, viewportWidth d, fullHeight d)]).
Proof.
  destruct (emits_capture_all_sections host tabId (viewportHeight d)
              (Math_ceil_div (fullHeight d) (viewportHeight d)) w)
    as (loop & Htr & Hloop).
  unfold capture_and_compose, bind.
  destruct (capture_all_sections _ _ _ _ w) as [[screenshots|e|] w1];
    cbn [fst snd] in *.
  - destruct (stitch_trace screenshots (viewportWidth d) (fullHeight d) w1)
      as (request & Htr' & Hc & Hs).
    exists loop, request. rewrite Htr', Htr, app_assoc.
    repeat split; auto.
    destruct Hs as [Hs|Hs]; [left; exact Hs|right].
    exists screenshots. auto.
  - exists loop, []. rewrite app_nil_r. repeat split; auto.
  - exists loop, []. rewrite app_nil_r. repeat split; auto.
Qed.

End SessionTrace.

(** X5.  A multi-tile session sends at most one stitch message to the
    offscreen document, and only once the loop has captured every
    section: the message carries the viewport width, the full height and
    one tile per section, made in order of the images of the successful
    capture calls. *)
Theorem session_sends_every_tile_once host tabId d w
        (Hviewport : 0 < Chrome.viewportHeight d) :
  exists new,
    Chrome.trace (snd (ServiceWorker.captureFullPageWithScrolling host tabId d w))
      = Chrome.trace w ++ new
    /\ (Timeline.stitch_requests new = []
        \/ exists calls,
            List.length (Timeline.successes host (Chrome.capture_calls w) calls)
              = Session.sections d
            /\ Timeline.stitch_requests new
               = [(Timeline.tiles_from (Chrome.viewportHeight d) 0
                     (Timeline.successes host (Chrome.capture_calls w) calls),
                   Chrome.viewportWidth d, Chrome.fullHeight d)]).
Proof.
  destruct (session_tail host tabId d w) as (tail & Htail & Hidle).
  destruct (compose_trace host tabId d w)
    as (loop & request & Htr & _ & Hloop & _ & Hreq).
  destruct (idle_no_captures tail Hidle) as [_ Hnone].
  exists (loop ++ request ++ tail).
  rewrite Htail, Htr, <- !app_assoc. split; [reflexivity|].
  rewrite !stitch_requests_app, (loop_no_requests loop Hloop), Hnone, app_nil_r.
  cbn [app].
  destruct Hreq as [Hreq|(screenshots & Hrun & Hreq)]; [left; exact Hreq|right].
  rewrite (Math_ceil_div_bounded _ _ Hviewport) in Hrun.
  unfold ServiceWorker.capture_all_sections in Hrun.
  destruct (ServiceWorker.capture_sections host tabId (Chrome.viewportHeight d)
              (ServiceWorker.Bounded (- (- Chrome.fullHeight d / Chrome.viewportHeight d)))
              (Z.to_nat (- (- Chrome.fullHeight d / Chrome.viewportHeight d)))
              0 [] w) as [o w1] eqn:Hsections.
  cbn [fst] in Hrun. subst o.
  destruct (capture_sections_tiles _ _ _ _ _ _ _ _ _ _ Hsections)
    as (calls & _ & Hlen & Hshots).
  exists calls. split; [exact Hlen|]. rewrite Hreq, Hshots. reflexivity.
Qed.

(** A session of three tiles on a host that refuses nothing. *)
Lemma session_sends_every_tile_once_witness :
  exists new,
    Chrome.trace
      (snd (ServiceWorker.captureFullPageWithScrolling Hosts.quiet 7
              Hosts.tall_page Hosts.fresh))
      = Chrome.trace Hosts.fresh ++ new
    /\ (Timeline.stitch_requests new = []
        \/ exists calls,
            List.length
              (Timeline.successes Hosts.quiet
                 (Chrome.capture_calls Hosts.fresh) calls)
              = Session.sections Hosts.tall_page
            /\ Timeline.stitch_requests new
               = [(Timeline.tiles_from (Chrome.viewportHeight Hosts.tall_page) 0
                     (Timeline.successes Hosts.quiet
                        (Chrome.capture_calls Hosts.fresh) calls),
                   Chrome.viewportWidth Hosts.tall_page,
                   Chrome.fullHeight Hosts.tall_page)]).
Proof.
  apply (session_sends_every_tile_once Hosts.quiet 7 Hosts.tall_page Hosts.fresh).
  reflexivity.
Defined.

(** X1.  Whatever the host replies, any two consecutive calls of the
    capture primitive made while a [captureScreenshot] request is handled
    are separated by at least 1000 ms of sleep. *)
Theorem handler_keeps_pace host tabId w :
  exists new last,
    Chrome.trace (snd (ServiceWorker.handleCaptureScreenshot host tabId w))
      = Chrome.trace w ++ new
    /\ Timeline.pace 1000 None new = Some last.
Proof.
  assert (Hkeep : forall (w1 : Chrome.World) new,
             Chrome.trace w1 = Chrome.trace w ++ new ->
             (exists last, Timeline.pace 1000 None new = Some last) ->
             exists new' last,
               Chrome.trace w1 = Chrome.trace w ++ new'
               /\ Timeline.pace 1000 None new' = Some last).
  { intros w1 new Htr (last & Hpace). exists new, last. auto. }
  assert (Hlog : forall (w1 : Chrome.World) new,
             Chrome.trace w1 = Chrome.trace w ++ new ->
             (exists last, Timeline.pace 1000 None new = Some last) ->
             forall text,
             exists new' last,
               Chrome.trace (Chrome.emit (Chrome.EvConsoleError text) w1)
               = Chrome.trace w ++ new'
               /\ Timeline.pace 1000 None new' = Some last).
  { intros w1 new Htr (last & Hpace) text.
    exists (new ++ [Chrome.EvConsoleError text]), last.
    cbn [Chrome.trace Chrome.emit]. rewrite Htr, app_assoc. split; [reflexivity|].
    rewrite pace_app, Hpace. reflexivity. }
  unfold ServiceWorker.handleCaptureScreenshot, Chrome.try_catch, Chrome.bind,
    ServiceWorker.capture_pipeline, Chrome.bind,
    Chrome.executeScript_getPageDimensions, Chrome.ret, Chrome.throw,
    Chrome.console_error.
  set (w0 := Chrome.emit (Chrome.EvGetPageDimensions tabId) w).
  assert (Hw0 : Chrome.trace w0 = Chrome.trace w ++ [Chrome.EvGetPageDimensions tabId])
    by reflexivity.
  assert (Hprobe : exists last,
             Timeline.pace 1000 None [Chrome.EvGetPageDimensions tabId] = Some last)
    by (eexists; reflexivity).
  destruct (Chrome.probe_reply host) as [e| |d]; cbn [snd].
  - apply (Hlog w0 _ Hw0 Hprobe).
  - apply (Hlog w0 _ Hw0 Hprobe).
  - destruct (Chrome.fullHeight d <=? Chrome.viewportHeight d).
    + unfold ServiceWorker.captureSingleScreenshot, Chrome.call_captureVisibleTab.
      set (w1 := Chrome.emit Chrome.EvCaptureVisibleTab (Chrome.count_capture w0)).
      assert (Hw1 : Chrome.trace w1
                    = Chrome.trace w ++ [Chrome.EvGetPageDimensions tabId;
                                         Chrome.EvCaptureVisibleTab])
        by (cbn; rewrite <- app_assoc; reflexivity).
      assert (Hpace1 : exists last,
                 Timeline.pace 1000 None [Chrome.EvGetPageDimensions tabId;
                                          Chrome.EvCaptureVisibleTab] = Some last)
        by (eexists; reflexivity).
      destruct (Chrome.latency _ <? 5000);
        [destruct (Chrome.image _)|]; cbn [Chrome.settled snd];
        first [apply (Hkeep w1 _ Hw1 Hpace1) | apply (Hlog w1 _ Hw1 Hpace1)].
    + destruct (session_tail host tabId d w0) as (tail & Htail & Hidle).
      destruct (compose_trace host tabId d w0)
        as (loop & request & Htr & Hlooptr & _ & Hcreq & _).
      destruct (capture_all_sections_paced host tabId (Chrome.viewportHeight d)
                  (Chrome.fullHeight d) w0) as (loop' & last & Hlooptr' & Hpace).
      rewrite Hlooptr in Hlooptr'. apply app_inv_head in Hlooptr'. subst loop'.
      destruct (idle_no_captures tail Hidle) as [Hctail _].
      assert (Hrest : Session.captures (request ++ tail) = 0%nat)
        by (rewrite captures_app, Hcreq, Hctail; reflexivity).
      destruct (pace_no_captures 1000 _ last Hrest) as (last' & Hpace').
      assert (Hsession :
                Chrome.trace
                  (snd (ServiceWorker.captureFullPageWithScrolling host tabId d w0))
                = Chrome.trace w
                  ++ Chrome.EvGetPageDimensions tabId :: loop ++ request ++ tail).
      { rewrite Htail, Htr, Hw0, <- !app_assoc. reflexivity. }
      assert (Hpaced : exists l,
                 Timeline.pace 1000 None
                   (Chrome.EvGetPageDimensions tabId :: loop ++ request ++ tail)
                 = Some l).
      { exists last'. cbn [Timeline.pace]. rewrite pace_app, Hpace. exact Hpace'. }
      destruct (ServiceWorker.captureFullPageWithScrolling host tabId d w0)
        as [[url|e|] w1]; cbn [snd] in *;
        first [apply (Hkeep w1 _ Hsession Hpaced)
              | apply (Hlog w1 _ Hsession Hpaced)].
Qed.

(** ** The time a loop sleeps *)

Section SleepFacts.
Import Chrome ServiceWorker Session Timeline.
Variable host : Host.
Variable tabId : nat.
Variable viewportHeight : Z.

Lemma slept_ms_app a b : slept_ms (a ++ b) = slept_ms a + slept_ms b.
Proof.
  induction a as [|e a IH]; [reflexivity|].
  destruct e; cbn [app slept_ms]; rewrite IH; lia.
Qed.

Lemma slept_ms_section n i failed :
  (failed <= 2)%nat ->
  let rest := if before_last i n then 1100 else 0 in
  500 + rest <= slept_ms (section_events tabId viewportHeight n i failed)
             <= 3500 + rest.
Proof.
  intros Hfailed. cbv zeta. unfold section_events.
  rewrite !slept_ms_app.
  assert (Hretry : 0 <= slept_ms (retry_events failed) <= 3000).
  { destruct failed as [|[|[|failed]]]; cbn; lia. }
  destruct (before_last i n); cbn [slept_ms]; lia.
Qed.

Lemma capture_sections_slept n m : forall i screenshots w screenshots' w',
  Z.of_nat (i + m) = n ->
  capture_sections host tabId viewportHeight (Bounded n) m i screenshots w
    = (Returned screenshots', w') ->
  exists new,
    trace w' = trace w ++ new
    /\ (m = 0%nat -> new = [])
    /\ (m <> 0%nat ->
        1600 * Z.of_nat m - 1100 <= slept_ms new <= 4600 * Z.of_nat m - 1100).
Proof.
  induction m as [|m IH]; intros i screenshots w screenshots' w' Hn Hrun.
  - cbn in Hrun. injection Hrun as <- <-. exists [].
    rewrite app_nil_r. repeat split; congruence.
  - cbn [capture_sections] in Hrun. unfold bind in Hrun.
    destruct (capture_section _ _ _ _ _ _) as [[shot|e|] w1] eqn:Hsec;
      try discriminate.
    destruct (capture_section_returned _ _ _ _ _ _ _ _ Hsec)
      as (failed & Hle & Htr & _).
    destruct (IH (S i) _ _ _ _ ltac:(lia) Hrun) as (new & Htr' & Hnone & Hsome).
    pose proof (slept_ms_section (Bounded n) i failed Hle) as Hsection.
    cbv zeta in Hsection. unfold before_last in Hsection.
    exists (section_events tabId viewportHeight (Bounded n) i failed ++ new).
    split; [rewrite Htr', Htr, app_assoc; reflexivity|].
    split; [discriminate|]. intros _. rewrite slept_ms_app.
    destruct m as [|m].
    + rewrite (Hnone eq_refl). cbn [slept_ms].
      destruct (Z.ltb_spec (Z.of_nat i) (n - 1)); lia.
    + specialize (Hsome ltac:(discriminate)).
      destruct (Z.ltb_spec (Z.of_nat i) (n - 1)); lia.
Qed.

End SleepFacts.

(** X16.  A capture loop over [n] sections that runs to its end has slept
    at least [1600 n - 1100] ms (500 after each scroll, 1100 between
    sections) and at most [4600 n - 1100] ms (with two retries, of 1000
    and 2000 ms, in every section). *)
Theorem loop_sleeps_between host tabId viewportHeight n w screenshots w'
        (Hsections : 0 < n)
        (Hruns : ServiceWorker.capture_all_sections host tabId viewportHeight
                   (ServiceWorker.Bounded n) w
                 = (Returned screenshots, w')) :
  exists new,
    Chrome.trace w' = Chrome.trace w ++ new
    /\ 1600 * n - 1100 <= Timeline.slept_ms new <= 4600 * n - 1100.
Proof.
  unfold ServiceWorker.capture_all_sections in Hruns.
  destruct (capture_sections_slept host tabId viewportHeight n (Z.to_nat n)
              0 [] w screenshots w' ltac:(lia) Hruns)
    as (new & Htrace & _ & Hsome).
  exists new. split; [exact Htrace|].
  specialize (Hsome ltac:(lia)). lia.
Qed.

(** Three sections without a retry: 3700 ms. *)
Lemma loop_sleeps_between_witness :
  exists new,
    Chrome.trace
      (snd (ServiceWorker.capture_all_sections Hosts.quiet 7 600
              (ServiceWorker.Bounded 3) Hosts.fresh))
    = Chrome.trace Hosts.fresh ++ new
    /\ 1600 * 3 - 1100 <= Timeline.slept_ms new <= 4600 * 3 - 1100.
Proof.
  apply (loop_sleeps_between Hosts.quiet 7 600 3 Hosts.fresh
           (match fst (ServiceWorker.capture_all_sections Hosts.quiet 7 600
                         (ServiceWorker.Bounded 3) Hosts.fresh)
            with Returned s => s | _ => [] end)).
  - lia.
  - vm_compute. reflexivity.
Defined.

(* ------------------------------------------------------------------ *)
(** * Further properties of the offscreen compositor *)

Section StackFacts.
Import Offscreen Slots Stack.
Variable env : Decoder.
Variable screenshots : list Screenshot.
Variable w : Z.

Lemma stacked_snoc ds : forall y d,
  stacked y (ds ++ [d])
  = stacked y ds && (dy d =? y + drawn_height ds).
Proof.
  unfold drawn_height.
  induction ds as [|x ds IH]; intros y d; cbn [app stacked map fold_right].
  - rewrite Z.add_0_r, andb_true_r. reflexivity.
  - rewrite IH, <- andb_assoc. do 2 f_equal. lia.
Qed.

Lemma drawn_height_snoc ds d :
  drawn_height (ds ++ [d]) = drawn_height ds + dh d.
Proof.
  unfold drawn_height. induction ds as [|x ds IH]; cbn; [lia|].
  cbn in IH. rewrite IH. lia.
Qed.

(** The event of an image that loads, by what it changes. *)
Lemma fire_loaded s k screenshot h :
  nth_error screenshots k = Some screenshot ->
  decode_reply env (dataUrl screenshot) = Some h ->
  let d := {| src := dataUrl screenshot; tile := k;
              dy := currentY s; dw := w; dh := h |} in
  let s' := fire env screenshots w s k in
  canvas s' = drawImage d (canvas s)
  /\ currentY s' = currentY s + h
  /\ loadedCount s' = S (loadedCount s)
  /\ promise s'
     = match promise s with
       | Pending =>
           if Nat.eqb (S (loadedCount s)) (List.length screenshots)
           then encoded env (drawImage d (canvas s))
           else Pending
       | settled => settled
       end.
Proof.
  intros Hnth Hdec. cbv zeta. unfold fire. rewrite Hnth, Hdec.
  unfold onload, encoded. cbn [loadedCount].
  destruct (Nat.eqb (S (loadedCount s)) (List.length screenshots)).
  - destruct (toDataURL env _); unfold settle; cbn [promise];
      destruct (promise s); cbn; auto.
  - cbn. destruct (promise s); auto.
Qed.

(** Loading keeps the canvas tidy. *)
Lemma fire_tidy s k :
  loads env screenshots k = true ->
  tidy env screenshots s ->
  tidy env screenshots (fire env screenshots w s k)
  /\ map tile (draws (canvas (fire env screenshots w s k)))
     = map tile (draws (canvas s)) ++ [k].
Proof.
  unfold loads. intros Hk (Hst & Hy & Hdh).
  destruct (nth_error screenshots k) as [shot|] eqn:Hnth; [|discriminate].
  destruct (decode_reply env (dataUrl shot)) as [h|] eqn:Hdec; [|discriminate].
  destruct (fire_loaded s k shot h Hnth Hdec) as (Hc & Hy' & _ & _).
  unfold tidy. rewrite Hc, Hy'. unfold drawImage. cbn [draws].
  rewrite stacked_snoc, drawn_height_snoc, !map_app, Hst, Hdh, Hy.
  cbn [dy dh tile map andb]. repeat split.
  - apply Z.eqb_eq. lia.
  - unfold height_at, img_height. rewrite Hnth, Hdec. reflexivity.
Qed.

(** While fewer images than all have loaded, the promise stays pending
    and the canvas tidy. *)
Lemma fold_fire_loading order : forall s,
  (forall k, In k order -> loads env screenshots k = true) ->
  promise s = Pending ->
  (loadedCount s + List.length order < List.length screenshots)%nat ->
  tidy env screenshots s ->
  let s' := fold_left (fire env screenshots w) order s in
  promise s' = Pending
  /\ loadedCount s' = (loadedCount s + List.length order)%nat
  /\ tidy env screenshots s'
  /\ map tile (draws (canvas s')) = map tile (draws (canvas s)) ++ order.
Proof.
  induction order as [|k order IH]; intros s Hall Hpend Hlt Htidy; cbv zeta.
  - cbn. rewrite app_nil_r, Nat.add_0_r. auto.
  - cbn [fold_left List.length] in *.
    assert (Hk : loads env screenshots k = true) by (apply Hall; left; reflexivity).
    destruct (fire_tidy s k Hk Htidy) as [Htidy' Htiles].
    pose proof Hk as Hk'. unfold loads in Hk'.
    destruct (nth_error screenshots k) as [shot|] eqn:Hnth; [|discriminate].
    destruct (decode_reply env (dataUrl shot)) as [h|] eqn:Hdec; [|discriminate].
    destruct (fire_loaded s k shot h Hnth Hdec) as (_ & _ & Hcount & Hprom).
    rewrite Hpend in Hprom.
    destruct (Nat.eqb_spec (S (loadedCount s)) (List.length screenshots)); [lia|].
    destruct (IH (fire env screenshots w s k)) as (Hp & Hc & Ht & Hm).
    + intros j Hj. apply Hall. right. exact Hj.
    + exact Hprom.
    + rewrite Hcount. lia.
    + exact Htidy'.
    + split; [exact Hp|]. split; [rewrite Hc, Hcount; lia|].
      split; [exact Ht|]. rewrite Hm, Htiles, <- app_assoc. reflexivity.
Qed.

Lemma sum_permutation (f : nat -> Z) l l' :
  Permutation l l' ->
  fold_right Z.add 0 (map f l) = fold_right Z.add 0 (map f l').
Proof.
  induction 1; cbn; lia.
Qed.

Lemma heights_of_all : 
  fold_right Z.add 0
    (map (height_at env screenshots) (seq 0 (List.length screenshots)))
  = slot env screenshots (List.length screenshots).
Proof.
  unfold slot. rewrite firstn_all.
  assert (H : forall l i (all : list Screenshot),
             (forall j, nth_error l j = nth_error all (i + j)) ->
             map (height_at env all) (seq i (List.length l))
             = map (img_height env) l).
  { induction l as [|x l IH]; intros i all Hl; [reflexivity|].
    cbn [List.length seq map]. f_equal.
    - unfold height_at. rewrite <- (Nat.add_0_r i), <- Hl. reflexivity.
    - apply IH. intros j.
      replace (S i + j)%nat with (i + S j)%nat by lia. apply (Hl (S j)). }
  rewrite (H screenshots 0%nat screenshots); [reflexivity|].
  intros j. reflexivity.
Qed.

End StackFacts.

(** X6.  When every image decodes and fires its event once, in whatever
    order, the composition settles at the last event with the encoding of
    a canvas on which every tile is drawn once, in the order of the
    events, each draw beginning where the one before ended, the first at
    0, over as many rows as the decoded heights of all tiles sum to. *)
Theorem stitch_stacks_tiles_in_any_order env screenshots w totalHeight
        (Hsome : screenshots <> [])
        (Hfire_once : Permutation (Offscreen.decode_order env)
                                  (seq 0 (List.length screenshots)))
        (Hdecode : forall k, (k < List.length screenshots)%nat ->
                             Slots.loads env screenshots k = true) :
  let s := Offscreen.stitch env screenshots w totalHeight in
  Offscreen.promise s = Stack.encoded env (Offscreen.canvas s)
  /\ map Offscreen.tile (Offscreen.draws (Offscreen.canvas s))
     = Offscreen.decode_order env
  /\ Stack.stacked 0 (Offscreen.draws (Offscreen.canvas s)) = true
  /\ Stack.drawn_height (Offscreen.draws (Offscreen.canvas s))
     = Slots.slot env screenshots (List.length screenshots).
Proof.
  cbv zeta. unfold Offscreen.stitch.
  assert (Hlen : List.length (Offscreen.decode_order env)
                 = List.length screenshots).
  { rewrite (Permutation_length Hfire_once). apply length_seq. }
  assert (Hin : forall k, In k (Offscreen.decode_order env) ->
                          Slots.loads env screenshots k = true).
  { intros k Hk. apply Hdecode.
    apply (Permutation_in _ Hfire_once) in Hk. apply in_seq in Hk. lia. }
  destruct (Offscreen.decode_order env) as [|k0 rest] eqn:Horder.
  { destruct screenshots; [congruence|discriminate]. }
  destruct (@exists_last _ (k0 :: rest)) as (before & k & Hsplit);
    [discriminate|].
  rewrite Hsplit in *. rewrite length_app in Hlen. cbn in Hlen.
  rewrite fold_left_app. cbn [fold_left].
  set (s0 := Offscreen.start w totalHeight).
  assert (Htidy0 : Stack.tidy env screenshots s0) by (repeat split).
  destruct (fold_fire_loading env screenshots w before s0) as (Hp & Hc & Ht & Hm);
    [intros j Hj; apply Hin; apply in_or_app; left; exact Hj
    |reflexivity|cbn; lia|exact Htidy0|].
  set (s1 := fold_left (Offscreen.fire env screenshots w) before s0) in *.
  assert (Hk : Slots.loads env screenshots k = true)
    by (apply Hin; apply in_or_app; right; left; reflexivity).
  destruct (fire_tidy env screenshots w s1 k Hk Ht) as [(Hst & Hy & Hdh) Htiles].
  pose proof Hk as Hk'. unfold Slots.loads in Hk'.
  destruct (nth_error screenshots k) as [shot|] eqn:Hnth; [|discriminate].
  destruct (Offscreen.decode_reply env (dataUrl shot)) as [h|] eqn:Hdec;
    [|discriminate].
  destruct (fire_loaded env screenshots w s1 k shot h Hnth Hdec)
    as (Hcanvas & _ & _ & Hprom).
  rewrite Hp, Hc in Hprom. cbn [Offscreen.loadedCount s0 Offscreen.start] in Hprom.
  replace (S (0 + List.length before)) with (List.length screenshots) in Hprom
    by lia.
  rewrite Nat.eqb_refl in Hprom.
  split; [rewrite Hprom, Hcanvas; reflexivity|].
  split; [rewrite Htiles, Hm; reflexivity|].
  split; [exact Hst|].
  unfold Stack.drawn_height. rewrite Hdh, Htiles, Hm. cbn [app].
  rewrite (sum_permutation _ _ _ Hfire_once).
  apply heights_of_all.
Qed.

(** Two tiles of 600 rows, the second decoded first. *)
Lemma stitch_stacks_tiles_in_any_order_witness :
  let s := Offscreen.stitch Tiles.second_first [Tiles.tile_a; Tiles.tile_b]
                            800 1200 in
  Offscreen.promise s = Stack.encoded Tiles.second_first (Offscreen.canvas s)
  /\ map Offscreen.tile (Offscreen.draws (Offscreen.canvas s))
     = Offscreen.decode_order Tiles.second_first
  /\ Stack.stacked 0 (Offscreen.draws (Offscreen.canvas s)) = true
  /\ Stack.drawn_height (Offscreen.draws (Offscreen.canvas s))
     = Slots.slot Tiles.second_first [Tiles.tile_a; Tiles.tile_b] 2.
Proof.
  apply (stitch_stacks_tiles_in_any_order Tiles.second_first
           [Tiles.tile_a; Tiles.tile_b] 800 1200).
  - discriminate.
  - apply perm_swap.
  - intros [|[|k]] Hk; [reflexivity|reflexivity|cbn in Hk; lia].
Defined.

(** X7.  With no tile at all, no event of the decoder settles the
    composition: the offscreen listener never answers, and the service
    worker's request, once the document is provisioned and the port
    delivers, never settles either. *)
Theorem empty_tile_list_never_settles host wd totalHeight w :
  Offscreen.stitchScreenshots (Chrome.decoder host) [] wd totalHeight = Pending
  /\ Offscreen.onMessage (Chrome.decoder host) [] wd totalHeight = None
  /\ fst (ServiceWorker.stitchScreenshots host [] wd totalHeight w)
     = match fst (ServiceWorker.ensureOffscreenDocument host w) with
       | Returned _ =>
           match Chrome.port_reply host with
           | Chrome.PortDelivers => Pending
           | Chrome.PortSilent => Threw (Error "Failed to stitch screenshots")
           | Chrome.PortRejects e => Threw e
           end
       | Threw e => Threw e
       | Pending => Pending
       end.
Proof.
  assert (Hstitch : Offscreen.stitchScreenshots (Chrome.decoder host) []
                      wd totalHeight = Pending).
  { assert (H : forall order s,
               fold_left (Offscreen.fire (Chrome.decoder host) [] wd) order s = s).
    { induction order as [|k order IH]; intros s; [reflexivity|].
      cbn [fold_left]. unfold Offscreen.fire at 2.
      destruct k; cbn [nth_error]; apply IH. }
    unfold Offscreen.stitchScreenshots, Offscreen.stitch. rewrite H.
    reflexivity. }
  assert (Hmsg : Offscreen.onMessage (Chrome.decoder host) [] wd totalHeight = None).
  { unfold Offscreen.onMessage. rewrite Hstitch. reflexivity. }
  split; [exact Hstitch|]. split; [exact Hmsg|].
  rewrite stitchScreenshots_eq, Hmsg. reflexivity.
Qed.

(* ------------------------------------------------------------------ *)
(** * The page and its sections *)

Section PageFacts.
Import Chrome ServiceWorker Session Page.

Lemma capture_section_scrolls host tabId vh n i w screenshot w' :
  capture_section host tabId vh n i w = (Returned screenshot, w') ->
  window_scrollY w' = window_scrollTo host (Z.of_nat i * vh).
Proof.
  rewrite capture_section_eq. cbv zeta.
  destruct (scroll_reply host (scroll_calls w)); [discriminate|].
  rewrite capture_with_retry_cases.
  destruct (attempt host _ 0);
    [destruct (attempt host _ 1); [cbv zeta; destruct (attempt host _ 2)|]|];
    try discriminate;
    destruct (before_last i n); intros [= <- <-]; reflexivity.
Qed.

(** After a loop of at least one round, the page is where the request of
    the last round left it. *)
Lemma capture_sections_scrolls host tabId vh n m : forall i screenshots w
    screenshots' w',
  capture_sections host tabId vh n (S m) i screenshots w
    = (Returned screenshots', w') ->
  window_scrollY w' = window_scrollTo host (Z.of_nat (i + m) * vh).
Proof.
  induction m as [|m IH]; intros i screenshots w screenshots' w' Hrun;
    cbn [capture_sections] in Hrun; unfold bind in Hrun;
    destruct (capture_section host tabId vh n i w) as [[shot|e|] w1] eqn:Hsec;
    try discriminate.
  - cbn in Hrun. injection Hrun as <- <-. rewrite Nat.add_0_r.
    eapply capture_section_scrolls. exact Hsec.
  - replace (i + S m)%nat with (S i + m)%nat by lia.
    eapply IH. cbn [capture_sections]. exact Hrun.
Qed.

End PageFacts.

(** X8.  [getPageDimensions] reports as full height the largest of the
    five measurements it reads, so that the handler takes the
    single-capture path exactly when none of the five exceeds the height
    of the window. *)
Theorem full_height_is_the_largest_measure doc :
  let d := Page.getPageDimensions doc in
  In (Chrome.fullHeight d) (Page.measures doc)
  /\ Forall (fun m => m <= Chrome.fullHeight d) (Page.measures doc)
  /\ (Chrome.fullHeight d <=? Chrome.viewportHeight d)
     = forallb (fun m => m <=? Page.innerHeight doc) (Page.measures doc).
Proof.
  cbv zeta. unfold Page.getPageDimensions, Page.measures.
  cbn [Chrome.fullHeight Chrome.viewportHeight].
  set (a := Page.body_scrollHeight doc). set (b := Page.body_offsetHeight doc).
  set (c := Page.html_clientHeight doc). set (e := Page.html_scrollHeight doc).
  set (f := Page.html_offsetHeight doc). set (vh := Page.innerHeight doc).
  split; [|split].
  - cbn [In]. lia.
  - repeat constructor; lia.
  - cbn [forallb]. rewrite andb_true_r.
    destruct (Z.leb_spec a vh), (Z.leb_spec b vh), (Z.leb_spec c vh),
      (Z.leb_spec e vh), (Z.leb_spec f vh); cbn;
      first [apply Z.leb_le; lia | apply Z.leb_gt; lia].
Qed.

(** X9.  On a page taller than its viewport, the sections cover the full
    height with none to spare, and the loop that runs to its end leaves
    the page where the request for the last offset,
    [(n - 1) * viewportHeight], put it: an offset that is the largest the
    page can be scrolled to exactly when the viewport height divides the
    full height, and lies beyond it otherwise. *)
Theorem last_section_is_requested_past_the_end host tabId d w screenshots w'
        (Hviewport : 0 < Chrome.viewportHeight d)
        (Htall : Chrome.viewportHeight d < Chrome.fullHeight d)
        (Hruns : ServiceWorker.capture_all_sections host tabId
                   (Chrome.viewportHeight d)
                   (ServiceWorker.Math_ceil_div (Chrome.fullHeight d)
                                                (Chrome.viewportHeight d)) w
                 = (Returned screenshots, w')) :
  let n := Z.of_nat (Session.sections d) in
  let last := (n - 1) * Chrome.viewportHeight d in
  (n - 1) * Chrome.viewportHeight d < Chrome.fullHeight d
    <= n * Chrome.viewportHeight d
  /\ Chrome.window_scrollY w' = Chrome.window_scrollTo host last
  /\ Chrome.fullHeight d - Chrome.viewportHeight d <= last
  /\ (last =? Chrome.fullHeight d - Chrome.viewportHeight d)
     = (Chrome.fullHeight d mod Chrome.viewportHeight d =? 0).
Proof.
  cbv zeta. unfold Session.sections.
  set (vh := Chrome.viewportHeight d) in *. set (th := Chrome.fullHeight d) in *.
  pose proof (ceil_div_spec th vh Hviewport) as Hceil.
  pose proof (ceil_div_ge_2 th vh Hviewport Htall) as Hge.
  set (q := - (- th / vh)) in *.
  rewrite Z2Nat.id by lia.
  split; [lia|]. split; [|split; [lia|]].
  - rewrite (Math_ceil_div_bounded _ _ Hviewport) in Hruns.
    unfold ServiceWorker.capture_all_sections in Hruns. fold q in Hruns.
    destruct (Z.to_nat q) as [|m] eqn:Hm; [lia|].
    rewrite (capture_sections_scrolls _ _ _ _ _ _ _ _ _ _ Hruns).
    do 2 f_equal. lia.
  - destruct (Z.eqb_spec (th mod vh) 0) as [Hmod|Hmod].
    + apply Z.eqb_eq. apply Z.mod_divide in Hmod; [|lia].
      destruct Hmod as [k Hk]. assert (k = q) by nia. subst k. lia.
    + apply Z.eqb_neq. intros Heq. apply Hmod.
      apply Z.mod_divide; [lia|]. exists q. lia.
Qed.

(** A page of 1500 rows in a viewport of 600: the last request is for
    1200, the page stops at 900. *)
Lemma last_section_is_requested_past_the_end_witness :
  Chrome.window_scrollY
    (snd (ServiceWorker.capture_all_sections Hosts.quiet 7 600
            (ServiceWorker.Math_ceil_div 1500 600) Hosts.fresh))
  = Chrome.window_scrollTo Hosts.quiet 1200
  /\ Chrome.window_scrollTo Hosts.quiet 1200 = 900
  /\ (1200 =? 1500 - 600) = (1500 mod 600 =? 0).
Proof.
  destruct (last_section_is_requested_past_the_end Hosts.quiet 7 Hosts.tall_page
              Hosts.fresh
              (fst (match ServiceWorker.capture_all_sections Hosts.quiet 7 600
                            (ServiceWorker.Math_ceil_div 1500 600) Hosts.fresh
                    with (Returned s, _) => (s, tt) | _ => ([], tt) end))
              (snd (ServiceWorker.capture_all_sections Hosts.quiet 7 600
                      (ServiceWorker.Math_ceil_div 1500 600) Hosts.fresh))
              ltac:(reflexivity) ltac:(reflexivity)
              ltac:(vm_compute; reflexivity))
    as (_ & Hscroll & _ & Hlast).
  split; [exact Hscroll|]. split; [reflexivity|exact Hlast].
Defined.

(* ------------------------------------------------------------------ *)
(** * The text helpers *)

Section TextFacts.
Import Text.

Lemma trimStart_length s : (List.length (trimStart s) <= List.length s)%nat.
Proof.
  induction s as [|c s IH]; cbn [trimStart]; [lia|].
  destruct (is_space c); cbn [List.length]; lia.
Qed.

Lemma trim_length s : (List.length (trim s) <= List.length s)%nat.
Proof.
  unfold trim, trimEnd. rewrite length_rev.
  pose proof (trimStart_length (rev (trimStart s))) as H.
  rewrite length_rev in H. pose proof (trimStart_length s). lia.
Qed.

Lemma trimStart_plain s :
  forallb (fun c => negb (is_space c)) s = true -> trimStart s = s.
Proof.
  destruct s as [|c s]; [reflexivity|]. cbn [forallb trimStart].
  intros H. apply andb_true_iff in H as [H _].
  destruct (is_space c); [discriminate|reflexivity].
Qed.

Lemma trim_plain s :
  forallb (fun c => negb (is_space c)) s = true -> trim s = s.
Proof.
  intros H. unfold trim, trimEnd. rewrite (trimStart_plain s H).
  rewrite trimStart_plain; [apply rev_involutive|].
  rewrite forallb_forall in *. intros c Hc. apply H.
  apply in_rev. exact Hc.
Qed.

(** What [trimStart] leaves does not begin with white space. *)
Lemma trimStart_head s :
  match trimStart s with
  | c :: _ => is_space c = false
  | [] => True
  end.
Proof.
  induction s as [|c s IH]; cbn [trimStart]; [exact I|].
  destruct (is_space c) eqn:Hc; [exact IH|exact Hc].
Qed.

Lemma trimStart_suffix s : exists spaces,
  s = spaces ++ trimStart s /\ forallb is_space spaces = true.
Proof.
  induction s as [|c s (spaces & Hs & Hspaces)]; cbn [trimStart].
  - exists []. auto.
  - destruct (is_space c) eqn:Hc.
    + exists (c :: spaces). cbn [forallb app]. rewrite Hc, Hspaces.
      split; [f_equal; exact Hs|reflexivity].
    + exists []. auto.
Qed.

Lemma firstn_In {A} (c : A) n s : In c (firstn n s) -> In c s.
Proof.
  intros Hc. rewrite <- (firstn_skipn n s). apply in_or_app. left. exact Hc.
Qed.

Lemma firstn_forallb {A} (p : A -> bool) n s :
  forallb p s = true -> forallb p (firstn n s) = true.
Proof.
  rewrite !forallb_forall. intros H c Hc. apply H.
  eapply firstn_In. exact Hc.
Qed.

End TextFacts.

Section EscapeFacts.
Import Text Utils.

Lemma replace_all_app c r a b :
  replace_all c r (a ++ b) = replace_all c r a ++ replace_all c r b.
Proof. apply flat_map_app. Qed.

Lemma replace_all_one c r x :
  replace_all c r [x] = if (x =? c)%N then r else [x].
Proof. unfold replace_all. cbn [flat_map]. apply app_nil_r. Qed.

Lemma escapeHtml_app a b : escapeHtml (a ++ b) = escapeHtml a ++ escapeHtml b.
Proof. unfold escapeHtml. rewrite !replace_all_app. reflexivity. Qed.

Lemma escapeHtml_one c : escapeHtml [c] = entity c.
Proof.
  unfold escapeHtml, entity. rewrite replace_all_one.
  destruct (N.eqb_spec c amp) as [->|Hamp]; [vm_compute; reflexivity|].
  rewrite replace_all_one.
  destruct (N.eqb_spec c lt) as [->|Hlt]; [vm_compute; reflexivity|].
  rewrite replace_all_one.
  destruct (N.eqb_spec c gt) as [->|Hgt]; [vm_compute; reflexivity|].
  rewrite replace_all_one.
  destruct (N.eqb_spec c quot) as [->|Hquot]; [vm_compute; reflexivity|].
  rewrite replace_all_one.
  destruct (N.eqb_spec c apos) as [->|Hapos]; [vm_compute; reflexivity|].
  reflexivity.
Qed.

Lemma escapeHtml_cons c s : escapeHtml (c :: s) = entity c ++ escapeHtml s.
Proof.
  change (c :: s) with ([c] ++ s). rewrite escapeHtml_app, escapeHtml_one.
  reflexivity.
Qed.

(** The six shapes of [entity]. *)
Lemma entity_cases c :
  (c = amp /\ entity c = [38; 97; 109; 112; 59]%N)
  \/ (c = lt /\ entity c = [38; 108; 116; 59]%N)
  \/ (c = gt /\ entity c = [38; 103; 116; 59]%N)
  \/ (c = quot /\ entity c = [38; 113; 117; 111; 116; 59]%N)
  \/ (c = apos /\ entity c = [38; 35; 48; 51; 57; 59]%N)
  \/ (c <> 38%N /\ is_markup c = false /\ entity c = [c]).
Proof.
  unfold entity, is_markup.
  destruct (N.eqb_spec c amp) as [->|Hamp]; [left; split; reflexivity|].
  destruct (N.eqb_spec c lt) as [->|Hlt];
    [right; left; split; reflexivity|].
  destruct (N.eqb_spec c gt) as [->|Hgt];
    [right; right; left; split; reflexivity|].
  destruct (N.eqb_spec c quot) as [->|Hquot];
    [right; right; right; left; split; reflexivity|].
  destruct (N.eqb_spec c apos) as [->|Hapos];
    [right; right; right; right; left; split; reflexivity|].
  right; right; right; right; right. repeat split. exact Hamp.
Qed.

Lemma entity_inert c : forallb (fun x => negb (is_markup x)) (entity c) = true.
Proof.
  destruct (entity_cases c)
    as [[_ ->]|[[_ ->]|[[_ ->]|[[_ ->]|[[_ ->]|(_ & Hc & ->)]]]]];
    try reflexivity.
  cbn [forallb]. rewrite Hc. reflexivity.
Qed.

Lemma entity_app_inj c1 c2 r1 r2 :
  entity c1 ++ r1 = entity c2 ++ r2 -> c1 = c2 /\ r1 = r2.
Proof.
  destruct (entity_cases c1)
    as [[-> ->]|[[-> ->]|[[-> ->]|[[-> ->]|[[-> ->]|(H1 & _ & ->)]]]]];
  destruct (entity_cases c2)
    as [[-> ->]|[[-> ->]|[[-> ->]|[[-> ->]|[[-> ->]|(H2 & _ & ->)]]]]];
  cbn [app]; intros H;
    try discriminate H;
    try (injection H as ->; split; reflexivity);
    try (injection H as H _; congruence).
  injection H as -> ->. split; reflexivity.
Qed.

End EscapeFacts.

(** X11.  The five replacements of [escapeHtml] amount to one pass over
    the text, each character becoming its entity or staying: a later
    replacement never touches what an earlier one wrote, so nothing is
    escaped twice.  The result contains none of [<], [>], the double and
    the single quote, and escaping distributes over concatenation. *)
Theorem escapeHtml_is_one_pass unsafe more :
  Utils.escapeHtml unsafe = flat_map Utils.entity unsafe
  /\ forallb (fun c => negb (Utils.is_markup c)) (Utils.escapeHtml unsafe)
     = true
  /\ Utils.escapeHtml (unsafe ++ more)
     = Utils.escapeHtml unsafe ++ Utils.escapeHtml more.
Proof.
  split; [|split; [|apply escapeHtml_app]].
  - induction unsafe as [|c s IH]; [reflexivity|].
    rewrite escapeHtml_cons, IH. reflexivity.
  - induction unsafe as [|c s IH]; [reflexivity|].
    rewrite escapeHtml_cons, forallb_app, IH, entity_inert. reflexivity.
Qed.

(** X12.  [escapeHtml] loses nothing: two texts with the same escaped
    form are the same text. *)
Theorem escapeHtml_is_injective a b
        (Hsame : Utils.escapeHtml a = Utils.escapeHtml b) :
  a = b.
Proof.
  revert b Hsame. induction a as [|c a IH]; intros [|d b] Hsame.
  - reflexivity.
  - rewrite escapeHtml_cons in Hsame.
    destruct (entity_cases d)
      as [[_ H]|[[_ H]|[[_ H]|[[_ H]|[[_ H]|(_ & _ & H)]]]]];
      rewrite H in Hsame; discriminate Hsame.
  - rewrite escapeHtml_cons in Hsame.
    destruct (entity_cases c)
      as [[_ H]|[[_ H]|[[_ H]|[[_ H]|[[_ H]|(_ & _ & H)]]]]];
      rewrite H in Hsame; discriminate Hsame.
  - rewrite !escapeHtml_cons in Hsame.
    apply entity_app_inj in Hsame as [-> Hrest].
    f_equal. apply IH. exact Hrest.
Qed.

(** An ampersand that is already part of an entity is escaped again, and
    so told apart from the character it stands for. *)
Lemma escapeHtml_is_injective_witness :
  Utils.escapeHtml (Text.lit "&lt;") = Text.lit "&amp;lt;"
  /\ Text.lit "a<b" = Text.lit "a<b".
Proof.
  split; [reflexivity|].
  apply (escapeHtml_is_injective (Text.lit "a<b") (Text.lit "a<b")).
  reflexivity.
Defined.

(** X13.  [truncateText] keeps to [maxLength + 3], not to [maxLength]:
    the three dots come on top of the part kept.  A text without white
    space that is cut comes out exactly [maxLength + 3] long, which is
    longer than the text itself when fewer than three characters were
    cut. *)
Theorem truncateText_adds_three text maxLength
        (Hmax : 0 <= maxLength) :
  Text.length (Utils.truncateText text maxLength) <= maxLength + 3
  /\ (maxLength < Text.length text ->
      forallb (fun c => negb (Text.is_space c)) text = true ->
      Text.length (Utils.truncateText text maxLength) = maxLength + 3).
Proof.
  unfold Utils.truncateText, Text.length.
  destruct (Z.leb_spec (Z.of_nat (List.length text)) maxLength) as [Hfit|Hcut].
  - split; lia.
  - assert (Hkept : List.length (Text.substring0 text maxLength)
                    = Z.to_nat maxLength).
    { unfold Text.substring0. rewrite length_firstn. lia. }
    rewrite length_app.
    change (List.length (Text.lit "...")) with 3%nat.
    split.
    + pose proof (trim_length (Text.substring0 text maxLength)). lia.
    + intros _ Hplain. rewrite trim_plain, Hkept; [lia|].
      apply firstn_forallb. exact Hplain.
Qed.

(** Six characters cut at four come out seven long. *)
Lemma truncateText_adds_three_witness :
  Text.length (Utils.truncateText (Text.lit "abcdef") 4) = 4 + 3.
Proof.
  apply (truncateText_adds_three (Text.lit "abcdef") 4);
    [lia|reflexivity|reflexivity].
Defined.

(** X14.  [formatDate] in terms of the milliseconds elapsed: a date less
    than a minute old, and any date in the future, reads "Just now";
    the count of minutes shown lies in 1..59, that of hours in 1..23,
    that of days in 1..6; a week or more, and an invalid date, go to the
    host's rendering. *)
Theorem formatDate_counts toLocaleDateString now time :
  let elapsed := now - time in
  let shown := Utils.formatDate toLocaleDateString now (Some time) in
  (if elapsed <? 60000 then shown = Text.lit "Just now"
   else if elapsed <? 3600000 then
     shown = Text.of_Z (elapsed / 60000) ++ Text.lit "m ago"
     /\ 1 <= elapsed / 60000 <= 59
   else if elapsed <? 86400000 then
     shown = Text.of_Z (elapsed / 3600000) ++ Text.lit "h ago"
     /\ 1 <= elapsed / 3600000 <= 23
   else if elapsed <? 604800000 then
     shown = Text.of_Z (elapsed / 86400000) ++ Text.lit "d ago"
     /\ 1 <= elapsed / 86400000 <= 6
   else shown = toLocaleDateString (Some time))
  /\ Utils.formatDate toLocaleDateString now None = toLocaleDateString None.
Proof.
  cbv zeta. split; [|reflexivity].
  unfold Utils.formatDate. cbv zeta.
  set (d := now - time).
  pose proof (Z.div_mod d 60000 ltac:(lia)) as Hm.
  pose proof (Z.mod_pos_bound d 60000 ltac:(lia)) as Hm'.
  pose proof (Z.div_mod d 3600000 ltac:(lia)) as Hh.
  pose proof (Z.mod_pos_bound d 3600000 ltac:(lia)) as Hh'.
  pose proof (Z.div_mod d 86400000 ltac:(lia)) as Hd.
  pose proof (Z.mod_pos_bound d 86400000 ltac:(lia)) as Hd'.
  destruct (Z.ltb_spec d 60000);
    [destruct (Z.ltb_spec (d / 60000) 1); [reflexivity|lia]|].
  destruct (Z.ltb_spec (d / 60000) 1); [lia|].
  destruct (Z.ltb_spec d 3600000);
    [destruct (Z.ltb_spec (d / 60000) 60); [split; [reflexivity|lia]|lia]|].
  destruct (Z.ltb_spec (d / 60000) 60); [lia|].
  destruct (Z.ltb_spec d 86400000);
    [destruct (Z.ltb_spec (d / 3600000) 24); [split; [reflexivity|lia]|lia]|].
  destruct (Z.ltb_spec (d / 3600000) 24); [lia|].
  destruct (Z.ltb_spec d 604800000);
    [destruct (Z.ltb_spec (d / 86400000) 7); [split; [reflexivity|lia]|lia]|].
  destruct (Z.ltb_spec (d / 86400000) 7); [lia|reflexivity].
Qed.

Section ColorFacts.
Import Text Utils.

Lemma ToInt32_range x : - 2 ^ 31 <= ToInt32 x < 2 ^ 31.
Proof.
  unfold ToInt32.
  pose proof (Z.mod_pos_bound (x + 2 ^ 31) (2 ^ 32) ltac:(lia)). lia.
Qed.

Lemma hash_round_bound hash c :
  (c < 65536)%N ->
  Z.abs (hash_round hash c) <= Z.abs hash + (2 ^ 31 + 65535).
Proof.
  intros Hc. unfold hash_round, shl5.
  pose proof (ToInt32_range (ToInt32 hash * 32)). lia.
Qed.

Lemma hash_bound str : forall hash,
  code_units str ->
  Z.abs (fold_left hash_round str hash)
  <= Z.abs hash + length str * (2 ^ 31 + 65535).
Proof.
  unfold length.
  induction str as [|c str IH]; intros hash Hunits; cbn [fold_left List.length].
  - lia.
  - inversion Hunits as [|? ? Hc Hrest]; subst.
    pose proof (IH (hash_round hash c) Hrest).
    pose proof (hash_round_bound hash c Hc). lia.
Qed.

End ColorFacts.

(** X15.  [stringToColor] yields a hue from 0 to 359.  On a string of at
    most 2^21 code units every value the hash takes on the way stays
    below 2^53 in size, where the sums and differences of numbers are
    exact: only the shift wraps. *)
Theorem stringToColor_hue_in_range str
        (Hunits : Utils.code_units str)
        (Hlength : Text.length str <= 2 ^ 21) :
  (forall k, Z.abs (Utils.hash_of (firstn k str)) < 2 ^ 53)
  /\ 0 <= Utils.hue str < 360.
Proof.
  split.
  - intros k. unfold Utils.hash_of.
    assert (Hprefix : Utils.code_units (firstn k str)).
    { unfold Utils.code_units in *. rewrite Forall_forall in *.
      intros c Hc. apply Hunits. eapply firstn_In. exact Hc. }
    pose proof (hash_bound (firstn k str) 0 Hprefix) as Hbound.
    assert (Text.length (firstn k str) <= Text.length str).
    { unfold Text.length. rewrite length_firstn. lia. }
    assert (0 <= Text.length (firstn k str)) by (unfold Text.length; lia).
    nia.
  - unfold Utils.hue.
    pose proof (Z.rem_bound_abs (Utils.hash_of str) 360 ltac:(lia)). lia.
Qed.

Lemma stringToColor_hue_in_range_witness :
  0 <= Utils.hue (Text.lit "javascript") < 360.
Proof.
  apply (stringToColor_hue_in_range (Text.lit "javascript")).
  - repeat constructor.
  - vm_compute. discriminate.
Defined.

(* ------------------------------------------------------------------ *)
(** * The content script *)

Section TrimFacts.
Import Text.

(** The text is empty or begins with a code unit that is not white
    space. *)
Definition starts_plain (s : JsString) : Prop :=
  match s with
  | c :: _ => is_space c = false
  | [] => True
  end.

Lemma trimStart_fixed s : starts_plain s -> trimStart s = s.
Proof.
  destruct s as [|c s]; [reflexivity|]. cbn. intros ->. reflexivity.
Qed.

Lemma trimEnd_starts_plain s : starts_plain s -> starts_plain (trimEnd s).
Proof.
  intros Hs. unfold trimEnd.
  destruct (trimStart_suffix (rev s)) as (spaces & Hrev & _).
  apply (f_equal (@rev N)) in Hrev.
  rewrite rev_involutive, rev_app_distr in Hrev.
  destruct (rev (trimStart (rev s))) as [|c r]; [exact I|].
  rewrite Hrev in Hs. exact Hs.
Qed.

Lemma trim_starts_plain s : starts_plain (trim s).
Proof. apply trimEnd_starts_plain, trimStart_head. Qed.

Lemma trim_ends_plain s : starts_plain (rev (trim s)).
Proof.
  unfold trim, trimEnd. rewrite rev_involutive. apply trimStart_head.
Qed.

Lemma trim_trim s : trim (trim s) = trim s.
Proof.
  unfold trim at 1.
  rewrite (trimStart_fixed _ (trim_starts_plain s)).
  unfold trimEnd.
  rewrite (trimStart_fixed _ (trim_ends_plain s)).
  apply rev_involutive.
Qed.

Lemma substring0_length s n : 0 <= n -> length (substring0 s n) <= n.
Proof.
  intros Hn. unfold length, substring0. rewrite length_firstn. lia.
Qed.

End TrimFacts.

Section ListFacts.
Context {A : Type}.

Lemma filter_all (p : A -> bool) l :
  (forall x, In x l -> p x = true) -> filter p l = l.
Proof.
  induction l as [|x l IH]; intros H; [reflexivity|].
  cbn [filter]. rewrite (H x (or_introl eq_refl)).
  f_equal. apply IH. intros y Hy. apply H. right. exact Hy.
Qed.

Lemma filter_all_false (p : A -> bool) l :
  (forall x, In x l -> negb (p x) = false) ->
  filter (fun x => negb (p x)) l = [].
Proof.
  induction l as [|x l IH]; intros H; [reflexivity|].
  cbn [filter]. rewrite (H x (or_introl eq_refl)).
  apply IH. intros y Hy. apply H. right. exact Hy.
Qed.

Lemma map_fixed (f : A -> A) l :
  (forall x, In x l -> f x = x) -> map f l = l.
Proof.
  intros H. rewrite (map_ext_in f (fun x => x) l H). apply map_id.
Qed.

Lemma forallb_negb_existsb (p : A -> bool) l :
  forallb (fun x => negb (p x)) l = negb (existsb p l).
Proof.
  induction l as [|x l IH]; [reflexivity|].
  cbn [forallb existsb]. rewrite IH, negb_orb. reflexivity.
Qed.

End ListFacts.

Section TagFacts.
Import Text Content.

Lemma cleanTags_member tags tag :
  In tag (cleanTags tags) ->
  trim tag = tag
  /\ (0 <? length tag) && (length tag <? 100) = true
  /\ isCommonNoise tag = false.
Proof.
  unfold cleanTags. rewrite !filter_In, in_map_iff.
  intros [[(t & <- & _) Hlen] Hnoise].
  split; [apply trim_trim|]. split; [exact Hlen|].
  apply negb_true_iff. exact Hnoise.
Qed.

End TagFacts.

(** X17.  [cleanTags] leaves nothing to clean: applied to its own result
    it returns it unchanged.  Every tag it lets through is trimmed, has
    from 1 to 99 code units, is not made of digits alone and holds at
    least one letter, digit, underscore, Han character or kana. *)
Theorem cleanTags_is_idempotent tags :
  Content.cleanTags (Content.cleanTags tags) = Content.cleanTags tags
  /\ Forall (fun tag =>
               Text.trim tag = tag
               /\ 0 < Text.length tag < 100
               /\ forallb Content.is_digit tag = false
               /\ existsb (fun c => Content.is_word c
                                    || Content.is_han_or_kana c) tag = true)
            (Content.cleanTags tags).
Proof.
  split.
  - unfold Content.cleanTags at 1.
    rewrite (map_fixed Text.trim).
    2:{ intros tag Htag. apply (cleanTags_member tags tag Htag). }
    rewrite (filter_all (fun tag => (0 <? Text.length tag)
                                    && (Text.length tag <? 100))).
    2:{ intros tag Htag. apply (cleanTags_member tags tag Htag). }
    apply filter_all. intros tag Htag.
    destruct (cleanTags_member tags tag Htag) as (_ & _ & ->). reflexivity.
  - apply Forall_forall. intros tag Htag.
    destruct (cleanTags_member tags tag Htag) as (Htrim & Hlen & Hnoise).
    apply andb_true_iff in Hlen as [Hpos Hlt].
    apply Z.ltb_lt in Hpos, Hlt.
    split; [exact Htrim|]. split; [lia|].
    unfold Content.isCommonNoise in Hnoise.
    apply orb_false_iff in Hnoise as [Hnoise _].
    apply orb_false_iff in Hnoise as [Hnoise Hspecial].
    apply orb_false_iff in Hnoise as [_ Hdigits].
    destruct tag as [|c tag]; [cbn in Hpos; lia|].
    unfold Content.all_in in Hdigits, Hspecial.
    split; [exact Hdigits|].
    rewrite forallb_negb_existsb in Hspecial.
    apply negb_false_iff. exact Hspecial.
Qed.

Section WordFacts.
Import Text Content.

Lemma count_words_bound s : forall after_space,
  0 <= count_words after_space s
  /\ 2 * count_words after_space s
     <= length s + (if after_space then 1 else 0).
Proof.
  unfold length.
  induction s as [|c s IH]; intros after_space; cbn [count_words List.length].
  - destruct after_space; lia.
  - pose proof (IH true). pose proof (IH false).
    destruct (is_space c), after_space; lia.
Qed.

(** The pieces of [split] that are not empty are the words; [cur] is
    empty within a run of white space. *)
Lemma split_spaces_words s : forall cur in_run,
  (in_run = true -> cur = []) ->
  Z.of_nat (List.length (filter (fun w => 0 <? length w)
                                (split_spaces_from cur in_run s)))
  = (match cur with [] => 0 | _ => 1 end)
    + count_words (match cur with [] => true | _ => false end) s.
Proof.
  induction s as [|c s IH]; intros cur in_run Hrun;
    cbn [split_spaces_from count_words].
  - cbn [filter]. unfold length. rewrite length_rev.
    destruct cur; cbn; reflexivity.
  - destruct (is_space c).
    + destruct in_run.
      * rewrite (Hrun eq_refl). rewrite IH by reflexivity. reflexivity.
      * cbn [filter]. unfold length at 1. rewrite length_rev.
        destruct cur as [|x cur].
        -- cbn [List.length Z.of_nat Z.ltb Z.compare].
           rewrite IH by reflexivity. reflexivity.
        -- replace (0 <? Z.of_nat (List.length (x :: cur))) with true
             by (symmetry; apply Z.ltb_lt; cbn [List.length]; lia).
           cbn [List.length]. rewrite Nat2Z.inj_succ.
           rewrite IH by reflexivity. lia.
    + rewrite IH by discriminate. destruct cur; lia.
Qed.

Lemma extractMainContent_from_long candidates fallback element :
  extractMainContent_from candidates fallback = Some element ->
  fallback = Some element \/ 200 < length (textContent element).
Proof.
  induction candidates as [|[e|] candidates IH]; cbn [extractMainContent_from].
  - auto.
  - destruct (Z.ltb_spec 200 (length (textContent e))) as [Hlong|_].
    + intros [= <-]. right. exact Hlong.
    + exact IH.
  - exact IH.
Qed.

Lemma extractMainContent_from_none candidates fallback :
  extractMainContent_from candidates fallback = None -> fallback = None.
Proof.
  induction candidates as [|[e|] candidates IH]; cbn [extractMainContent_from].
  - auto.
  - destruct (200 <? length (textContent e)); [discriminate|exact IH].
  - exact IH.
Qed.

End WordFacts.

(** X18.  What [extractContent] returns, whatever the document: [raw] and
    [cleaned] are the same text of at most 50000 code units, and the
    count of words is at most 5000.  Where a main element or a body is
    found, the text and the markup are its own, cut at 10000 and 50000
    code units, the excerpt is that of the text, and the count is that
    of the words of the text, which the cut keeps to 5000.  A document
    without either has no markup; it is given one word and no text where
    a description or, failing that, a first paragraph provides the
    excerpt, and otherwise its title for text and excerpt, and no
    word. *)
Theorem content_is_bounded doc :
  let c := Content.extractContent doc in
  Content.raw c = Content.cleaned c
  /\ Text.length (Content.raw c) <= 50000
  /\ 0 <= Content.wordCount c <= 5000
  /\ match Content.extractMainContent doc with
     | Some content =>
         Content.text c
           = Text.substring0 (Content.textContent content) 10000
         /\ Content.raw c
            = Text.substring0 (Content.innerHTML content) 50000
         /\ Content.extractExcerpt doc (Content.text c)
            = Some (Content.excerpt c)
         /\ Text.length (Content.text c) <= 10000
         /\ Content.wordCount c = Content.words (Content.text c)
         /\ 2 * Content.wordCount c <= Text.length (Content.text c) + 1
     | None =>
         Content.body doc = None
         /\ Content.raw c = []
         /\ match Content.extractMetaDescription doc,
                  Content.first_paragraph doc with
            | m :: description, _ =>
                Content.text c = []
                /\ Content.wordCount c = 1
                /\ Content.excerpt c = m :: description
            | [], Some (p :: paragraph) =>
                Content.text c = []
                /\ Content.wordCount c = 1
                /\ Content.excerpt c
                   = Text.substring0 (Text.trim (p :: paragraph)) 300
            | [], _ =>
                Content.text c = Content.doc_title doc
                /\ Content.wordCount c = 0
                /\ Content.excerpt c = Content.doc_title doc
            end
     end.
Proof.
  cbv zeta. unfold Content.extractContent, Content.extractContent_try.
  destruct (Content.extractMainContent doc) as [content|] eqn:Hmain.
  - set (t := Text.substring0 (Content.textContent content)
                Content.MAX_TEXT_LENGTH).
    assert (Hlen : Text.length t <= 10000)
      by (apply substring0_length; unfold Content.MAX_TEXT_LENGTH; lia).
    assert (Hwords : Z.of_nat (List.length
                       (filter (fun w => 0 <? Text.length w)
                               (Text.split_spaces t)))
                     = Content.words t).
    { unfold Text.split_spaces. rewrite split_spaces_words by discriminate.
      reflexivity. }
    pose proof (count_words_bound t true) as [Hpos Hbound].
    fold (Content.words t) in Hpos, Hbound.
    assert (Hexcerpt : Content.extractExcerpt doc t <> None).
    { unfold Content.extractExcerpt.
      destruct (Content.extractMetaDescription doc); [|discriminate].
      assert (Htext : match t with
                      | _ :: _ => Some t
                      | [] => option_map Content.textContent (Content.body doc)
                      end <> None).
      { destruct t eqn:Ht; [|discriminate].
        destruct (Content.body doc) eqn:Hbody; [discriminate|].
        unfold Content.extractMainContent in Hmain. rewrite Hbody in Hmain.
        apply extractMainContent_from_long in Hmain as [Hmain|Hlong];
          [discriminate|].
        subst t. unfold Text.substring0, Content.MAX_TEXT_LENGTH in Ht.
        apply (f_equal (@List.length N)) in Ht.
        rewrite length_firstn in Ht. unfold Text.length in Hlong.
        cbn [List.length] in Ht. lia. }
      destruct (Content.first_paragraph doc) as [[|? ?]|]; try discriminate;
        destruct (match t with
                  | _ :: _ => Some t
                  | [] => option_map Content.textContent (Content.body doc)
                  end); [discriminate|congruence|discriminate|congruence]. }
    destruct (Content.extractExcerpt doc t) as [excerpt|] eqn:Hfound;
      [|congruence].
    cbn [Content.raw Content.cleaned Content.text Content.wordCount
         Content.excerpt].
    rewrite Hwords.
    split; [reflexivity|].
    split; [apply substring0_length; unfold Content.MAX_CONTENT_LENGTH; lia|].
    split; [lia|].
    split; [reflexivity|]. split; [reflexivity|]. split; [exact Hfound|].
    repeat split; lia.
  - unfold Content.extractMainContent in Hmain.
    apply extractMainContent_from_none in Hmain. rewrite Hmain.
    assert (Hcut : forall n, Text.substring0 [] n = [])
      by (intros n; apply firstn_nil).
    rewrite !Hcut. change (Text.split_spaces []) with [@nil N].
    unfold Content.extractExcerpt. rewrite Hmain.
    destruct (Content.extractMetaDescription doc) as [|m description];
      [destruct (Content.first_paragraph doc) as [[|p paragraph]|]|];
      cbn [option_map Content.raw Content.cleaned Content.text
           Content.wordCount Content.excerpt List.length];
      change (Text.length []) with 0;
      repeat split; lia.
Qed.

Section LinkFacts.
Import Text Content.

Lemma extract_link_spec resolve link :
  extract_link resolve link
  = match resolve (href link) with
    | Some url =>
        if is_http url
        then [{| url := url;
                 link_text := substring0 (trim (anchor_textContent link)) 200;
                 title := anchor_title link |}]
        else []
    | None => []
    end.
Proof.
  unfold extract_link, is_http.
  destruct (resolve (href link)) as [u|]; [|reflexivity].
  destruct (startsWith (lit "http://") u), (startsWith (lit "https://") u);
    reflexivity.
Qed.

Lemma flat_map_length_le {A B} (f : A -> list B) l :
  (forall x, (List.length (f x) <= 1)%nat) ->
  (List.length (flat_map f l) <= List.length l)%nat.
Proof.
  intros Hf. induction l as [|x l IH]; [cbn; lia|].
  cbn [flat_map]. rewrite length_app. specialize (Hf x).
  cbn [List.length]. lia.
Qed.

End LinkFacts.

(** X19.  [extractLinks] returns at most 100 links, taken from the first
    100 anchors in their order: those whose address resolves to one that
    begins with [http://] or [https://].  The text of each is at most 200
    code units long and does not begin with white space. *)
Theorem links_are_bounded resolve linkElements :
  let found := Content.extractLinks resolve linkElements in
  (List.length found <= 100)%nat
  /\ map Content.url found
     = filter Content.is_http
         (flat_map (fun link => match resolve (Content.href link) with
                                | Some url => [url]
                                | None => []
                                end)
                   (firstn 100 linkElements))
  /\ Forall (fun link =>
               Text.length (Content.link_text link) <= 200
               /\ starts_plain (Content.link_text link))
            found.
Proof.
  cbv zeta. unfold Content.extractLinks, Content.MAX_LINKS.
  split; [|split].
  - etransitivity.
    + apply flat_map_length_le. intros link. rewrite extract_link_spec.
      destruct (resolve (Content.href link)) as [u|]; [|cbn; lia].
      destruct (Content.is_http u); cbn; lia.
    + rewrite length_firstn. lia.
  - induction (firstn 100 linkElements) as [|link l IH]; [reflexivity|].
    cbn [flat_map]. rewrite map_app, filter_app, IH. f_equal.
    rewrite extract_link_spec.
    destruct (resolve (Content.href link)) as [u|]; [|reflexivity].
    cbn [filter]. destruct (Content.is_http u); reflexivity.
  - apply Forall_forall. intros found Hfound.
    apply in_flat_map in Hfound as (link & _ & Hfound).
    rewrite extract_link_spec in Hfound.
    destruct (resolve (Content.href link)) as [u|]; [|contradiction].
    destruct (Content.is_http u); [|contradiction].
    destruct Hfound as [<-|[]]. cbn [Content.link_text].
    split; [apply substring0_length; lia|].
    pose proof (trim_starts_plain (Content.anchor_textContent link)) as Hplain.
    unfold Text.substring0.
    destruct (Text.trim (Content.anchor_textContent link)); [exact I|].
    exact Hplain.
Qed.

(* ------------------------------------------------------------------ *)
(** * The extraction and its deadline *)

Section ExtractionFacts.
Import Text Content.
Variable Image : Type.
Variable now : Checkpoint -> Z.
Variable extractors : Extractors Image.
Hypothesis Hmonotone : monotone now.

Lemma late_onwards a b :
  (position a <= position b)%nat ->
  checkTimeout now a = true -> checkTimeout now b = true.
Proof.
  intros Hab. unfold checkTimeout. rewrite !Z.ltb_lt.
  pose proof (Hmonotone a b Hab). lia.
Qed.

Lemma filter_map_swap {A B} (p : B -> bool) (f : A -> B) l :
  filter p (map f l) = map f (filter (fun x => p (f x)) l).
Proof.
  induction l as [|x l IH]; [reflexivity|].
  cbn [map filter]. destruct (p (f x)); cbn [map]; rewrite IH; reflexivity.
Qed.

Lemma fold_left_map_swap {A B C} (g : C -> B -> C) (f : A -> B) l : forall c,
  fold_left g (map f l) c = fold_left (fun c x => g c (f x)) l c.
Proof.
  induction l as [|x l IH]; intros c; [reflexivity|].
  cbn [map fold_left]. apply IH.
Qed.

Lemma core_loop_runs_the_early keys :
  StronglySorted (fun a b => (key_position a <= key_position b)%nat) keys ->
  forall data,
    core_loop Image now extractors keys data
    = fold_left (fun d key => extract_core Image extractors key d)
        (filter (fun key => negb (checkTimeout now (Before key))) keys) data
    /\ (existsb (fun key => checkTimeout now (Before key)) keys = true ->
        checkTimeout now BeforeParallel = true).
Proof.
  induction 1 as [|key rest Hsorted IH Hall]; intros data.
  - split; [reflexivity|discriminate].
  - cbn [core_loop filter existsb].
    destruct (checkTimeout now (Before key)) eqn:Hlate; cbn [negb orb].
    + split.
      * rewrite (filter_all_false (fun k => checkTimeout now (Before k)));
          [reflexivity|].
        intros k Hk. rewrite Forall_forall in Hall.
        rewrite (late_onwards (Before key) (Before k)); [reflexivity| |exact Hlate].
        cbn [position]. apply Hall. exact Hk.
      * intros _. apply (late_onwards (Before key)); [|exact Hlate].
        destruct key; cbn; lia.
    + cbn [fold_left]. apply IH.
Qed.

End ExtractionFacts.

(** X20.  With a clock that does not run backwards, [extractAll] runs
    the extractors whose turn comes before the deadline of 3000 ms, in
    the order of the code, and no other: once the deadline has passed,
    what the later extractors would give keeps its initial value. *)
Theorem extraction_stops_at_the_deadline Image now extractors
        (Hmonotone : Content.monotone now) :
  Content.extractAll Image now extractors
  = fold_left (Content.perform Image extractors)
      (filter (fun step =>
                 negb (Content.checkTimeout now (Content.checkpoint step)))
              Content.steps)
      (Content.empty Image).
Proof.
  unfold Content.extractAll, Content.steps. cbv zeta.
  rewrite filter_app, fold_left_app, filter_map_swap, fold_left_map_swap.
  assert (Hsorted : StronglySorted
            (fun a b => (Content.key_position a <= Content.key_position b)%nat)
            Content.coreExtractors).
  { unfold Content.coreExtractors.
    repeat (constructor; [|repeat constructor; cbn; lia]). constructor. }
  destruct (core_loop_runs_the_early Image now extractors Hmonotone
              Content.coreExtractors Hsorted (Content.empty Image))
    as [Hloop _].
  cbn [Content.checkpoint Content.perform] in *.
  rewrite <- Hloop. clear Hloop.
  cbn [filter Content.checkpoint].
  destruct (Content.checkTimeout now Content.BeforeParallel) eqn:Hparallel;
    cbn [negb].
  - rewrite (late_onwards now Hmonotone Content.BeforeParallel
               Content.AfterImages ltac:(cbn; lia) Hparallel).
    reflexivity.
  - destruct (Content.checkTimeout now Content.AfterImages); reflexivity.
Qed.

(** Every reading 400 ms after the one before: the deadline has passed
    when the turn of the content comes. *)
Lemma extraction_stops_at_the_deadline_witness :
  Content.content unit
    (Content.extractAll unit
       (fun c => 400 * Z.of_nat (Content.position c))
       {| Content.core := fun _ => inr Content.Null;
          Content.content_extractor :=
            inr (Content.extractContent
                   {| Content.description_metas := [];
                      Content.first_paragraph := None;
                      Content.main_candidates := [];
                      Content.body := None;
                      Content.doc_title := Text.lit "t" |});
          Content.images_extractor := inr [tt];
          Content.links_extractor := inr [] |})
  = None.
Proof.
  rewrite (extraction_stops_at_the_deadline unit
             (fun c => 400 * Z.of_nat (Content.position c))).
  - reflexivity.
  - intros a b Hab. lia.
Defined.

(* ------------------------------------------------------------------ *)
(** * The popup and the capture handler *)

(** X21.  The screenshot step of [saveCurrentPage] in terms of the
    capture itself: with the box checked, the payload carries the image
    and [enableOCR: true] exactly when the message was delivered and the
    capture returned an address that is not empty; in every other case
    that settles, it carries [enableOCR: false] and the step goes on.
    The step never throws, and the [success: false] of the listener
    never reaches it from this handler, which has turned every failure
    into [null]. *)
Theorem screenshot_step_follows_the_capture host port tabId data w :
  fst (Popup.screenshot_step host port true tabId data w)
  = match port with
    | Chrome.PortDelivers =>
        match fst (ServiceWorker.capture_pipeline host tabId w) with
        | Returned url =>
            Returned (if String.eqb url "" then Popup.declined data
                      else Popup.attached url)
        | Threw _ => Returned (Popup.declined data)
        | Pending => Pending
        end
    | _ => Returned (Popup.declined data)
    end
  /\ Popup.screenshot_step host port false tabId data w = (Returned data, w).
Proof.
  split; [|reflexivity].
  unfold Popup.screenshot_step, Popup.sendMessage_captureScreenshot,
    Chrome.try_catch.
  destruct port as [| |e]; try reflexivity.
  unfold Chrome.bind, ServiceWorker.onMessage_captureScreenshot,
    ServiceWorker.handleCaptureScreenshot, Chrome.try_catch.
  unfold Chrome.bind at 1.
  destruct (ServiceWorker.capture_pipeline host tabId w) as [[url|e|] w1];
    cbn [fst]; try reflexivity.
  cbn. destruct (String.eqb url ""); reflexivity.
Qed.

(** X22.  Every query that [performSearch] sends passes the length check
    of [POST /api/search]: it is sent trimmed, two code units long or
    more, and trimming it again on the server changes nothing. *)
Theorem sent_query_is_accepted query sent
        (Hsent : Popup.performSearch_query query = Some sent) :
  Proxy.search_query_refused (Some sent) = false
  /\ sent = Text.trim query
  /\ 2 <= Text.length sent.
Proof.
  unfold Popup.performSearch_query in Hsent.
  destruct query as [|c query]; [discriminate|].
  destruct (Z.ltb_spec (Text.length (Text.trim (c :: query))) 2) as [|Hlong];
    [discriminate|].
  injection Hsent as <-.
  split; [|split; [reflexivity|exact Hlong]].
  pose proof (trim_trim (c :: query)) as Hfixed.
  destruct (Text.trim (c :: query)) as [|x t]; [cbn in Hlong; lia|].
  unfold Proxy.search_query_refused. rewrite Hfixed.
  apply Z.ltb_ge. exact Hlong.
Qed.

Lemma sent_query_is_accepted_witness :
  Proxy.search_query_refused (Some (Text.lit "pg")) = false.
Proof.
  apply (sent_query_is_accepted (Text.lit " pg ") (Text.lit "pg")).
  reflexivity.
Defined.

Section ProxyFacts.
Import Proxy.

Lemma prefix_append p rest : String.prefix p (p ++ rest)%string = true.
Proof.
  induction p as [|a p IH]; cbn.
  - destruct rest; reflexivity.
  - destruct (Ascii.ascii_dec a a); [exact IH|congruence].
Qed.

Lemma localhostOnly_admits address remoteAddress :
  address <> ""%string -> isLocal address = true ->
  localhostOnly (Some address) remoteAddress = Next.
Proof.
  intros Hsome Hlocal. destruct address; [congruence|].
  unfold localhostOnly. cbn [clientIp]. rewrite Hlocal. reflexivity.
Qed.

End ProxyFacts.

(** X23.  [localhostOnly] admits by the text of the address: whatever
    follows [172.], [10.] or [192.168.] is let through, so that every
    address of the block 172.0.0.0/8 is, and not only those of
    172.16.0.0/12.  The same addresses written as IPv4-mapped,
    [::ffff:...], are denied: of these only [::ffff:127.0.0.1] passes. *)
Theorem localhostOnly_admits_by_prefix rest remoteAddress :
  Proxy.localhostOnly (Some ("172." ++ rest)%string) remoteAddress
    = Proxy.Next
  /\ Proxy.localhostOnly (Some ("10." ++ rest)%string) remoteAddress
     = Proxy.Next
  /\ Proxy.localhostOnly (Some ("192.168." ++ rest)%string) remoteAddress
     = Proxy.Next
  /\ Proxy.localhostOnly (Some ("::ffff:172." ++ rest)%string) remoteAddress
     = Proxy.Denied
  /\ Proxy.localhostOnly (Some ("::ffff:10." ++ rest)%string) remoteAddress
     = Proxy.Denied
  /\ Proxy.localhostOnly (Some ("::ffff:192.168." ++ rest)%string)
                         remoteAddress
     = Proxy.Denied.
Proof.
  split; [|split; [|split; [|split; [|split]]]]; try reflexivity.
  - apply localhostOnly_admits; [discriminate|].
    unfold Proxy.isLocal. rewrite (prefix_append "172." rest).
    apply orb_true_r.
  - apply localhostOnly_admits; [discriminate|].
    unfold Proxy.isLocal. rewrite (prefix_append "10." rest).
    rewrite orb_true_r. reflexivity.
  - apply localhostOnly_admits; [discriminate|].
    unfold Proxy.isLocal. rewrite (prefix_append "192.168." rest).
    rewrite orb_true_r. reflexivity.
Qed.

(* ------------------------------------------------------------------ *)
(** * A request that nothing disturbs *)

Section Undisturbed.
Import Chrome ServiceWorker Session Timeline.
Variable host : Host.
Variable tabId : nat.
Variable viewportHeight : Z.
Variable numScreenshots : LoopBound.





End Undisturbed.


